(** * UVB-76 stream decoder: a shallow embedding of the decoding pipeline

    The definitions below follow [uvb76_stream_decoder.py], class
    [UVB76StreamDecoder].  Conventions of the embedding:

    - Python floats that carry frequencies, magnitudes and wall-clock times
      are rationals ([Q]); comparisons are the exact ones, and equalities
      between computed values are stated with [==].
    - Python integers are [Z]; lengths and indices are [nat].
    - [str] values are [string]; a [dict] is an association list in
      insertion order; a [deque(maxlen=n)] is a list with its oldest element
      first.
    - [time.time()] is an explicit argument of every function that reads the
      clock; [print] and the tkinter widgets are not part of the model.
    - An exception raised inside a [try] block is the [Raise] constructor of
      [exc]. *)

From Stdlib Require Import ZArith QArith Qabs Qround List String Ascii Bool.
From Stdlib Require Import Lia Lqa DecimalString PeanoNat Sorted.
From Stdlib Require Import Floats.SpecFloat.
From Stdlib Require Strings.Byte.
Import ListNotations.

Set Warnings "-abstract-large-number".

Local Open Scope list_scope.
Local Open Scope string_scope.

(** ** Python built-ins used by the decoder *)

Module Py.

(** [str(n)] for an integer. *)
Definition str (n : Z) : string := NilZero.string_of_int (Z.to_int n).

(** Outcome of a computation that may raise; the payload of [Raise] is the
    text of the exception ([str(e)]). *)
Inductive exc (A : Type) : Type :=
| Ok (a : A)
| Raise (msg : string).
Arguments Ok {A} a.
Arguments Raise {A} msg.

Definition is_bin_digit (c : ascii) : bool :=
  (Ascii.eqb c "0" || Ascii.eqb c "1")%bool.

Fixpoint all_chars (p : ascii -> bool) (s : string) : bool :=
  match s with
  | EmptyString => true
  | String c s' => (p c && all_chars p s')%bool
  end.

(** Value of a string of binary digits, most significant first. *)
Fixpoint bin_value (acc : Z) (s : string) : Z :=
  match s with
  | EmptyString => acc
  | String c s' =>
      bin_value (2 * acc + (if Ascii.eqb c "1" then 1 else 0))%Z s'
  end.

(** [int(s, 2)].  The strings handed to it are slices of a concatenation
    of [str] of integers, so they are made of decimal digits and ['-'];
    on such strings Python accepts an optional sign followed by at least
    one binary digit and raises [ValueError] otherwise. *)
Definition int_base2 (s : string) : exc Z :=
  let invalid :=
    Raise ("invalid literal for int() with base 2: '" ++ s ++ "'") in
  match s with
  | EmptyString => invalid
  | String c s' =>
      if (Ascii.eqb c "-" || Ascii.eqb c "+")%bool then
        match s' with
        | EmptyString => invalid
        | _ =>
            if all_chars is_bin_digit s'
            then Ok (if Ascii.eqb c "-"
                     then (- bin_value 0 s')%Z else bin_value 0 s')
            else invalid
        end
      else if all_chars is_bin_digit s then Ok (bin_value 0 s)
      else invalid
  end.

(** [chr(v)] for a code point below 256. *)
Definition chr (v : Z) : string :=
  String (ascii_of_nat (Z.to_nat v)) EmptyString.

Definition hex_digit (d : Z) : string :=
  substring (Z.to_nat d) 1 "0123456789ABCDEF".

Fixpoint hex_digits (fuel : nat) (n : Z) : string :=
  match fuel with
  | O => EmptyString
  | S fuel' =>
      if (n <? 16)%Z then hex_digit n
      else hex_digits fuel' (n / 16) ++ hex_digit (n mod 16)
  end.

(** [f"{n:02X}"]: upper-case hexadecimal, sign first, zero-padded to two
    characters in all. *)
Definition format_02X (n : Z) : string :=
  let a := Z.abs n in
  let digits := hex_digits (S (Z.to_nat (Z.log2 a))) a in
  if (n <? 0)%Z then "-" ++ digits
  else if (String.length digits <? 2)%nat then "0" ++ digits
  else digits.

(** [sep.join(l)]. *)
Definition join (sep : string) (l : list string) : string :=
  match l with
  | [] => EmptyString
  | x :: l' => fold_left (fun acc y => acc ++ sep ++ y) l' x
  end.

(** [s[:n]]. *)
Definition prefix (n : nat) (s : string) : string := substring 0 n s.

(** [range(0, stop, step)] for a positive [step]; [stop] may be negative. *)
Definition range_step (stop : Z) (step : nat) : list nat :=
  map (fun k => k * step)%nat
      (seq 0 (Z.to_nat ((stop + Z.of_nat step - 1) / Z.of_nat step))).

(** [range(stop)]. *)
Definition range (stop : Z) : list nat := seq 0 (Z.to_nat stop).

(** [s.count(pat)] for a non-empty [pat]: occurrences are counted from the
    left and do not overlap.  [skip] is the number of characters still
    covered by the last occurrence found. *)
Fixpoint count_from (pat : string) (skip : nat) (s : string) : nat :=
  match s with
  | EmptyString => 0
  | String _ s' =>
      match skip with
      | S k => count_from pat k s'
      | O =>
          if String.prefix pat s
          then S (count_from pat (String.length pat - 1) s')
          else count_from pat 0 s'
      end
  end.

Definition count (s pat : string) : nat := count_from pat 0 s.

(** Rounding of a rational to the nearest integer, ties to even. *)
Definition round_half_even (q : Q) : Z :=
  let f := Qfloor q in
  let r := (q - inject_Z f)%Q in
  match Qcompare r (1 # 2) with
  | Lt => f
  | Gt => (f + 1)%Z
  | Eq => if Z.even f then f else (f + 1)%Z
  end.

(** [n] written with at least [width] digits. *)
Definition zero_padded (width : nat) (n : Z) : string :=
  let digits := str n in
  String.concat "" (repeat "0" (width - String.length digits)) ++ digits.

(** [f"{q:.<d>f}"] for [d >= 1] decimals. *)
Definition format_fixed (d : nat) (q : Q) : string :=
  let scale := (10 ^ Z.of_nat d)%Z in
  let units := round_half_even (Qabs q * inject_Z scale)%Q in
  let body :=
    str (units / scale) ++ "." ++ zero_padded d (units mod scale) in
  if Qle_bool 0 q then body else "-" ++ body.

(** [f"{q:.2f}"]. *)
Definition format_2f (q : Q) : string := format_fixed 2 q.

(** [f"{q:.1%}"]. *)
Definition format_pct1 (q : Q) : string := format_fixed 1 (q * 100)%Q ++ "%".

(** [for i in idxs: body], where the body updates the loop-carried value
    or raises. *)
Fixpoint for_each {A : Type} (idxs : list nat) (body : nat -> A -> exc A)
    (acc : A) : exc A :=
  match idxs with
  | [] => Ok acc
  | i :: rest =>
      match body i acc with
      | Ok acc' => for_each rest body acc'
      | Raise e => Raise e
      end
  end.

Definition bind {A B : Type} (m : exc A) (k : A -> exc B) : exc B :=
  match m with
  | Ok a => k a
  | Raise e => Raise e
  end.

(** A string is true when it is not empty. *)
Definition nonempty (s : string) : bool :=
  match s with
  | EmptyString => false
  | String _ _ => true
  end.

End Py.

Import Py.

Notation "x <- m ;; k" := (bind m (fun x => k))
  (at level 61, m at next level, right associativity).

(** ** [collections.deque(maxlen=n)] *)

Module Deque.

(** [d.append(x)] on a deque of maximal length [maxlen]: once the deque is
    full the oldest element is dropped from the left. *)
Definition append {A : Type} (maxlen : nat) (x : A) (d : list A) : list A :=
  if (maxlen =? 0)%nat then d
  else if (maxlen <=? List.length d)%nat then (tl d ++ [x])%list
  else (d ++ [x])%list.

End Deque.

(** The last [n] elements of a list, in their order. *)
Definition lastn {A : Type} (n : nat) (l : list A) : list A :=
  skipn (List.length l - n) l.

(** ** Configuration and session state of [UVB76StreamDecoder] *)

(** [self.uvb76_frequencies]. *)
Record tones : Type := {
  freq_1 : Q;  (* first FSK tone *)
  freq_2 : Q;  (* second FSK tone *)
  freq_3 : Q   (* third FSK tone, the buzzer or carrier *)
}.

(** The attributes that are set once, in [__init__] and [create_gui], and the
    three logging check-boxes of the export tab. *)
Record config : Type := {
  sample_rate : Z;
  chunk_size : Z;
  uvb76_frequencies : tones;
  freq_tolerance : Q;
  min_signal_strength : Q;
  max_waterfall_lines : nat;
  log_binary_var : bool;
  log_frequency_var : bool;
  log_waterfall_var : bool
}.

Definition default_config : config := {|
  sample_rate := 44100;
  chunk_size := 4096;
  uvb76_frequencies := {| freq_1 := 21.53; freq_2 := 26.92; freq_3 := 32.30 |};
  freq_tolerance := 0.5;
  min_signal_strength := 15.0;
  max_waterfall_lines := 100;
  log_binary_var := true;
  log_frequency_var := true;
  log_waterfall_var := false
|}.

(** The defaults of [__init__] with the three logging check-boxes set as
    given. *)
Definition logging_config (log_binary log_frequency log_waterfall : bool)
  : config := {|
  sample_rate := sample_rate default_config;
  chunk_size := chunk_size default_config;
  uvb76_frequencies := uvb76_frequencies default_config;
  freq_tolerance := freq_tolerance default_config;
  min_signal_strength := min_signal_strength default_config;
  max_waterfall_lines := max_waterfall_lines default_config;
  log_binary_var := log_binary;
  log_frequency_var := log_frequency;
  log_waterfall_var := log_waterfall
|}.

(** One entry of [self.fsk_state_history]. *)
Record fsk_event : Type := {
  ev_state : string;
  ev_frequency : Q;
  ev_magnitude : Q;
  ev_timestamp : Q;
  ev_duration : Q
}.

(** One entry of [self.binary_log]. *)
Record bit_record : Type := {
  br_timestamp : Q;
  br_session_time : Q;
  br_binary_state : Z;
  br_frequency : Q;
  br_bit_number : nat
}.

(** One entry of [self.frequency_log]. *)
Record freq_record : Type := {
  fr_timestamp : Q;
  fr_session_time : Q;
  fr_frequency : Q;
  fr_magnitude : Q;
  fr_audio_level : Q
}.

(** One entry of [self.waterfall_log]. *)
Record waterfall_record : Type := {
  wr_timestamp : Q;
  wr_session_time : Q;
  wr_frequencies : list Q;
  wr_magnitudes : list Q
}.

(** The mutable attributes of the decoder object. *)
Record state : Type := {
  is_streaming : bool;
  frequency_buffer : list Q;            (* deque(maxlen=1000) *)
  binary_buffer : list Z;               (* deque(maxlen=500) *)
  time_buffer : list Q;                 (* deque(maxlen=1000) *)
  audio_level_buffer : list Q;          (* deque(maxlen=1000) *)
  binary_log : list bit_record;
  frequency_log : list freq_record;
  waterfall_log : list waterfall_record;
  session_start_time : option Q;
  bytes_received : Z;
  chunks_processed : Z;
  last_audio_time : Q;
  current_fsk_state : option string;
  last_fsk_change : option Q;
  fsk_state_history : list fsk_event;   (* deque(maxlen=50) *)
  waterfall_data : list (list Q);
  waterfall_times : list Q
}.

(** The object as [__init__] and [create_gui] leave it. *)
Definition initial_state : state := {|
  is_streaming := false;
  frequency_buffer := [];
  binary_buffer := [];
  time_buffer := [];
  audio_level_buffer := [];
  binary_log := [];
  frequency_log := [];
  waterfall_log := [];
  session_start_time := None;
  bytes_received := 0;
  chunks_processed := 0;
  last_audio_time := 0;
  current_fsk_state := None;
  last_fsk_change := None;
  fsk_state_history := [];
  waterfall_data := [];
  waterfall_times := []
|}.

(** Attribute assignment, [self.<field> = v], one setter per attribute. *)
Definition set_is_streaming (v : bool) (st : state) : state :=
  {| is_streaming := v;
     frequency_buffer := frequency_buffer st;
     binary_buffer := binary_buffer st;
     time_buffer := time_buffer st;
     audio_level_buffer := audio_level_buffer st;
     binary_log := binary_log st;
     frequency_log := frequency_log st;
     waterfall_log := waterfall_log st;
     session_start_time := session_start_time st;
     bytes_received := bytes_received st;
     chunks_processed := chunks_processed st;
     last_audio_time := last_audio_time st;
     current_fsk_state := current_fsk_state st;
     last_fsk_change := last_fsk_change st;
     fsk_state_history := fsk_state_history st;
     waterfall_data := waterfall_data st;
     waterfall_times := waterfall_times st |}.

Definition set_frequency_buffer (v : list Q) (st : state) : state :=
  {| is_streaming := is_streaming st;
     frequency_buffer := v;
     binary_buffer := binary_buffer st;
     time_buffer := time_buffer st;
     audio_level_buffer := audio_level_buffer st;
     binary_log := binary_log st;
     frequency_log := frequency_log st;
     waterfall_log := waterfall_log st;
     session_start_time := session_start_time st;
     bytes_received := bytes_received st;
     chunks_processed := chunks_processed st;
     last_audio_time := last_audio_time st;
     current_fsk_state := current_fsk_state st;
     last_fsk_change := last_fsk_change st;
     fsk_state_history := fsk_state_history st;
     waterfall_data := waterfall_data st;
     waterfall_times := waterfall_times st |}.

Definition set_binary_buffer (v : list Z) (st : state) : state :=
  {| is_streaming := is_streaming st;
     frequency_buffer := frequency_buffer st;
     binary_buffer := v;
     time_buffer := time_buffer st;
     audio_level_buffer := audio_level_buffer st;
     binary_log := binary_log st;
     frequency_log := frequency_log st;
     waterfall_log := waterfall_log st;
     session_start_time := session_start_time st;
     bytes_received := bytes_received st;
     chunks_processed := chunks_processed st;
     last_audio_time := last_audio_time st;
     current_fsk_state := current_fsk_state st;
     last_fsk_change := last_fsk_change st;
     fsk_state_history := fsk_state_history st;
     waterfall_data := waterfall_data st;
     waterfall_times := waterfall_times st |}.

Definition set_time_buffer (v : list Q) (st : state) : state :=
  {| is_streaming := is_streaming st;
     frequency_buffer := frequency_buffer st;
     binary_buffer := binary_buffer st;
     time_buffer := v;
     audio_level_buffer := audio_level_buffer st;
     binary_log := binary_log st;
     frequency_log := frequency_log st;
     waterfall_log := waterfall_log st;
     session_start_time := session_start_time st;
     bytes_received := bytes_received st;
     chunks_processed := chunks_processed st;
     last_audio_time := last_audio_time st;
     current_fsk_state := current_fsk_state st;
     last_fsk_change := last_fsk_change st;
     fsk_state_history := fsk_state_history st;
     waterfall_data := waterfall_data st;
     waterfall_times := waterfall_times st |}.

Definition set_audio_level_buffer (v : list Q) (st : state) : state :=
  {| is_streaming := is_streaming st;
     frequency_buffer := frequency_buffer st;
     binary_buffer := binary_buffer st;
     time_buffer := time_buffer st;
     audio_level_buffer := v;
     binary_log := binary_log st;
     frequency_log := frequency_log st;
     waterfall_log := waterfall_log st;
     session_start_time := session_start_time st;
     bytes_received := bytes_received st;
     chunks_processed := chunks_processed st;
     last_audio_time := last_audio_time st;
     current_fsk_state := current_fsk_state st;
     last_fsk_change := last_fsk_change st;
     fsk_state_history := fsk_state_history st;
     waterfall_data := waterfall_data st;
     waterfall_times := waterfall_times st |}.

Definition set_binary_log (v : list bit_record) (st : state) : state :=
  {| is_streaming := is_streaming st;
     frequency_buffer := frequency_buffer st;
     binary_buffer := binary_buffer st;
     time_buffer := time_buffer st;
     audio_level_buffer := audio_level_buffer st;
     binary_log := v;
     frequency_log := frequency_log st;
     waterfall_log := waterfall_log st;
     session_start_time := session_start_time st;
     bytes_received := bytes_received st;
     chunks_processed := chunks_processed st;
     last_audio_time := last_audio_time st;
     current_fsk_state := current_fsk_state st;
     last_fsk_change := last_fsk_change st;
     fsk_state_history := fsk_state_history st;
     waterfall_data := waterfall_data st;
     waterfall_times := waterfall_times st |}.

Definition set_frequency_log (v : list freq_record) (st : state) : state :=
  {| is_streaming := is_streaming st;
     frequency_buffer := frequency_buffer st;
     binary_buffer := binary_buffer st;
     time_buffer := time_buffer st;
     audio_level_buffer := audio_level_buffer st;
     binary_log := binary_log st;
     frequency_log := v;
     waterfall_log := waterfall_log st;
     session_start_time := session_start_time st;
     bytes_received := bytes_received st;
     chunks_processed := chunks_processed st;
     last_audio_time := last_audio_time st;
     current_fsk_state := current_fsk_state st;
     last_fsk_change := last_fsk_change st;
     fsk_state_history := fsk_state_history st;
     waterfall_data := waterfall_data st;
     waterfall_times := waterfall_times st |}.

Definition set_waterfall_log (v : list waterfall_record) (st : state) : state :=
  {| is_streaming := is_streaming st;
     frequency_buffer := frequency_buffer st;
     binary_buffer := binary_buffer st;
     time_buffer := time_buffer st;
     audio_level_buffer := audio_level_buffer st;
     binary_log := binary_log st;
     frequency_log := frequency_log st;
     waterfall_log := v;
     session_start_time := session_start_time st;
     bytes_received := bytes_received st;
     chunks_processed := chunks_processed st;
     last_audio_time := last_audio_time st;
     current_fsk_state := current_fsk_state st;
     last_fsk_change := last_fsk_change st;
     fsk_state_history := fsk_state_history st;
     waterfall_data := waterfall_data st;
     waterfall_times := waterfall_times st |}.

Definition set_session_start_time (v : option Q) (st : state) : state :=
  {| is_streaming := is_streaming st;
     frequency_buffer := frequency_buffer st;
     binary_buffer := binary_buffer st;
     time_buffer := time_buffer st;
     audio_level_buffer := audio_level_buffer st;
     binary_log := binary_log st;
     frequency_log := frequency_log st;
     waterfall_log := waterfall_log st;
     session_start_time := v;
     bytes_received := bytes_received st;
     chunks_processed := chunks_processed st;
     last_audio_time := last_audio_time st;
     current_fsk_state := current_fsk_state st;
     last_fsk_change := last_fsk_change st;
     fsk_state_history := fsk_state_history st;
     waterfall_data := waterfall_data st;
     waterfall_times := waterfall_times st |}.

Definition set_bytes_received (v : Z) (st : state) : state :=
  {| is_streaming := is_streaming st;
     frequency_buffer := frequency_buffer st;
     binary_buffer := binary_buffer st;
     time_buffer := time_buffer st;
     audio_level_buffer := audio_level_buffer st;
     binary_log := binary_log st;
     frequency_log := frequency_log st;
     waterfall_log := waterfall_log st;
     session_start_time := session_start_time st;
     bytes_received := v;
     chunks_processed := chunks_processed st;
     last_audio_time := last_audio_time st;
     current_fsk_state := current_fsk_state st;
     last_fsk_change := last_fsk_change st;
     fsk_state_history := fsk_state_history st;
     waterfall_data := waterfall_data st;
     waterfall_times := waterfall_times st |}.

Definition set_chunks_processed (v : Z) (st : state) : state :=
  {| is_streaming := is_streaming st;
     frequency_buffer := frequency_buffer st;
     binary_buffer := binary_buffer st;
     time_buffer := time_buffer st;
     audio_level_buffer := audio_level_buffer st;
     binary_log := binary_log st;
     frequency_log := frequency_log st;
     waterfall_log := waterfall_log st;
     session_start_time := session_start_time st;
     bytes_received := bytes_received st;
     chunks_processed := v;
     last_audio_time := last_audio_time st;
     current_fsk_state := current_fsk_state st;
     last_fsk_change := last_fsk_change st;
     fsk_state_history := fsk_state_history st;
     waterfall_data := waterfall_data st;
     waterfall_times := waterfall_times st |}.

Definition set_last_audio_time (v : Q) (st : state) : state :=
  {| is_streaming := is_streaming st;
     frequency_buffer := frequency_buffer st;
     binary_buffer := binary_buffer st;
     time_buffer := time_buffer st;
     audio_level_buffer := audio_level_buffer st;
     binary_log := binary_log st;
     frequency_log := frequency_log st;
     waterfall_log := waterfall_log st;
     session_start_time := session_start_time st;
     bytes_received := bytes_received st;
     chunks_processed := chunks_processed st;
     last_audio_time := v;
     current_fsk_state := current_fsk_state st;
     last_fsk_change := last_fsk_change st;
     fsk_state_history := fsk_state_history st;
     waterfall_data := waterfall_data st;
     waterfall_times := waterfall_times st |}.

Definition set_current_fsk_state (v : option string) (st : state) : state :=
  {| is_streaming := is_streaming st;
     frequency_buffer := frequency_buffer st;
     binary_buffer := binary_buffer st;
     time_buffer := time_buffer st;
     audio_level_buffer := audio_level_buffer st;
     binary_log := binary_log st;
     frequency_log := frequency_log st;
     waterfall_log := waterfall_log st;
     session_start_time := session_start_time st;
     bytes_received := bytes_received st;
     chunks_processed := chunks_processed st;
     last_audio_time := last_audio_time st;
     current_fsk_state := v;
     last_fsk_change := last_fsk_change st;
     fsk_state_history := fsk_state_history st;
     waterfall_data := waterfall_data st;
     waterfall_times := waterfall_times st |}.

Definition set_last_fsk_change (v : option Q) (st : state) : state :=
  {| is_streaming := is_streaming st;
     frequency_buffer := frequency_buffer st;
     binary_buffer := binary_buffer st;
     time_buffer := time_buffer st;
     audio_level_buffer := audio_level_buffer st;
     binary_log := binary_log st;
     frequency_log := frequency_log st;
     waterfall_log := waterfall_log st;
     session_start_time := session_start_time st;
     bytes_received := bytes_received st;
     chunks_processed := chunks_processed st;
     last_audio_time := last_audio_time st;
     current_fsk_state := current_fsk_state st;
     last_fsk_change := v;
     fsk_state_history := fsk_state_history st;
     waterfall_data := waterfall_data st;
     waterfall_times := waterfall_times st |}.

Definition set_fsk_state_history (v : list fsk_event) (st : state) : state :=
  {| is_streaming := is_streaming st;
     frequency_buffer := frequency_buffer st;
     binary_buffer := binary_buffer st;
     time_buffer := time_buffer st;
     audio_level_buffer := audio_level_buffer st;
     binary_log := binary_log st;
     frequency_log := frequency_log st;
     waterfall_log := waterfall_log st;
     session_start_time := session_start_time st;
     bytes_received := bytes_received st;
     chunks_processed := chunks_processed st;
     last_audio_time := last_audio_time st;
     current_fsk_state := current_fsk_state st;
     last_fsk_change := last_fsk_change st;
     fsk_state_history := v;
     waterfall_data := waterfall_data st;
     waterfall_times := waterfall_times st |}.

Definition set_waterfall_data (v : list (list Q)) (st : state) : state :=
  {| is_streaming := is_streaming st;
     frequency_buffer := frequency_buffer st;
     binary_buffer := binary_buffer st;
     time_buffer := time_buffer st;
     audio_level_buffer := audio_level_buffer st;
     binary_log := binary_log st;
     frequency_log := frequency_log st;
     waterfall_log := waterfall_log st;
     session_start_time := session_start_time st;
     bytes_received := bytes_received st;
     chunks_processed := chunks_processed st;
     last_audio_time := last_audio_time st;
     current_fsk_state := current_fsk_state st;
     last_fsk_change := last_fsk_change st;
     fsk_state_history := fsk_state_history st;
     waterfall_data := v;
     waterfall_times := waterfall_times st |}.

Definition set_waterfall_times (v : list Q) (st : state) : state :=
  {| is_streaming := is_streaming st;
     frequency_buffer := frequency_buffer st;
     binary_buffer := binary_buffer st;
     time_buffer := time_buffer st;
     audio_level_buffer := audio_level_buffer st;
     binary_log := binary_log st;
     frequency_log := frequency_log st;
     waterfall_log := waterfall_log st;
     session_start_time := session_start_time st;
     bytes_received := bytes_received st;
     chunks_processed := chunks_processed st;
     last_audio_time := last_audio_time st;
     current_fsk_state := current_fsk_state st;
     last_fsk_change := last_fsk_change st;
     fsk_state_history := fsk_state_history st;
     waterfall_data := waterfall_data st;
     waterfall_times := v |}.

(** Truth value of an optional float: [None] and [0.0] are false. *)
Definition truthy (t : option Q) : bool :=
  match t with
  | None => false
  | Some q => negb (Qeq_bool q 0)
  end.

(** [a or b] for an optional float [a]. *)
Definition or_else (a : option Q) (b : Q) : Q :=
  match a with
  | Some q => if Qeq_bool q 0 then b else q
  | None => b
  end.

(** [current_time - self.session_start_time if self.session_start_time
    else 0]. *)
Definition session_time_of (st : state) (current_time : Q) : Q :=
  match session_start_time st with
  | Some t0 => if truthy (Some t0) then current_time - t0 else 0
  | None => 0
  end.

(** ** ToneClassifier *)

Section Classifier.

Variable cfg : config.

Let f1 := freq_1 (uvb76_frequencies cfg).
Let f2 := freq_2 (uvb76_frequencies cfg).
Let f3 := freq_3 (uvb76_frequencies cfg).
Let tol := freq_tolerance cfg.

(** [frequency_to_binary_debug]: the variant the pipeline calls. *)
Definition frequency_to_binary_debug (frequency : Q) : option Z :=
  if Qle_bool (Qabs (frequency - f1)) tol then Some 0%Z
  else if Qle_bool (Qabs (frequency - f2)) tol then Some 1%Z
  else if Qle_bool (Qabs (frequency - f3)) tol then None
  else
    if (Qle_bool 20.0 frequency && Qle_bool frequency 35.0)%bool then None
    else None.

(** [frequency_to_binary]. *)
Definition frequency_to_binary (frequency : Q) : option Z :=
  if Qle_bool (Qabs (frequency - f1)) tol then Some 0%Z
  else if Qle_bool (Qabs (frequency - f2)) tol then Some 1%Z
  else if Qle_bool (Qabs (frequency - f3)) tol then None
  else None.

(** The state label computed at the head of [update_fsk_state]. *)
Definition fsk_label (frequency : Q) : string :=
  if Qle_bool (Qabs (frequency - f1)) tol
  then "FSK-1 (" ++ format_2f f1 ++ "Hz)"
  else if Qle_bool (Qabs (frequency - f2)) tol
  then "FSK-2 (" ++ format_2f f2 ++ "Hz)"
  else if Qle_bool (Qabs (frequency - f3)) tol
  then "FSK-3 (" ++ format_2f f3 ++ "Hz)"
  else "Unknown (" ++ format_2f frequency ++ "Hz)".

Definition label_changed (new_state : string) (cur : option string) : bool :=
  match cur with
  | Some s => negb (String.eqb new_state s)
  | None => true
  end.

(** [update_fsk_state]; [current_time] is the value of [time.time()] read
    on entry.  The assignments are in the order of the source:
    [self.last_fsk_change] is written first, and the event that is appended
    next reads it back. *)
Definition update_fsk_state (current_time frequency magnitude : Q)
    (st : state) : state * string :=
  let new_state := fsk_label frequency in
  if label_changed new_state (current_fsk_state st) then
    let st := set_last_fsk_change (Some current_time) st in
    let event := {|
      ev_state := new_state;
      ev_frequency := frequency;
      ev_magnitude := magnitude;
      ev_timestamp := current_time;
      ev_duration := current_time - or_else (last_fsk_change st) current_time
    |} in
    let st := set_fsk_state_history
                (Deque.append 50 event (fsk_state_history st)) st in
    let st := set_current_fsk_state (Some new_state) st in
    (st, new_state)
  else (st, new_state).

End Classifier.

(** ** AudioDecoder: the decoding attempts at the head of
    [process_audio_chunk] *)

Module Audio.

Local Open Scope Z_scope.

(** A [numpy.float32] value, as the IEEE 754 binary32 datum it is. *)
Definition float32 : Type := spec_float.

Definition f32_prec : Z := 24.
Definition f32_emax : Z := 128.

(** Split a buffer into consecutive items of [width] bytes. *)
Fixpoint items (fuel width : nat) (buf : list Byte.byte)
  : list (list Byte.byte) :=
  match fuel with
  | O => []
  | S fuel' =>
      match buf with
      | [] => []
      | _ => firstn width buf :: items fuel' width (skipn width buf)
      end
  end.

(** [np.frombuffer(buf, dtype)] for an item size of [width] bytes: the
    buffer is cut into items, and a size that is not a multiple of the item
    size raises [ValueError]. *)
Definition frombuffer (width : nat) (buf : list Byte.byte)
  : exc (list (list Byte.byte)) :=
  if (List.length buf mod width =? 0)%nat
  then Ok (items (List.length buf) width buf)
  else Raise "buffer size must be a multiple of element size".

Definition byte_val (b : Byte.byte) : Z := Z.of_N (Byte.to_N b).

(** Unsigned value of an item, least significant byte first. *)
Definition le_unsigned (item : list Byte.byte) : Z :=
  fold_right (fun b acc => byte_val b + 256 * acc) 0 item.

(** Unsigned value of an item, most significant byte first. *)
Definition be_unsigned (item : list Byte.byte) : Z :=
  fold_left (fun acc b => 256 * acc + byte_val b) item 0.

(** Two's complement reading of a 16-bit pattern. *)
Definition signed16 (u : Z) : Z := if u <? 32768 then u else u - 65536.

(** [dtype=np.int16] (native order, little-endian) and [dtype='>i2']. *)
Definition int16_le (item : list Byte.byte) : Z := signed16 (le_unsigned item).
Definition int16_be (item : list Byte.byte) : Z := signed16 (be_unsigned item).

(** [.astype(np.float32)] of a 16-bit integer. *)
Definition astype_float32 (v : Z) : float32 :=
  binary_normalize f32_prec f32_emax v 0 false.

(** [x / 32768.0] in binary32. *)
Definition div_32768 (x : float32) : float32 :=
  SFdiv f32_prec f32_emax x (astype_float32 32768).

(** [dtype=np.float32] (native order, little-endian): sign, biased exponent
    and fraction of the 32-bit pattern. *)
Definition float32_of_bits (w : Z) : float32 :=
  let s := Z.testbit w 31 in
  let e := (w / 2 ^ 23) mod 256 in
  let m := w mod 2 ^ 23 in
  if e =? 255 then (if m =? 0 then S754_infinity s else S754_nan)
  else if e =? 0 then
    match m with
    | Zpos p => S754_finite s p (-149)
    | _ => S754_zero s
    end
  else
    match m + 2 ^ 23 with
    | Zpos p => S754_finite s p (e - 150)
    | _ => S754_zero s
    end.

Definition float32_le (item : list Byte.byte) : float32 :=
  float32_of_bits (le_unsigned item).

(** The three readings of a chunk, in the order of the source; each one is
    the right-hand side of the first assignment of its [try] block together
    with the normalisation that follows it. *)
Definition as_int16_le (audio_bytes : list Byte.byte) : exc (list float32) :=
  match frombuffer 2 audio_bytes with
  | Ok a => Ok (map (fun it => div_32768 (astype_float32 (int16_le it))) a)
  | Raise e => Raise e
  end.

Definition as_float32 (audio_bytes : list Byte.byte) : exc (list float32) :=
  match frombuffer 4 audio_bytes with
  | Ok a => Ok (map float32_le a)
  | Raise e => Raise e
  end.

Definition as_int16_be (audio_bytes : list Byte.byte) : exc (list float32) :=
  match frombuffer 2 audio_bytes with
  | Ok a => Ok (map (fun it => div_32768 (astype_float32 (int16_be it))) a)
  | Raise e => Raise e
  end.

(** One [try] block: on success the reading replaces [audio_data], and is
    reset to [None] when it has fewer than 100 samples; [except: pass]
    leaves [audio_data] as it was. *)
Definition attempt (reading : exc (list float32))
    (audio_data : option (list float32)) : option (list float32) :=
  match reading with
  | Ok d => if (List.length d <? 100)%nat then None else Some d
  | Raise _ => audio_data
  end.

(** The decoding part of [process_audio_chunk]: the value of [audio_data]
    when the three methods have been tried; [None] is the case in which the
    chunk is reported as undecodable and skipped. *)
Definition decode_audio (audio_bytes : list Byte.byte)
  : option (list float32) :=
  let audio_data := None in
  (* Method 1: raw PCM *)
  let audio_data := attempt (as_int16_le audio_bytes) audio_data in
  (* Method 2: float32 *)
  let audio_data :=
    match audio_data with
    | None => attempt (as_float32 audio_bytes) audio_data
    | Some _ => audio_data
    end in
  (* Method 3: the other byte order *)
  let audio_data :=
    match audio_data with
    | None => attempt (as_int16_be audio_bytes) audio_data
    | Some _ => audio_data
    end in
  audio_data.

(** The priority rule in the words of the specification: the first reading
    of the list that parses and has at least 100 samples. *)
Fixpoint first_usable (readings : list (exc (list float32)))
  : option (list float32) :=
  match readings with
  | [] => None
  | Ok d :: rest =>
      if (100 <=? List.length d)%nat then Some d else first_usable rest
  | Raise _ :: rest => first_usable rest
  end.

(** A chunk of [n] four-byte items [00 00 80 3f]: the float 1.0 when read
    as binary32, the integers 0 and 16256 when read as 16-bit PCM. *)
Definition ones_chunk (n : nat) : list Byte.byte :=
  List.concat (repeat [Byte.x00; Byte.x00; Byte.x80; Byte.x3f] n).

(** The rational a finite binary32 datum stands for. *)
Definition float32_value (x : float32) : option Q :=
  match x with
  | S754_zero _ => Some 0%Q
  | S754_finite s m e =>
      let q := if (0 <=? e)%Z then inject_Z (Zpos m * 2 ^ e)
               else (Zpos m # Z.to_pos (2 ^ (- e))) in
      Some (if s then (- q)%Q else q)
  | _ => None
  end.

(** Is the sample computed for the 16-bit integer [v] the rational
    [v / 32768]? *)
Definition exact_at (v : Z) : bool :=
  match float32_value (div_32768 (astype_float32 v)) with
  | Some q => Qeq_bool q (v # 32768)
  | None => false
  end.

(** [exact_at] on the [count] integers from [lo] on. *)
Definition exact_from (lo : Z) (count : positive) : Z * bool :=
  Pos.iter (fun st => (fst st + 1, (snd st && exact_at (fst st))%bool))
           (lo, true) count.

End Audio.

(** ** SpectralFrontEnd: peak selection in [process_audio_chunk] *)

Module Spectral.

Local Open Scope Q_scope.

(** [scipy.fft.fftfreq(n, d)] with [d = 1/sample_rate]: the non-negative
    bins [0 .. N-1] first, then the negative ones [-(n//2) .. -1], all
    scaled by [1/(n*d)]. *)
Definition fftfreq (n : nat) (sample_rate : Z) : list Q :=
  let d := 1 / inject_Z sample_rate in
  let val := 1 / (inject_Z (Z.of_nat n) * d) in
  let N := ((n - 1) / 2 + 1)%nat in
  let p1 := map Z.of_nat (seq 0 N) in
  let p2 := map (fun i => (Z.of_nat i - Z.of_nat (n / 2))%Z) (seq 0 (n / 2)) in
  map (fun k => inject_Z k * val) (p1 ++ p2)%list.

(** [(freqs >= 20.0) & (freqs <= 34.0)], element by element. *)
Definition in_target_range (f : Q) : bool :=
  (Qle_bool 20.0 f && Qle_bool f 34.0)%bool.

(** Indexing an array with a boolean array of the same length. *)
Definition mask {A : Type} (m : list bool) (l : list A) : list A :=
  map snd (filter fst (combine m l)).

Definition enumerate {A : Type} (l : list A) : list (nat * A) :=
  combine (seq 0 (List.length l)) l.

(** An entry of [significant_peaks]: [(freq, mag, i)]. *)
Definition peak : Type := (Q * Q * nat)%type.

Definition peak_freq (p : peak) : Q := fst (fst p).
Definition peak_mag (p : peak) : Q := snd (fst p).
Definition peak_idx (p : peak) : nat := snd p.

(** The loop that collects the in-range bins whose magnitude reaches the
    threshold. *)
Definition significant_peaks (threshold : Q)
    (range_freqs range_magnitude : list Q) : list peak :=
  map (fun e => (fst (snd e), snd (snd e), fst e))
      (filter (fun e => Qle_bool threshold (snd (snd e)))
              (enumerate (combine range_freqs range_magnitude))).

(** [l.sort(key=lambda x: x[1], reverse=True)].  Python's sort is stable,
    also with [reverse=True]: entries of equal magnitude keep their order.
    A stable sort has one possible result, so it is written here as an
    insertion sort that puts an entry in front of those it is not smaller
    than. *)
Fixpoint insert_desc (x : peak) (l : list peak) : list peak :=
  match l with
  | [] => [x]
  | y :: l' =>
      if Qle_bool (peak_mag y) (peak_mag x) then x :: l
      else y :: insert_desc x l'
  end.

Definition sort_by_magnitude_desc (l : list peak) : list peak :=
  fold_right insert_desc [] l.

(** Lines 834-849: the peak of the pass, if there is one. *)
Definition find_peak (threshold : Q) (freqs magnitude : list Q)
  : option peak :=
  let target_range := map in_target_range freqs in
  if existsb (fun b => b) target_range then
    let range_freqs := mask target_range freqs in
    let range_magnitude := mask target_range magnitude in
    if (0 <? List.length range_magnitude)%nat then
      match sort_by_magnitude_desc
              (significant_peaks threshold range_freqs range_magnitude) with
      | [] => None
      | p :: _ => Some p
      end
    else None
  else None.

(** The bins of a pass with the index each one has among the in-range
    bins, counted from [start], restricted to those whose magnitude reaches
    the threshold: [significant_peaks] written over the whole spectrum. *)
Definition peaks_of (start : nat) (threshold : Q) (bins : list (Q * Q))
  : list peak :=
  let in_range := filter (fun b => in_target_range (fst b)) bins in
  map (fun e => (fst (snd e), snd (snd e), fst e))
      (filter (fun e => Qle_bool threshold (snd (snd e)))
              (combine (seq start (List.length in_range)) in_range)).

(** The range test on a bin. *)
Definition in_range (b : Q * Q) : bool := in_target_range (fst b).

(** The order of the bin numbers along the frequency axis: a positive bin
    number is larger than the bin numbers before it. *)
Definition grows (x y : Z) : Prop := (0 < y -> x < y)%Z.

(** A bin that can become the peak: in range, with a magnitude that reaches
    the threshold. *)
Definition eligible (threshold : Q) (b : Q * Q) : Prop :=
  in_target_range (fst b) = true /\ threshold <= snd b.

(** A spectrum of 8192 bins in which the bins 4 and 5 (21.53 Hz and
    26.92 Hz) both have magnitude 20 and the bin 6 has magnitude 16. *)
Definition example_magnitude : list Q :=
  ([0; 0; 0; 0; 20; 20; 16; 99] ++ repeat 0 8184)%list.

Section Pass.

Variable cfg : config.

(** The loop over [self.uvb76_frequencies.items()] that sets
    [is_uvb_frequency]. *)
Definition is_uvb_frequency (peak_freq : Q) : bool :=
  let t := uvb76_frequencies cfg in
  existsb (fun tone_freq =>
             Qle_bool (Qabs (peak_freq - tone_freq)) (freq_tolerance cfg * 2))
          [freq_1 t; freq_2 t; freq_3 t].

(** Lines 883-894: a decoded bit goes to the display buffer and, when
    binary logging is on, to the log. *)
Definition append_bit (current_time peak_freq : Q) (binary_state : Z)
    (st : state) : state :=
  let st := set_binary_buffer
              (Deque.append 500 binary_state (binary_buffer st)) st in
  if log_binary_var cfg then
    set_binary_log
      (binary_log st ++
       [{| br_timestamp := current_time;
           br_session_time := session_time_of st current_time;
           br_binary_state := binary_state;
           br_frequency := peak_freq;
           br_bit_number := List.length (binary_log st) + 1 |}])%list st
  else st.

(** The bits of successive passes, each with the clock value and the peak
    frequency of its pass, accumulated in order. *)
Definition append_bits (passes : list (Q * Q * Z)) (st : state) : state :=
  fold_left
    (fun st pass => append_bit (fst (fst pass)) (snd (fst pass)) (snd pass) st)
    passes st.

(** [n] synthetic passes: pass [i] at clock value [i] carries the bit
    [i mod 2] at the frequency of its tone. *)
Definition synthetic_passes (n : nat) : list (Q * Q * Z) :=
  map (fun i =>
         (inject_Z (Z.of_nat i),
          if Nat.even i then freq_1 (uvb76_frequencies cfg)
          else freq_2 (uvb76_frequencies cfg),
          Z.of_nat (i mod 2)))
      (seq 0 n).

(** Lines 881-896: classification of the peak frequency and accumulation
    of the bit it stands for. *)
Definition decode_peak (current_time peak_freq : Q) (st : state) : state :=
  match frequency_to_binary_debug cfg peak_freq with
  | Some binary_state => append_bit current_time peak_freq binary_state st
  | None => st
  end.

(** Lines 853-896: what is done with the peak of a pass.  [fsk_time] is the
    clock value read inside [update_fsk_state]. *)
Definition track_peak (current_time fsk_time audio_level : Q) (p : peak)
    (st : state) : state :=
  let peak_freq := peak_freq p in
  let peak_mag := peak_mag p in
  if (is_uvb_frequency peak_freq
      && Qle_bool (min_signal_strength cfg) peak_mag)%bool then
    let st := fst (update_fsk_state cfg fsk_time peak_freq peak_mag st) in
    let st := set_frequency_buffer
                (Deque.append 1000 peak_freq (frequency_buffer st)) st in
    let st := set_time_buffer
                (Deque.append 1000 current_time (time_buffer st)) st in
    let st :=
      if log_frequency_var cfg then
        set_frequency_log
          (frequency_log st ++
           [{| fr_timestamp := current_time;
               fr_session_time := session_time_of st current_time;
               fr_frequency := peak_freq;
               fr_magnitude := peak_mag;
               fr_audio_level := audio_level |}])%list st
      else st in
    decode_peak current_time peak_freq st
  else st.

(** Lines 833-896: the search for the peak in the spectrum of the pass and
    the processing of the peak found. *)
Definition detect_tone (current_time fsk_time audio_level : Q)
    (freqs magnitude : list Q) (st : state) : state :=
  match find_peak (min_signal_strength cfg) freqs magnitude with
  | Some p => track_peak current_time fsk_time audio_level p st
  | None => st
  end.

(** Lines 814-905: the part of a pass that follows the Fourier transform;
    [magnitude] is [np.abs(fft_data)], of length [window_size]. *)
Definition process_spectrum (current_time fsk_time audio_level : Q)
    (window_size : nat) (magnitude : list Q) (st : state) : state :=
  let freqs := fftfreq window_size (sample_rate cfg) in
  let waterfall_freqs := firstn (window_size / 2) freqs in
  let waterfall_magnitude := firstn (window_size / 2) magnitude in
  let st := set_waterfall_data
              (waterfall_data st ++ [waterfall_magnitude])%list st in
  let st := set_waterfall_times
              (waterfall_times st ++ [current_time])%list st in
  let st :=
    if (max_waterfall_lines cfg <? List.length (waterfall_data st))%nat then
      set_waterfall_times (tl (waterfall_times st))
        (set_waterfall_data (tl (waterfall_data st)) st)
    else st in
  let st := detect_tone current_time fsk_time audio_level freqs magnitude st in
  if (log_waterfall_var cfg
      && (0 <? List.length (waterfall_data st))%nat)%bool then
    set_waterfall_log
      (waterfall_log st ++
       [{| wr_timestamp := current_time;
           wr_session_time := session_time_of st current_time;
           wr_frequencies := waterfall_freqs;
           wr_magnitudes := waterfall_magnitude |}])%list st
  else st.

End Pass.

End Spectral.

(** ** Session start *)

Module Session.

(** The two threads of a session. *)
Inductive task : Type :=
| StreamAudio (url : string)   (* target [self.stream_audio], args [(url,)] *)
| AnalyzeAudio.                (* target [self.analyze_audio] *)

(** [start_stream]; [url] is [self.stream_url.get()] and [now] the value of
    [time.time()].  The result is the object as it is when the threads are
    started, with the threads that are started, in that order: the two
    [Thread.start()] calls are the last statements of the function. *)
Definition start_stream (url : string) (now : Q) (st : state)
  : state * list task :=
  if negb (nonempty url) then (st, [])
  else
    let st := set_is_streaming true st in
    (* Initialize session *)
    let st := set_session_start_time (Some now) st in
    (* Clear buffers and logs *)
    let st := set_frequency_buffer [] st in
    let st := set_binary_buffer [] st in
    let st := set_time_buffer [] st in
    let st := set_audio_level_buffer [] st in
    let st := set_waterfall_data [] st in
    let st := set_waterfall_times [] st in
    (* Initialize logs *)
    let st := set_binary_log [] st in
    let st := set_frequency_log [] st in
    let st := set_waterfall_log [] st in
    (st, [StreamAudio url; AnalyzeAudio]).

(** Line 687 of [stream_audio]: a chunk of [n] bytes has been queued. *)
Definition count_bytes (n : Z) (st : state) : state :=
  set_bytes_received (bytes_received st + n)%Z st.

(** Line 750, the head of [process_audio_chunk]. *)
Definition count_chunk (st : state) : state :=
  set_chunks_processed (chunks_processed st + 1)%Z st.

(** The reset that the specification asks of a session start: every
    bounded buffer, every log and every session counter is cleared. *)
Definition fully_reset (st : state) : Prop :=
  frequency_buffer st = [] /\ binary_buffer st = [] /\ time_buffer st = []
  /\ audio_level_buffer st = []
  /\ waterfall_data st = [] /\ waterfall_times st = []
  /\ fsk_state_history st = []
  /\ binary_log st = [] /\ frequency_log st = [] /\ waterfall_log st = []
  /\ bytes_received st = 0%Z /\ chunks_processed st = 0%Z.

(** A decoder that has been through a session: one state change, one chunk
    of 4096 bytes received and processed. *)
Definition used_state : state :=
  count_chunk
    (count_bytes 4096
       (fst (update_fsk_state default_config 100 21.53 20 initial_state))).

(** [stop_stream]. *)
Definition stop_stream (st : state) : state := set_is_streaming false st.

End Session.

(** ** PatternDecoder *)

Module Pattern.

(** The values stored in the report dictionaries. *)
Inductive value : Type :=
| VStr (s : string)
| VList (l : list string).

(** A [dict] with string keys, in insertion order. *)
Definition dict : Type := list (string * value).

(** [d[k] = v]: an existing key keeps its place. *)
Fixpoint dict_set (k : string) (v : value) (d : dict) : dict :=
  match d with
  | [] => [(k, v)]
  | (k', v') :: d' =>
      if String.eqb k k' then (k, v) :: d' else (k', v') :: dict_set k v d'
  end.

(** [d.get(k)]. *)
Fixpoint dict_get (k : string) (d : dict) : option value :=
  match d with
  | [] => None
  | (k', v') :: d' => if String.eqb k k' then Some v' else dict_get k d'
  end.

(** [''.join(map(str, bits))]. *)
Definition bit_string_of (bits : list Z) : string :=
  String.concat "" (map str bits).

(** [len(bit_string) - k], which may be negative. *)
Definition len_minus (bit_string : string) (k : Z) : Z :=
  (Z.of_nat (String.length bit_string) - k)%Z.

Definition baudot_letters : list (string * string) :=
  [("11000", "A"); ("10011", "B"); ("01110", "C"); ("10010", "D");
   ("10000", "E"); ("10110", "F"); ("01011", "G"); ("00101", "H");
   ("01100", "I"); ("11010", "J"); ("11110", "K"); ("01001", "L");
   ("00111", "M"); ("00110", "N"); ("00011", "O"); ("01101", "P");
   ("11101", "Q"); ("01010", "R"); ("10100", "S"); ("00001", "T");
   ("11100", "U"); ("01111", "V"); ("11001", "W"); ("10111", "X");
   ("10101", "Y"); ("10001", "Z")].

Definition sync_patterns : list (string * string) :=
  [("10101010", "SYNC_AA"); ("01010101", "SYNC_55");
   ("11110000", "SYNC_F0"); ("00001111", "SYNC_0F");
   ("11111111", "ALL_ONES"); ("00000000", "ALL_ZEROS")].

Fixpoint assoc (k : string) (table : list (string * string))
  : option string :=
  match table with
  | [] => None
  | (k', v) :: t => if String.eqb k k' then Some v else assoc k t
  end.

(** The body of a [try] block of [decode_binary_sequence]: it raises, or it
    ends with the value it stores in its slot of [results], if any. *)
Definition codec : Type := string -> exc (option value).

(** [results[key] = value if value] at the end of a block. *)
Definition stored (s : string) (shown : string) : option value :=
  if nonempty s then Some (VStr shown) else None.

(** Method 1: ASCII decoding (8-bit bytes). *)
Definition ascii_8bit : codec := fun bit_string =>
  ascii_result <-
    for_each (range_step (len_minus bit_string 7) 8)
      (fun i ascii_result =>
         let byte := substring i 8 bit_string in
         if (String.length byte =? 8)%nat then
           decimal_value <- int_base2 byte ;;
           if ((32 <=? decimal_value) && (decimal_value <=? 126))%Z%bool
           then Ok (ascii_result ++ chr decimal_value)
           else Ok (ascii_result ++ "[" ++ str decimal_value ++ "]")
         else Ok ascii_result)
      "" ;;
  Ok (stored ascii_result (prefix 50 ascii_result)).

(** Method 2: numbers as 4-bit nibbles. *)
Definition nibbles_4bit : codec := fun bit_string =>
  nibbles <-
    for_each (range_step (len_minus bit_string 3) 4)
      (fun i nibbles =>
         let nibble := substring i 4 bit_string in
         if (String.length nibble =? 4)%nat then
           v <- int_base2 nibble ;;
           Ok (nibbles ++ [str v])%list
         else Ok nibbles)
      [] ;;
  Ok (match nibbles with
      | [] => None
      | _ => Some (VStr (join " " (firstn 20 nibbles)))
      end).

(** Method 3: numbers as 8-bit bytes. *)
Definition bytes_decimal : codec := fun bit_string =>
  bytes_decimal <-
    for_each (range_step (len_minus bit_string 7) 8)
      (fun i bytes_decimal =>
         let byte := substring i 8 bit_string in
         if (String.length byte =? 8)%nat then
           v <- int_base2 byte ;;
           Ok (bytes_decimal ++ [str v])%list
         else Ok bytes_decimal)
      [] ;;
  Ok (match bytes_decimal with
      | [] => None
      | _ => Some (VStr (join " " (firstn 15 bytes_decimal)))
      end).

(** Method 4: hexadecimal representation. *)
Definition hex_bytes : codec := fun bit_string =>
  hex_result <-
    for_each (range_step (len_minus bit_string 7) 8)
      (fun i hex_result =>
         let byte := substring i 8 bit_string in
         if (String.length byte =? 8)%nat then
           v <- int_base2 byte ;;
           Ok (hex_result ++ format_02X v ++ " ")
         else Ok hex_result)
      "" ;;
  Ok (stored hex_result (prefix 60 hex_result)).

(** Method 5: Baudot code (5-bit). *)
Definition baudot_5bit : codec := fun bit_string =>
  baudot_result <-
    for_each (range_step (len_minus bit_string 4) 5)
      (fun i baudot_result =>
         let code := substring i 5 bit_string in
         if (String.length code =? 5)%nat then
           match assoc code baudot_letters with
           | Some letter => Ok (baudot_result ++ letter)
           | None => Ok (baudot_result ++ "?")
           end
         else Ok baudot_result)
      "" ;;
  Ok (stored baudot_result (prefix 30 baudot_result)).

(** Method 6: BCD. *)
Definition bcd_decimal : codec := fun bit_string =>
  bcd_result <-
    for_each (range_step (len_minus bit_string 3) 4)
      (fun i bcd_result =>
         let nibble := substring i 4 bit_string in
         if (String.length nibble =? 4)%nat then
           value <- int_base2 nibble ;;
           if ((0 <=? value) && (value <=? 9))%Z%bool
           then Ok (bcd_result ++ str value)
           else Ok (bcd_result ++ "X")
         else Ok bcd_result)
      "" ;;
  Ok (stored bcd_result (prefix 40 bcd_result)).

(** Method 7: sync patterns. *)
Definition sync_patterns_codec : codec := fun bit_string =>
  let found_syncs :=
    flat_map (fun entry =>
                let count := count bit_string (fst entry) in
                if (0 <? count)%nat
                then [snd entry ++ "(" ++ str (Z.of_nat count) ++ ")"]
                else [])
             sync_patterns in
  Ok (Some (VStr (match found_syncs with
                  | [] => "None detected"
                  | _ => join ", " found_syncs
                  end))).

Section Statistics.

(** [f"{entropy:.2f}"] as a function of [ones_count], [zeros_count] and
    [total_bits]: the entropy is computed with [np.log2], which has no
    rational model, so its rendering is a parameter of the report. *)
Variable entropy_text : nat -> nat -> nat -> string.

(** Method 8: statistical analysis. *)
Definition statistics : codec := fun bit_string =>
  let ones_count := count bit_string "1" in
  let zeros_count := count bit_string "0" in
  let total_bits := String.length bit_string in
  if (0 <? total_bits)%nat then
    let p1 := (inject_Z (Z.of_nat ones_count)
               / inject_Z (Z.of_nat total_bits))%Q in
    let p0 := (inject_Z (Z.of_nat zeros_count)
               / inject_Z (Z.of_nat total_bits))%Q in
    Ok (Some (VStr ("1s:" ++ str (Z.of_nat ones_count)
                    ++ "(" ++ format_pct1 p1 ++ ") 0s:"
                    ++ str (Z.of_nat zeros_count)
                    ++ "(" ++ format_pct1 p0 ++ ") Entropy:"
                    ++ entropy_text ones_count zeros_count total_bits)))
  else Ok None.

(** One [try]/[except] block: the slot [key] receives what the body stores,
    or [marker] when the body raises; the rest of [results] is untouched. *)
Definition run_codec (key marker : string) (body : codec)
    (bit_string : string) (results : dict) : dict :=
  match body bit_string with
  | Ok (Some v) => dict_set key v results
  | Ok None => results
  | Raise _ => dict_set key (VStr marker) results
  end.

(** What the slot of a block holds once the block has run on a report
    that had no entry for it. *)
Definition slot (marker : string) (body : codec) (bit_string : string)
  : option value :=
  match body bit_string with
  | Ok v => v
  | Raise _ => Some (VStr marker)
  end.

(** [decode_binary_sequence]. *)
Definition decode_binary_sequence (bits : list Z) : dict :=
  if (List.length bits <? 8)%nat then
    [("error", VStr "Need at least 8 bits for decoding")]
  else
    let bit_string := bit_string_of bits in
    let results := [] in
    let results :=
      run_codec "ascii_8bit" "Decode failed" ascii_8bit bit_string results in
    let results :=
      run_codec "nibbles_4bit" "Decode failed" nibbles_4bit
        bit_string results in
    let results :=
      run_codec "bytes_decimal" "Decode failed" bytes_decimal
        bit_string results in
    let results :=
      run_codec "hex_bytes" "Decode failed" hex_bytes bit_string results in
    let results :=
      run_codec "baudot_5bit" "Decode failed" baudot_5bit
        bit_string results in
    let results :=
      run_codec "bcd_decimal" "Decode failed" bcd_decimal
        bit_string results in
    let results :=
      run_codec "sync_patterns" "Analysis failed" sync_patterns_codec
        bit_string results in
    let results :=
      run_codec "statistics" "Calc failed" statistics bit_string results in
    results.

(** What [analyze_patterns] returns: the string ["Insufficient data"], or a
    dictionary with the keys ['patterns'] and ['decoded']. *)
Inductive analysis : Type :=
| Insufficient (message : string)
| Report (patterns : list string) (decoded : dict).

(** The scan for repeating sequences of [analyze_patterns]. *)
Definition repeating_patterns (bit_string : string) : list string :=
  flat_map
    (fun length =>
       flat_map
         (fun i =>
            let pattern := substring i length bit_string in
            let count := count bit_string pattern in
            if ((2 <? count) && (4 <=? String.length pattern))%nat%bool
            then [pattern ++ "(" ++ str (Z.of_nat count) ++ "x)"]
            else [])
         (range (len_minus bit_string (Z.of_nat length))))
    [4; 8; 16]%nat.

(** [analyze_patterns]. *)
Definition analyze_patterns (bits : list Z) : analysis :=
  if (List.length bits <? 8)%nat then Insufficient "Insufficient data"
  else
    let bit_string := bit_string_of bits in
    let patterns := repeating_patterns bit_string in
    let decoded_results := decode_binary_sequence bits in
    Report (match patterns with
            | [] => ["No clear patterns"]
            | _ => firstn 5 patterns
            end)
           decoded_results.

End Statistics.

(** [f"{entropy:.2f}"] for the bit strings of the examples: 8 ones and 4
    zeros among 13 characters, 2 ones and 6 zeros among 8; 0 for a string
    that has only zeros or only ones. *)
Definition entropy_text_examples (ones zeros total : nat) : string :=
  match ones, zeros, total with
  | 8, 4, 13 => "0.95"
  | 2, 6, 8 => "0.81"
  | _, _, _ => "0.00"
  end%nat.

(** The elements of a bit list are 0 or 1. *)
Definition is_bit (b : Z) : bool := ((b =? 0) || (b =? 1))%Z%bool.

(** The bits of a text, 8 for a character, most significant first. *)
Fixpoint bits_of_text (s : string) : list Z :=
  match s with
  | EmptyString => []
  | String c s' =>
      (map (fun k => if N.testbit (N_of_ascii c) (N.of_nat (7 - k))
                     then 1%Z else 0%Z)
           (seq 0 8)
       ++ bits_of_text s')%list
  end.

End Pattern.

(** ** The Monolit heuristic *)

Module Monolit.

Import Pattern.

Definition is_digit (c : ascii) : bool :=
  let n := nat_of_ascii c in ((48 <=? n) && (n <=? 57))%nat%bool.

Definition is_upper (c : ascii) : bool :=
  let n := nat_of_ascii c in ((65 <=? n) && (n <=? 90))%nat%bool.

Definition is_lower (c : ascii) : bool :=
  let n := nat_of_ascii c in ((97 <=? n) && (n <=? 122))%nat%bool.

Definition is_alnum (c : ascii) : bool :=
  (is_digit c || is_upper c || is_lower c)%bool.

(** A word character of [re]: a letter, a digit or the underscore. *)
Definition is_word (c : ascii) : bool := (is_alnum c || Ascii.eqb c "_")%bool.

(** [s.isalnum()]: at least one character, all of them alphanumeric. *)
Definition isalnum (s : string) : bool :=
  (nonempty s && all_chars is_alnum s)%bool.

(** [s.upper()]. *)
Fixpoint upper (s : string) : string :=
  match s with
  | EmptyString => EmptyString
  | String c s' =>
      String (if is_lower c then ascii_of_nat (nat_of_ascii c - 32) else c)
             (upper s')
  end.

(** The regular expressions of the heuristic all have the shape
    [\b C{lo,hi} \b] for a class [C] of word characters.  [\b] holds between
    two positions when exactly one of the neighbouring characters is a word
    character; the ends of the string count as non-word. *)
Definition word_at (c : option ascii) : bool :=
  match c with
  | Some a => is_word a
  | None => false
  end.

Definition boundary (before after : option ascii) : bool :=
  xorb (word_at before) (word_at after).

Definition last_char (s : string) : option ascii :=
  String.get (String.length s - 1) s.

(** Does [C{k}\b] match at the head of [s]? *)
Definition matches_len (cls : ascii -> bool) (k : nat) (s : string) : bool :=
  let m := substring 0 k s in
  ((String.length m =? k)%nat && all_chars cls m
   && boundary (last_char m) (String.get k s))%bool.

(** The greedy quantifier: the lengths [lo + n - 1] down to [lo] are tried
    in turn. *)
Fixpoint longest_match (cls : ascii -> bool) (lo n : nat) (s : string)
  : option string :=
  match n with
  | O => None
  | S n' =>
      if matches_len cls (lo + n') s then Some (substring 0 (lo + n') s)
      else longest_match cls lo n' s
  end.

(** [re.findall(r'\bC{lo,hi}\b', s)]: the string is scanned from the left,
    and the scan resumes after each match.  [prev] is the character before
    the position, [skip] the number of characters still covered by the last
    match. *)
Fixpoint findall_from (cls : ascii -> bool) (lo hi : nat)
    (prev : option ascii) (skip : nat) (s : string) : list string :=
  match s with
  | EmptyString => []
  | String c s' =>
      match skip with
      | S k => findall_from cls lo hi (Some c) k s'
      | O =>
          if boundary prev (Some c) then
            match longest_match cls lo (hi + 1 - lo) s with
            | Some m =>
                m :: findall_from cls lo hi (Some c) (String.length m - 1) s'
            | None => findall_from cls lo hi (Some c) 0 s'
            end
          else findall_from cls lo hi (Some c) 0 s'
      end
  end.

Definition findall (cls : ascii -> bool) (lo hi : nat) (s : string)
  : list string :=
  findall_from cls lo hi None 0 s.

(** The rendering of the bit string as ASCII, one character for 8 bits. *)
Definition ascii_chars_of (bit_string : string) : exc string :=
  for_each (range_step (len_minus bit_string 7) 8)
    (fun i ascii_chars =>
       let byte := substring i 8 bit_string in
       if (String.length byte =? 8)%nat then
         val <- int_base2 byte ;;
         if ((32 <=? val) && (val <=? 126))%Z%bool
         then Ok (ascii_chars ++ chr val)
         else Ok (ascii_chars ++ ".")
       else Ok ascii_chars)
    "".

(** The rendering that keeps the ASCII digits only. *)
Definition decimal_sequence_of (bit_string : string) : exc string :=
  for_each (range_step (len_minus bit_string 7) 8)
    (fun i decimal_sequence =>
       let byte := substring i 8 bit_string in
       if (String.length byte =? 8)%nat then
         val <- int_base2 byte ;;
         if ((48 <=? val) && (val <=? 57))%Z%bool
         then Ok (decimal_sequence ++ chr val)
         else Ok (decimal_sequence ++ " ")
       else Ok decimal_sequence)
    "".

(** Method 1: sequences of 3, 4 or 5 characters that are read twice. *)
Definition callsign_patterns_of (ascii_chars : string) : list string :=
  flat_map
    (fun length =>
       flat_map
         (fun i =>
            let pattern := substring i length ascii_chars in
            let next_pattern := substring (i + length) length ascii_chars in
            if (String.eqb pattern next_pattern && isalnum pattern)%bool
            then ["'" ++ pattern ++ "' (repeated)"]
            else [])
         (range (len_minus ascii_chars (Z.of_nat (length * 2)))))
    [3; 4; 5]%nat.

(** Methods 2 to 4. *)
Definition five_digit_groups_of (decimal_sequence : string) : list string :=
  findall is_digit 5 5 decimal_sequence.

Definition eight_digit_groups_of (decimal_sequence : string) : list string :=
  findall is_digit 8 8 decimal_sequence.

Definition code_word_candidates_of (ascii_chars : string) : list string :=
  findall is_upper 4 6 (upper ascii_chars).

(** A list is true when it is not empty. *)
Definition some {A : Type} (l : list A) : bool :=
  match l with
  | [] => false
  | _ => true
  end.

(** The likelihood score. *)
Definition monolit_score (callsign_patterns five_digit_groups
    eight_digit_groups code_word_candidates : list string) : Z :=
  let score := 0%Z in
  let score := if some callsign_patterns then (score + 30)%Z else score in
  let score := if some five_digit_groups then (score + 25)%Z else score in
  let score := if some eight_digit_groups then (score + 25)%Z else score in
  let score := if some code_word_candidates then (score + 20)%Z else score in
  score.

Definition likelihood_of (score : Z) : string :=
  if (70 <=? score)%Z then "HIGH - Strong Monolit characteristics"
  else if (40 <=? score)%Z then "MEDIUM - Some Monolit patterns"
  else if (20 <=? score)%Z then "LOW - Few Monolit indicators"
  else "NONE - No clear Monolit patterns".

Definition count_text {A : Type} (l : list A) : string :=
  str (Z.of_nat (List.length l)).

(** [l[:n] if l else "None detected"]. *)
Definition listed (n : nat) (l : list string) : value :=
  if some l then VList (firstn n l) else VStr "None detected".

(** Method 6: the gaps between consecutive entries of the binary log. *)
Definition timing_intervals (binary_log : list bit_record) : list Q :=
  flat_map
    (fun i =>
       match nth_error binary_log i, nth_error binary_log (i - 1) with
       | Some cur, Some prev =>
           let interval := (br_session_time cur - br_session_time prev)%Q in
           if (negb (Qle_bool interval 0.1)
               && negb (Qle_bool 10 interval))%bool
           then [interval] else []
       | _, _ => []
       end)
    (seq 1 (Nat.min (List.length binary_log) 50 - 1)).

(** [l.append(x)]. *)
Definition snoc {A : Type} (l : list A) (x : A) : list A := (l ++ [x])%list.

Definition sum_Q (l : list Q) : Q := fold_left Qplus l 0%Q.

(** The body of the [try] block of [detect_monolit_coding]: the dictionary
    as the block leaves it, and the text of the exception if the block was
    left by one. *)
Definition monolit_analysis (bit_string : string)
    (binary_log : list bit_record) (results : dict) : dict * option string :=
  match ascii_chars_of bit_string with
  | Raise e => (results, Some e)
  | Ok ascii_chars =>
    let callsign_patterns := callsign_patterns_of ascii_chars in
    let results :=
      dict_set "callsign_candidates" (listed 5 callsign_patterns) results in
    match decimal_sequence_of bit_string with
    | Raise e => (results, Some e)
    | Ok decimal_sequence =>
      let five_digit_groups := five_digit_groups_of decimal_sequence in
      let results :=
        dict_set "five_digit_groups" (listed 10 five_digit_groups) results in
      let eight_digit_groups := eight_digit_groups_of decimal_sequence in
      let results :=
        dict_set "eight_digit_blocks" (listed 5 eight_digit_groups) results in
      let code_word_candidates := code_word_candidates_of ascii_chars in
      let results :=
        dict_set "code_word_candidates" (listed 5 code_word_candidates)
          results in
      let structure_analysis := [] in
      let structure_analysis :=
        if some callsign_patterns
        then snoc structure_analysis "✓ Repeated callsign pattern detected"
        else structure_analysis in
      let structure_analysis :=
        if some five_digit_groups
        then snoc structure_analysis
               ("✓ " ++ count_text five_digit_groups
                ++ " five-digit ID groups found")
        else structure_analysis in
      let structure_analysis :=
        if some eight_digit_groups
        then snoc structure_analysis
               ("✓ " ++ count_text eight_digit_groups
                ++ " eight-digit message blocks found")
        else structure_analysis in
      let structure_analysis :=
        if some code_word_candidates
        then snoc structure_analysis
               ("✓ " ++ count_text code_word_candidates
                ++ " code word candidates found")
        else structure_analysis in
      let score :=
        monolit_score callsign_patterns five_digit_groups
          eight_digit_groups code_word_candidates in
      let likelihood := likelihood_of score in
      let results := dict_set "monolit_likelihood" (VStr likelihood) results in
      let results :=
        dict_set "structure_analysis"
          (if some structure_analysis then VList structure_analysis
           else VList ["No clear Monolit structure detected"]) results in
      let results :=
        if (10 <? List.length binary_log)%nat then
          let timing_intervals := timing_intervals binary_log in
          if some timing_intervals then
            let avg_interval :=
              (sum_Q timing_intervals
               / inject_Z (Z.of_nat (List.length timing_intervals)))%Q in
            dict_set "timing_analysis"
              (VStr ("Avg bit interval: " ++ format_2f avg_interval
                     ++ "s (typical Monolit: 0.5-2.0s)")) results
          else
            dict_set "timing_analysis" (VStr "Insufficient timing data")
              results
        else results in
      (results, None)
    end
  end.

(** [detect_monolit_coding]; [binary_log] is [self.binary_log]. *)
Definition detect_monolit_coding (bits : list Z)
    (binary_log : list bit_record) : dict :=
  if (List.length bits <? 64)%nat then
    [("error", VStr "Insufficient data for Monolit analysis")]
  else
    let bit_string := bit_string_of bits in
    let results := [] in
    match monolit_analysis bit_string binary_log results with
    | (results, None) => results
    | (results, Some e) =>
        dict_set "error" (VStr ("Monolit analysis failed: " ++ e)) results
    end.

End Monolit.

(** ** The byte source and the analysis loop *)

Module Pipeline.

Import Audio Spectral Session.

(** The byte whose value is [x], for [0 <= x < 256]. *)
Definition byte_of (x : Z) : Byte.byte :=
  match Strings.Byte.of_N (Z.to_N x) with
  | Some b => b
  | None => Byte.x00
  end.

(** [.tobytes()] of one [np.int16] item: two bytes, least significant
    first. *)
Definition int16_tobytes (v : Z) : list Byte.byte :=
  let u := (v mod 65536)%Z in
  [byte_of (u mod 256); byte_of (u / 256)].

(** [.tobytes()] of an [np.int16] array. *)
Definition tobytes (samples : list Z) : list Byte.byte :=
  flat_map int16_tobytes samples.

(** [audio_data[i:i + chunk_samples] for i in range(0, len(audio_data),
    chunk_samples)]. *)
Definition sample_chunks (chunk_samples : nat) (audio_data : list Z)
  : list (list Z) :=
  map (fun i => firstn chunk_samples (skipn i audio_data))
      (range_step (Z.of_nat (List.length audio_data)) chunk_samples).

(** The chunks that [stream_local_file] puts into the queue;
    [audio_data] holds the samples as [(chunk * 32767).astype(np.int16)]
    leaves them. *)
Definition stream_local_file (cfg : config) (audio_data : list Z)
  : list (list Byte.byte) :=
  map tobytes (sample_chunks (Z.to_nat (chunk_size cfg)) audio_data).


Section Analysis.

Variable cfg : config.

(** [np.mean(np.abs(audio_data))] and [np.abs(fft(audio_segment *
    hann(window_size)))]: the floating-point reductions of numpy and scipy
    are parameters of the pass. *)
Variable audio_level_of : list float32 -> Q.
Variable magnitude_of : list float32 -> list Q.

(** [process_audio_chunk]; [current_time] is the clock value read in the
    function, [fsk_time] the one read in [update_fsk_state]. *)
Definition process_audio_chunk (current_time fsk_time : Q)
    (audio_bytes : list Byte.byte) (st : state) : state :=
  let st := count_chunk st in
  match decode_audio audio_bytes with
  | None => st
  | Some audio_data =>
      let audio_level := audio_level_of audio_data in
      let st := set_audio_level_buffer
                  (Deque.append 1000 audio_level (audio_level_buffer st))
                  st in
      let st := set_last_audio_time current_time st in
      if negb (Qle_bool 0.001 audio_level) then st
      else
        let window_size := Nat.min (List.length audio_data) 8192 in
        if (window_size <? 2048)%nat then st
        else
          let audio_segment := firstn window_size audio_data in
          let magnitude := magnitude_of audio_segment in
          process_spectrum cfg current_time fsk_time audio_level
            window_size magnitude st
  end.

(** One turn of the loop of [analyze_audio] for a chunk taken from the
    queue: the chunk is added to the buffer; a buffer of four nominal
    chunks or more is processed and loses its first two nominal chunks.
    The result is the buffer that was processed, if one was, and the
    buffer kept. *)
Definition analyze_step (chunk audio_buffer : list Byte.byte)
  : option (list Byte.byte) * list Byte.byte :=
  let audio_buffer := (audio_buffer ++ chunk)%list in
  if (Z.of_nat (List.length audio_buffer) >=? chunk_size cfg * 4)%Z
  then (Some audio_buffer,
        skipn (Z.to_nat (chunk_size cfg * 2)) audio_buffer)
  else (None, audio_buffer).

(** The loop of [analyze_audio] over the chunks it takes from the queue,
    each with the two clock values of its pass; the loop starts with an
    empty buffer. *)
Definition analyze_audio_from (arrivals : list (Q * Q * list Byte.byte))
    (audio_buffer : list Byte.byte) (st : state)
  : list Byte.byte * state :=
  fold_left
    (fun acc arrival =>
       match analyze_step (snd arrival) (fst acc) with
       | (Some processed, kept) =>
           (kept,
            process_audio_chunk (fst (fst arrival)) (snd (fst arrival))
              processed (snd acc))
       | (None, kept) => (kept, snd acc)
       end)
    arrivals (audio_buffer, st).

Definition analyze_audio (arrivals : list (Q * Q * list Byte.byte))
    (st : state) : list Byte.byte * state :=
  analyze_audio_from arrivals [] st.

(** The buffers handed to [process_audio_chunk] in the course of the
    loop. *)
Fixpoint processed_buffers (chunks : list (list Byte.byte))
    (audio_buffer : list Byte.byte) : list (list Byte.byte) :=
  match chunks with
  | [] => []
  | chunk :: rest =>
      match analyze_step chunk audio_buffer with
      | (Some processed, kept) => processed :: processed_buffers rest kept
      | (None, kept) => processed_buffers rest kept
      end
  end.

End Analysis.

(** The bounded buffers are within their capacity. *)
Definition within_capacity (cfg : config) (st : state) : Prop :=
  (List.length (frequency_buffer st) <= 1000)%nat
  /\ (List.length (binary_buffer st) <= 500)%nat
  /\ (List.length (time_buffer st) <= 1000)%nat
  /\ (List.length (audio_level_buffer st) <= 1000)%nat
  /\ (List.length (fsk_state_history st) <= 50)%nat
  /\ (List.length (waterfall_data st) <= max_waterfall_lines cfg)%nat.

(** The paired buffers have the same length. *)
Definition paired (st : state) : Prop :=
  List.length (frequency_buffer st) = List.length (time_buffer st)
  /\ List.length (waterfall_data st) = List.length (waterfall_times st).

End Pipeline.

(** ** The steps of a pass, by name *)

Module Steps.

Import Audio Spectral Session Pipeline.

Section Steps.

Variable cfg : config.

(** Lines 818-824: the magnitudes of the pass are stored for the waterfall
    display, and the oldest line is dropped when there are more than
    [max_waterfall_lines]. *)
Definition store_waterfall (current_time : Q)
    (waterfall_magnitude : list Q) (st : state) : state :=
  let st := set_waterfall_data
              (waterfall_data st ++ [waterfall_magnitude])%list st in
  let st := set_waterfall_times
              (waterfall_times st ++ [current_time])%list st in
  if (max_waterfall_lines cfg <? List.length (waterfall_data st))%nat then
    set_waterfall_times (tl (waterfall_times st))
      (set_waterfall_data (tl (waterfall_data st)) st)
  else st.

(** Lines 898-905: the waterfall frame goes to the log when waterfall
    logging is on. *)
Definition log_waterfall (current_time : Q)
    (waterfall_freqs waterfall_magnitude : list Q) (st : state) : state :=
  if (log_waterfall_var cfg
      && (0 <? List.length (waterfall_data st))%nat)%bool then
    set_waterfall_log
      (waterfall_log st ++
       [{| wr_timestamp := current_time;
           wr_session_time := session_time_of st current_time;
           wr_frequencies := waterfall_freqs;
           wr_magnitudes := waterfall_magnitude |}])%list st
  else st.

(** Lines 864-879: the measurement of a pass goes to the frequency and
    time buffers and, when frequency logging is on, to the log. *)
Definition record_measurement (current_time audio_level peak_freq
    peak_mag : Q) (st : state) : state :=
  let st := set_frequency_buffer
              (Deque.append 1000 peak_freq (frequency_buffer st)) st in
  let st := set_time_buffer
              (Deque.append 1000 current_time (time_buffer st)) st in
  if log_frequency_var cfg then
    set_frequency_log
      (frequency_log st ++
       [{| fr_timestamp := current_time;
           fr_session_time := session_time_of st current_time;
           fr_frequency := peak_freq;
           fr_magnitude := peak_mag;
           fr_audio_level := audio_level |}])%list st
  else st.

(** The frequencies kept in the frequency buffer are those of a known
    tone, up to twice the tolerance. *)
Definition known_tones (st : state) : Prop :=
  Forall (fun f => is_uvb_frequency cfg f = true) (frequency_buffer st).

End Steps.

(** The entries of the bit buffer are bits. *)
Definition bits_only (st : state) : Prop :=
  Forall (fun b => Pattern.is_bit b = true) (binary_buffer st).

(** The state of the tone tracker is that of the last event recorded. *)
Definition tracker_consistent (st : state) : Prop :=
  match last (map Some (fsk_state_history st)) None with
  | Some e => current_fsk_state st = Some (ev_state e)
              /\ last_fsk_change st = Some (ev_timestamp e)
  | None => True
  end.

End Steps.

(** ** Example inputs of a pass *)

Module Examples.

(** A stand-in for [np.mean(np.abs(audio_data))]: the level 1/2 whatever
    the samples. *)
Definition level_half (audio_data : list Audio.float32) : Q := 1 # 2.

(** A stand-in for the magnitude spectrum: the spectrum
    [Spectral.example_magnitude] whatever the segment. *)
Definition spectrum_example (audio_segment : list Audio.float32) : list Q :=
  Spectral.example_magnitude.

(** A chunk of 16384 bytes, 8192 samples of 16 bits. *)
Definition chunk_16384 : list Byte.byte := Audio.ones_chunk 4096.

End Examples.

(** ** Shapes of the histories *)

Module Shapes.

(** No two neighbours of the list are equal. *)
Fixpoint no_repeat (l : list string) : Prop :=
  match l with
  | [] => True
  | x :: l' =>
      match l' with
      | [] => True
      | y :: _ => x <> y /\ no_repeat l'
      end
  end.

(** The state of the tone tracker agrees with its history: the current
    state and the time of the last change are those of the last event, and
    no two consecutive events carry the same state. *)
Definition tracker_ok (st : state) : Prop :=
  Steps.tracker_consistent st
  /\ no_repeat (map ev_state (fsk_state_history st)).


(** At the default settings the frequency [f] passes the known-tone test of
    a pass, and its bit and its label are those of one of the three
    tones. *)
Definition default_tone (f : Q) : Prop :=
  Spectral.is_uvb_frequency default_config f = true
  /\ ((frequency_to_binary_debug default_config f = Some 0%Z
       /\ fsk_label default_config f = "FSK-1 (21.53Hz)")
      \/ (frequency_to_binary_debug default_config f = Some 1%Z
          /\ fsk_label default_config f = "FSK-2 (26.92Hz)")
      \/ (frequency_to_binary_debug default_config f = None
          /\ fsk_label default_config f = "FSK-3 (32.30Hz)")).

End Shapes.

(** ** Status display *)

Module Display.

Section Display.

Variable cfg : config.

(** The text that [update_plots] puts into the frequency state indicator
    for the last entry of the frequency buffer; the tolerance is twice the
    one of the bit decision. *)
Definition freq_state (current_freq : Q) : string :=
  let freq_1 := freq_1 (uvb76_frequencies cfg) in
  let freq_2 := freq_2 (uvb76_frequencies cfg) in
  let freq_3 := freq_3 (uvb76_frequencies cfg) in
  let tol := (freq_tolerance cfg * 2)%Q in
  if Qle_bool (Qabs (current_freq - freq_1)) tol
  then format_fixed 1 current_freq ++ " Hz (FSK-1: Binary 0)"
  else if Qle_bool (Qabs (current_freq - freq_2)) tol
  then format_fixed 1 current_freq ++ " Hz (FSK-2: Binary 1)"
  else if Qle_bool (Qabs (current_freq - freq_3)) tol
  then format_fixed 1 current_freq ++ " Hz (FSK-3: Carrier/Buzzer)"
  else if (Qle_bool 20.0 current_freq && Qle_bool current_freq 35.0)%bool
  then format_fixed 1 current_freq ++ " Hz (Unknown UVB tone)"
  else format_fixed 1 current_freq ++ " Hz (Non-UVB)".

End Display.

(** [int(x)]: the integer part, towards zero. *)
Definition int_of (x : Q) : Z :=
  if Qle_bool 0 x then Qfloor x else Qceiling x.

(** [a // b] and [a % b] on floats, for a positive [b]. *)
Definition floordiv (a b : Q) : Q := inject_Z (Qfloor (a / b)).
Definition modulo (a b : Q) : Q := (a - b * inject_Z (Qfloor (a / b)))%Q.

(** The hours, minutes and seconds that [update_status_indicators] shows
    for an elapsed time. *)
Definition hours (elapsed : Q) : Z := int_of (floordiv elapsed 3600).
Definition minutes (elapsed : Q) : Z :=
  int_of (floordiv (modulo elapsed 3600) 60).
Definition seconds (elapsed : Q) : Z := int_of (modulo elapsed 60).

(** [f"{hours:02d}:{minutes:02d}:{seconds:02d}"]. *)
Definition session_time_text (elapsed : Q) : string :=
  zero_padded 2 (hours elapsed) ++ ":" ++ zero_padded 2 (minutes elapsed)
  ++ ":" ++ zero_padded 2 (seconds elapsed).

End Display.

(** ** The text of the pattern analysis *)

Module Analysis.

Import Pattern.

(** The loop of [update_pattern_analysis] that collects the runs of equal
    entries. *)
Fixpoint runs_loop (rest : list Z) (current_bit : Z) (current_run : nat)
    (runs : list (Z * nat)) : list (Z * nat) :=
  match rest with
  | [] => (runs ++ [(current_bit, current_run)])%list
  | bit :: rest' =>
      if (bit =? current_bit)%Z
      then runs_loop rest' current_bit (S current_run) runs
      else runs_loop rest' bit 1
             (runs ++ [(current_bit, current_run)])%list
  end.

(** The run lengths of a bit list; [bits[0]] raises on the empty list. *)
Definition run_lengths (bits : list Z) : exc (list (Z * nat)) :=
  match bits with
  | [] => Raise "list index out of range"
  | current_bit :: rest => Ok (runs_loop rest current_bit 1 [])
  end.

(** The list that a list of runs stands for. *)
Definition expand (runs : list (Z * nat)) : list Z :=
  flat_map (fun r => repeat (fst r) (snd r)) runs.

(** No two neighbouring runs are runs of the same value. *)
Fixpoint alternate (runs : list (Z * nat)) : Prop :=
  match runs with
  | [] => True
  | r :: runs' =>
      match runs' with
      | [] => True
      | r' :: _ => fst r <> fst r' /\ alternate runs'
      end
  end.

(** The number of non-empty lists among four. *)
Definition features (a b c d : list string) : nat :=
  ((if Monolit.some a then 1 else 0) + (if Monolit.some b then 1 else 0)
   + (if Monolit.some c then 1 else 0) + (if Monolit.some d then 1 else 0))%nat.

(** The bit numbers of the binary log count from 1. *)
Definition numbered (st : state) : Prop :=
  map br_bit_number (binary_log st)
  = seq 1 (List.length (binary_log st)).

End Analysis.

(** ** Printable text *)

Module Text.

(** The characters that [ascii_8bit] shows as they are: the codes from 32
    to 126. *)
Definition printable (c : ascii) : bool :=
  let v := Z.of_N (N_of_ascii c) in ((32 <=? v) && (v <=? 126))%Z%bool.

End Text.

(** ** Session statistics *)

Module Stats.

(** [sum(l)] over integers. *)
Definition sum (l : list Z) : Z := fold_left Z.add l 0%Z.

(** The binary statistics of [update_session_stats]: the number of
    entries, of ones and of zeros, and the share of the ones. *)
Definition binary_count (st : state) : Z :=
  Z.of_nat (List.length (binary_buffer st)).

Definition ones_count (st : state) : Z :=
  if (0 <? binary_count st)%Z then sum (binary_buffer st) else 0%Z.

Definition zeros_count (st : state) : Z :=
  (binary_count st - ones_count st)%Z.

Definition ones_ratio (st : state) : Q :=
  if (0 <? binary_count st)%Z
  then (inject_Z (ones_count st) / inject_Z (binary_count st))%Q
  else 0%Q.

End Stats.

(** ** The text file of the binary export *)

Module BinaryExport.

(** [[s[j:j+w] for j in range(0, len(s), w)]]. *)
Definition slices (w : nat) (s : string) : list string :=
  map (fun j => substring j w s)
      (range_step (Z.of_nat (String.length s)) w).

(** [' '.join([line[j:j+8] for j in range(0, len(line), 8)])]. *)
Definition formatted_line (line : string) : string :=
  join " " (slices 8 line).

(** The lines that [export_binary_log] writes after the header, for the
    sequence [binary_sequence]: 64 digits a line, in groups of 8, behind
    the label [i // 8] of four digits. *)
Definition binary_lines (binary_sequence : string) : list string :=
  map (fun i =>
         let line := substring i 64 binary_sequence in
         zero_padded 4 (Z.of_nat i / 8) ++ ": " ++ formatted_line line
         ++ String "010" "")
      (range_step (Z.of_nat (String.length binary_sequence)) 64).

(** A string without its blanks. *)
Fixpoint without_spaces (s : string) : string :=
  match s with
  | EmptyString => EmptyString
  | String c s' =>
      if Ascii.eqb c " " then without_spaces s'
      else String c (without_spaces s')
  end.

End BinaryExport.

(** ** The features of the Monolit heuristic, on the rendering

    The definitions of this module follow the words of the specification,
    not the code: the ASCII rendering of a bit stream and what it means
    for a rendering to hold a repeated call sign, a digit group or a
    word.  They are compared with the lists that the code collects. *)

Module MonolitSpec.

Import Pattern Monolit.

(** The number that a group of bits stands for, most significant bit
    first. *)
Definition byte_value (byte : list Z) : Z :=
  fold_left (fun v b => (2 * v + b)%Z) byte 0%Z.

(** One text per full group of 8 bits; the bits that are left over at the
    end are not rendered. *)
Fixpoint render (shown : Z -> string) (bits : list Z) : string :=
  match bits with
  | b7 :: b6 :: b5 :: b4 :: b3 :: b2 :: b1 :: b0 :: rest =>
      shown (byte_value [b7; b6; b5; b4; b3; b2; b1; b0])
      ++ render shown rest
  | _ => ""
  end.

(** The ASCII rendering: the printable characters as they are, a dot for
    every other byte. *)
Definition ascii_rendering (bits : list Z) : string :=
  render (fun v => if ((32 <=? v) && (v <=? 126))%Z%bool then chr v else ".")
         bits.

(** A string, character by character. *)
Fixpoint smap (g : ascii -> ascii) (s : string) : string :=
  match s with
  | EmptyString => EmptyString
  | String c s' => String (g c) (smap g s')
  end.

(** The digit-only rendering: a blank for every character that is not a
    digit. *)
Definition digits_only (rendering : string) : string :=
  smap (fun c => if is_digit c then c else " "%char) rendering.

Definition is_letter (c : ascii) : bool := (is_upper c || is_lower c)%bool.

(** The character before position [i], if there is one. *)
Definition before (i : nat) (s : string) : option ascii :=
  match i with
  | O => None
  | S j => String.get j s
  end.

(** A neighbour is outside the class [out]: it is a character that is not
    in [out], or an end of the string. *)
Definition outside (out : ascii -> bool) (c : option ascii) : bool :=
  match c with
  | Some a => negb (out a)
  | None => true
  end.

(** At position [i] stands a group of exactly [n] characters of the class
    [cls], with neighbours outside the class [out]. *)
Definition group_at (cls out : ascii -> bool) (n i : nat) (s : string)
  : bool :=
  let g := substring i n s in
  ((String.length g =? n)%nat && all_chars cls g
   && outside out (before i s) && outside out (String.get (i + n) s))%bool.

(** The string holds such a group of [lo] to [hi] characters. *)
Definition has_group (cls out : ascii -> bool) (lo hi : nat) (s : string)
  : bool :=
  existsb
    (fun n =>
       existsb (fun i => group_at cls out n i s)
               (seq 0 (S (String.length s))))
    (seq lo (hi + 1 - lo)).

(** At position [i] stands an alphanumeric substring of [n] characters
    that is immediately repeated. *)
Definition repeated_at (n i : nat) (s : string) : bool :=
  let pattern := substring i n s in
  ((String.length (substring i (2 * n) s) =? 2 * n)%nat
   && String.eqb pattern (substring (i + n) n s)
   && all_chars is_alnum pattern)%bool.

(** The string holds an immediately repeated alphanumeric substring of 3,
    4 or 5 characters. *)
Definition has_repetition (s : string) : bool :=
  existsb
    (fun n =>
       existsb (fun i => repeated_at n i s) (seq 0 (S (String.length s))))
    [3; 4; 5]%nat.

(** The same, with at least one more character behind the repetition. *)
Definition has_repetition_inside (s : string) : bool :=
  existsb
    (fun n =>
       existsb
         (fun i =>
            (repeated_at n i s && (i + 2 * n <? String.length s)%nat)%bool)
         (seq 0 (S (String.length s))))
    [3; 4; 5]%nat.

(** The features of the specification on a rendering: a group of exactly
    five or exactly eight digits between non-digits, a word of four to six
    upper-case letters between non-word characters; and the word feature
    when the case is ignored. *)
Definition has_five_digits (rendering : string) : bool :=
  has_group is_digit is_digit 5 5 rendering.

Definition has_eight_digits (rendering : string) : bool :=
  has_group is_digit is_digit 8 8 rendering.

Definition has_upper_word (rendering : string) : bool :=
  has_group is_upper is_word 4 6 rendering.

Definition has_word (rendering : string) : bool :=
  has_group is_letter is_word 4 6 rendering.

(** The score that the specification gives a rendering with these
    features. *)
Definition score_of (callsign five eight word : bool) : Z :=
  ((if callsign then 30 else 0) + (if five then 25 else 0)
   + (if eight then 25 else 0) + (if word then 20 else 0))%Z.

End MonolitSpec.

(** * Properties *)


(** ** ToneClassifier *)

Section ClassifierFacts.

Local Open Scope Q_scope.

Lemma Qle_bool_false (x y : Q) : Qle_bool x y = false <-> ~ x <= y.
Proof.
  rewrite <- Qle_bool_iff.
  destruct (Qle_bool x y); split; intros H; try discriminate; try reflexivity.
  exfalso; apply H; reflexivity.
Qed.

(** The bit decision with the default tones, read off the tolerance
    bands. *)
Lemma classify_default (lb lf lw : bool) (f : Q) :
  (Qabs (f - 21.53) <= 0.5 ->
     frequency_to_binary_debug (logging_config lb lf lw) f = Some 0%Z)
  /\ (Qabs (f - 26.92) <= 0.5 ->
     frequency_to_binary_debug (logging_config lb lf lw) f = Some 1%Z)
  /\ (~ Qabs (f - 21.53) <= 0.5 -> ~ Qabs (f - 26.92) <= 0.5 ->
     frequency_to_binary_debug (logging_config lb lf lw) f = None).
Proof.
  unfold frequency_to_binary_debug; cbn -[Qabs Qle_bool Qminus].
  repeat split.
  - intros H. apply Qle_bool_iff in H. now rewrite H.
  - intros H.
    assert (N : Qle_bool (Qabs (f - 21.53)) 0.5 = false).
    { apply Qle_bool_false. intros K.
      apply Qabs_diff_Qle_condition in H.
      apply Qabs_diff_Qle_condition in K. lra. }
    rewrite N. apply Qle_bool_iff in H. now rewrite H.
  - intros H0 H1.
    apply Qle_bool_false in H0. apply Qle_bool_false in H1.
    rewrite H0, H1.
    destruct (Qle_bool (Qabs (f - 32.30)) 0.5); [reflexivity|].
    destruct (Qle_bool 20.0 f && Qle_bool f 35.0)%bool; reflexivity.
Qed.

(** C10: [frequency_to_binary] and [frequency_to_binary_debug] return the
    same value for every frequency, and that value is 0, 1 or [None]. *)
Theorem frequency_to_binary_debug_agrees (cfg : config) (f : Q) :
  frequency_to_binary cfg f = frequency_to_binary_debug cfg f
  /\ (frequency_to_binary_debug cfg f = Some 0%Z
      \/ frequency_to_binary_debug cfg f = Some 1%Z
      \/ frequency_to_binary_debug cfg f = None).
Proof.
  unfold frequency_to_binary, frequency_to_binary_debug.
  destruct (Qle_bool _ _); [now auto|].
  destruct (Qle_bool _ _); [now auto|].
  destruct (Qle_bool _ _); [now auto|].
  destruct (_ && _)%bool; now auto.
Qed.

(** The record that [append_bit] adds to the binary log. *)
Lemma append_bit_log (cfg : config) (t f : Q) (b : Z) (st : state) :
  binary_log (Spectral.append_bit cfg t f b st) =
  if log_binary_var cfg then
    (binary_log st ++
     [{| br_timestamp := t;
         br_session_time := session_time_of st t;
         br_binary_state := b;
         br_frequency := f;
         br_bit_number := List.length (binary_log st) + 1 |}])%list
  else binary_log st.
Proof.
  unfold Spectral.append_bit. destruct (log_binary_var cfg); reflexivity.
Qed.

Lemma append_bit_buffer (cfg : config) (t f : Q) (b : Z) (st : state) :
  binary_buffer (Spectral.append_bit cfg t f b st) =
  Deque.append 500 b (binary_buffer st).
Proof.
  unfold Spectral.append_bit. destruct (log_binary_var cfg); reflexivity.
Qed.

(** C2: with the default tones a peak frequency [f] puts a bit into the bit
    buffer (and into the bit log when binary logging is on) exactly when
    [|f - 21.53| <= 0.5] (bit 0) or [|f - 26.92| <= 0.5] (bit 1); a carrier
    match and every other frequency, 21.0 Hz among them, leave buffer and
    log as they are. *)
Theorem bit_appended_iff_data_tone (lb lf lw : bool) (current_time f : Q)
    (st : state) :
  let cfg := logging_config lb lf lw in
  let st' := Spectral.decode_peak cfg current_time f st in
  let logged b :=
    if lb then
      (binary_log st ++
       [{| br_timestamp := current_time;
           br_session_time := session_time_of st current_time;
           br_binary_state := b;
           br_frequency := f;
           br_bit_number := List.length (binary_log st) + 1 |}])%list
    else binary_log st in
  (Qabs (f - 21.53) <= 0.5 ->
     binary_buffer st' = Deque.append 500 0%Z (binary_buffer st)
     /\ binary_log st' = logged 0%Z)
  /\ (Qabs (f - 26.92) <= 0.5 ->
     binary_buffer st' = Deque.append 500 1%Z (binary_buffer st)
     /\ binary_log st' = logged 1%Z)
  /\ (~ Qabs (f - 21.53) <= 0.5 -> ~ Qabs (f - 26.92) <= 0.5 -> st' = st)
  /\ (Qabs (f - 32.30) <= 0.5 -> st' = st)
  /\ (lb = true ->
      (List.length (binary_log st') = S (List.length (binary_log st))
       <-> Qabs (f - 21.53) <= 0.5 \/ Qabs (f - 26.92) <= 0.5))
  /\ Spectral.decode_peak cfg current_time 21.0 st = st.
Proof.
  intros cfg st' logged.
  destruct (classify_default lb lf lw f) as (C0 & C1 & CN).
  assert (A0 : Qabs (f - 21.53) <= 0.5 ->
               binary_buffer st' = Deque.append 500 0%Z (binary_buffer st)
               /\ binary_log st' = logged 0%Z).
  { intros H. unfold st', Spectral.decode_peak, cfg. rewrite (C0 H).
    rewrite append_bit_buffer, append_bit_log. now split. }
  assert (A1 : Qabs (f - 26.92) <= 0.5 ->
               binary_buffer st' = Deque.append 500 1%Z (binary_buffer st)
               /\ binary_log st' = logged 1%Z).
  { intros H. unfold st', Spectral.decode_peak, cfg. rewrite (C1 H).
    rewrite append_bit_buffer, append_bit_log. now split. }
  assert (AN : ~ Qabs (f - 21.53) <= 0.5 -> ~ Qabs (f - 26.92) <= 0.5 ->
               st' = st).
  { intros H0 H1. unfold st', Spectral.decode_peak, cfg.
    now rewrite (CN H0 H1). }
  assert (AC : Qabs (f - 32.30) <= 0.5 -> st' = st).
  { intros H. apply AN; intros K;
      apply Qabs_diff_Qle_condition in H;
      apply Qabs_diff_Qle_condition in K; lra. }
  split; [exact A0|]. split; [exact A1|]. split; [exact AN|].
  split; [exact AC|]. split.
  - intros Hlb. split.
    + intros E.
      destruct (Qlt_le_dec 0.5 (Qabs (f - 21.53))) as [L0|L0]; [|now left].
      destruct (Qlt_le_dec 0.5 (Qabs (f - 26.92))) as [L1|L1]; [|now right].
      exfalso. rewrite AN in E by (apply Qlt_not_le; assumption). lia.
    + intros [H|H].
      * destruct (A0 H) as [_ ->]. unfold logged. subst lb.
        rewrite length_app. cbn. lia.
      * destruct (A1 H) as [_ ->]. unfold logged. subst lb.
        rewrite length_app. cbn. lia.
  - unfold Spectral.decode_peak, cfg.
    destruct (classify_default lb lf lw 21.0) as (_ & _ & N).
    rewrite N; [reflexivity| |]; intros K;
      apply Qle_bool_iff in K; discriminate K.
Qed.

(** Instances of C2 at the two data tones, the carrier and 21.0 Hz. *)
Lemma bit_appended_iff_data_tone_witness :
  binary_buffer
    (Spectral.decode_peak default_config 7 21.53 initial_state) = [0%Z]
  /\ binary_buffer
       (Spectral.decode_peak default_config 7 26.92 initial_state) = [1%Z]
  /\ Spectral.decode_peak default_config 7 32.30 initial_state
     = initial_state
  /\ Spectral.decode_peak default_config 7 21.0 initial_state
     = initial_state.
Proof.
  split; [|split; [|split]].
  - destruct (bit_appended_iff_data_tone true true true 7 21.53
                initial_state) as (H & _).
    destruct H as [K _]; [apply Qle_bool_iff; reflexivity|exact K].
  - destruct (bit_appended_iff_data_tone true true true 7 26.92
                initial_state) as (_ & H & _).
    destruct H as [K _]; [apply Qle_bool_iff; reflexivity|exact K].
  - destruct (bit_appended_iff_data_tone true true true 7 32.30
                initial_state) as (_ & _ & _ & H & _).
    apply H. apply Qle_bool_iff; reflexivity.
  - destruct (bit_appended_iff_data_tone true true true 7 21.0
                initial_state) as (_ & _ & _ & _ & _ & H).
    exact H.
Defined.

(** Every event that [update_fsk_state] appends carries the duration 0:
    [last_fsk_change] already holds the current time when the duration is
    computed. *)
Lemma update_fsk_state_duration (cfg : config) (t f m : Q) (st : state) :
  label_changed (fsk_label cfg f) (current_fsk_state st) = true ->
  exists e,
    fsk_state_history (fst (update_fsk_state cfg t f m st)) =
      Deque.append 50 e (fsk_state_history st)
    /\ ev_timestamp e = t
    /\ ev_duration e == 0.
Proof.
  intros H. unfold update_fsk_state. rewrite H. cbn -[Deque.append].
  eexists; split; [reflexivity|]. cbn. split; [reflexivity|].
  destruct (Qeq_bool t 0); ring.
Qed.

(** C1, at two label changes five seconds apart: the event of the second
    change records the duration 0, not the 5 seconds the first state
    lasted. *)
Theorem fsk_event_duration_after_five_seconds :
  let st1 :=
    fst (update_fsk_state default_config 100 21.53 20 initial_state) in
  let st2 := fst (update_fsk_state default_config 105 26.92 20 st1) in
  exists e1 e2,
    fsk_state_history st2 = [e1; e2]
    /\ ev_state e1 = "FSK-1 (21.53Hz)" /\ ev_timestamp e1 == 100
    /\ ev_state e2 = "FSK-2 (26.92Hz)" /\ ev_timestamp e2 == 105
    /\ ev_duration e2 == 0
    /\ ~ ev_duration e2 == 105 - 100.
Proof.
  cbv zeta. eexists; eexists. split; [vm_compute; reflexivity|].
  cbn. repeat split; try reflexivity.
  intros H; discriminate H.
Qed.

End ClassifierFacts.

(** ** Bounded buffers *)

Section DequeFacts.

Context {A : Type}.

Lemma lastn_all (n : nat) (l : list A) :
  (List.length l <= n)%nat -> lastn n l = l.
Proof.
  intros H. unfold lastn.
  replace (List.length l - n)%nat with 0%nat by lia. reflexivity.
Qed.

Lemma lastn_length (n : nat) (l : list A) :
  List.length (lastn n l) = Nat.min n (List.length l).
Proof. unfold lastn. rewrite length_skipn. lia. Qed.

Lemma lastn_app_lastn (n : nat) (l xs : list A) :
  lastn n (lastn n l ++ xs) = lastn n (l ++ xs).
Proof.
  unfold lastn. rewrite !length_app, length_skipn.
  set (k := (List.length l - n)%nat).
  replace (List.length l + List.length xs - n)%nat
    with ((List.length l - k + List.length xs - n) + k)%nat by lia.
  rewrite <- skipn_skipn. f_equal.
  rewrite skipn_app.
  replace (k - List.length l)%nat with 0%nat by lia. reflexivity.
Qed.

(** One [append] keeps the last [maxlen] elements. *)
Lemma append_lastn (maxlen : nat) (x : A) (d : list A) :
  (0 < maxlen)%nat -> (List.length d <= maxlen)%nat ->
  Deque.append maxlen x d = lastn maxlen (d ++ [x]).
Proof.
  intros Hpos Hlen. unfold Deque.append.
  destruct (Nat.eqb_spec maxlen 0) as [E|_]; [lia|].
  destruct (Nat.leb_spec maxlen (List.length d)) as [F|F].
  - unfold lastn. rewrite length_app. cbn [List.length].
    replace (List.length d + 1 - maxlen)%nat with 1%nat by lia.
    destruct d as [|a d']; [cbn in F; lia|reflexivity].
  - symmetry. apply lastn_all. rewrite length_app. cbn. lia.
Qed.

(** A run of [append]s keeps the last [maxlen] elements of all that was
    put in, in the order of arrival. *)
Lemma append_all_lastn (maxlen : nat) (xs d : list A) :
  (0 < maxlen)%nat -> (List.length d <= maxlen)%nat ->
  fold_left (fun d x => Deque.append maxlen x d) xs d
  = lastn maxlen (d ++ xs).
Proof.
  intros Hpos. revert d.
  induction xs as [|x xs IH]; intros d Hlen; cbn [fold_left].
  - rewrite app_nil_r. symmetry. now apply lastn_all.
  - rewrite IH.
    + rewrite append_lastn by assumption.
      rewrite lastn_app_lastn, <- app_assoc. reflexivity.
    + rewrite append_lastn by assumption. rewrite lastn_length. lia.
Qed.

End DequeFacts.

Section AccumulatorFacts.

Variable cfg : config.

Lemma append_bits_buffer (passes : list (Q * Q * Z)) (st : state) :
  binary_buffer (Spectral.append_bits cfg passes st)
  = fold_left (fun d x => Deque.append 500 x d) (map snd passes)
      (binary_buffer st).
Proof.
  revert st. induction passes as [|p passes IH]; intros st.
  - reflexivity.
  - unfold Spectral.append_bits in *. cbn [fold_left map].
    now rewrite IH, append_bit_buffer.
Qed.

Lemma append_bits_log (passes : list (Q * Q * Z)) (st : state) :
  log_binary_var cfg = true ->
  map br_binary_state (binary_log (Spectral.append_bits cfg passes st))
  = (map br_binary_state (binary_log st) ++ map snd passes)%list
  /\ map br_bit_number (binary_log (Spectral.append_bits cfg passes st))
    = (map br_bit_number (binary_log st)
       ++ seq (S (List.length (binary_log st))) (List.length passes))%list.
Proof.
  intros Hlog. revert st.
  induction passes as [|p passes IH]; intros st.
  - cbn. now rewrite !app_nil_r.
  - unfold Spectral.append_bits in *.
    cbn [fold_left map List.length seq].
    destruct (IH (Spectral.append_bit cfg (fst (fst p)) (snd (fst p))
                    (snd p) st)) as [IHs IHn].
    rewrite IHs, IHn, append_bit_log, Hlog.
    rewrite !map_app, length_app, <- !app_assoc. cbn.
    replace (List.length (binary_log st) + 1)%nat
      with (S (List.length (binary_log st))) by lia.
    now split.
Qed.

(** C6: [n] data bits accumulated in order from an empty buffer and an
    empty log leave the last [min n 500] of them in the display buffer, in
    their order, and, when binary logging is on, all [n] of them in the log,
    numbered from 1. *)
Theorem bit_buffer_keeps_last_500 (passes : list (Q * Q * Z)) (st : state) :
  binary_buffer st = [] -> binary_log st = [] ->
  let bits := map snd passes in
  let st' := Spectral.append_bits cfg passes st in
  binary_buffer st' = lastn 500 bits
  /\ List.length (binary_buffer st') = Nat.min (List.length bits) 500
  /\ (log_binary_var cfg = true ->
      map br_binary_state (binary_log st') = bits
      /\ map br_bit_number (binary_log st') = seq 1 (List.length bits)).
Proof.
  intros Hbuf Hlog bits st'.
  assert (B : binary_buffer st' = lastn 500 bits).
  { unfold st'. rewrite append_bits_buffer, Hbuf.
    rewrite append_all_lastn by (cbn; lia). reflexivity. }
  split; [exact B|]. split.
  - rewrite B, lastn_length. lia.
  - intros L. destruct (append_bits_log passes st L) as [Hs Hn].
    fold st' in Hs, Hn. rewrite Hlog in Hs, Hn. cbn in Hs, Hn.
    unfold bits. rewrite length_map. now split.
Qed.

End AccumulatorFacts.

(** C6 at 600 sequential synthetic bits: the display buffer holds the last
    500 of them and the log all 600. *)
Lemma bit_buffer_keeps_last_500_witness :
  let passes := Spectral.synthetic_passes default_config 600 in
  let st' := Spectral.append_bits default_config passes initial_state in
  binary_buffer st' = skipn 100 (map snd passes)
  /\ List.length (binary_buffer st') = 500%nat
  /\ map br_binary_state (binary_log st') = map snd passes
  /\ List.length (binary_log st') = 600%nat.
Proof.
  intros passes st'.
  destruct (bit_buffer_keeps_last_500 default_config passes initial_state
              eq_refl eq_refl) as (B & L & G).
  destruct (G eq_refl) as [Gs Gn].
  split; [exact B|]. split; [exact L|]. split; [exact Gs|].
  unfold st'. rewrite <- (length_map br_bit_number), Gn, length_seq.
  reflexivity.
Defined.

(** ** Session start *)

Section SessionFacts.

Import Session.

(** C5: a session start on a decoder that has been used leaves the FSK
    state history and the two session counters as they were: the history
    still holds the event of the session before, the decoder still counts
    4096 bytes received and one chunk processed, and the reset that the
    claim describes has not taken place. *)
Theorem start_stream_not_fully_reset :
  let st := fst (start_stream "http://localhost:8000/stream" 200 used_state) in
  List.length (fsk_state_history st) = 1%nat
  /\ bytes_received st = 4096%Z
  /\ chunks_processed st = 1%Z
  /\ ~ fully_reset st.
Proof.
  cbv zeta. split; [reflexivity|]. split; [reflexivity|].
  split; [reflexivity|].
  intros (_ & _ & _ & _ & _ & _ & _ & _ & _ & _ & _ & H).
  discriminate H.
Qed.

(** What a session start with a URL does reset: the frequency, binary,
    time, audio-level and waterfall buffers and the three logs are emptied
    before the two threads are started; the byte and chunk counters are
    not assigned. *)
Lemma start_stream_clears_buffers_and_logs (url : string) (now : Q)
    (st : state) :
  nonempty url = true ->
  let st' := fst (start_stream url now st) in
  frequency_buffer st' = [] /\ binary_buffer st' = []
  /\ time_buffer st' = [] /\ audio_level_buffer st' = []
  /\ waterfall_data st' = [] /\ waterfall_times st' = []
  /\ binary_log st' = [] /\ frequency_log st' = []
  /\ waterfall_log st' = []
  /\ snd (start_stream url now st) = [StreamAudio url; AnalyzeAudio]
  /\ bytes_received st' = bytes_received st
  /\ chunks_processed st' = chunks_processed st.
Proof.
  intros Hurl. unfold start_stream. rewrite Hurl. cbn.
  repeat split; reflexivity.
Qed.

End SessionFacts.

(** ** AudioDecoder *)

Section AudioFacts.

Import Audio.

Lemma exact_from_spec (lo : Z) (count : positive) :
  fst (exact_from lo count) = (lo + Zpos count)%Z
  /\ (snd (exact_from lo count) = true ->
      forall v, (lo <= v < lo + Zpos count)%Z -> exact_at v = true).
Proof.
  unfold exact_from. induction count as [|count IH] using Pos.peano_ind.
  - cbn. split; [reflexivity|]. intros H v Hv.
    replace v with lo by lia. exact H.
  - rewrite Pos.iter_succ. destruct IH as [F S].
    set (r := Pos.iter _ _ count) in *. cbn [fst snd].
    split; [rewrite F; lia|]. intros H v Hv.
    apply andb_true_iff in H as [Hs He].
    destruct (Z.eq_dec v (lo + Zpos count)) as [->|N].
    + now rewrite <- F.
    + apply (S Hs). lia.
Qed.

(** The samples of the 16-bit readings are exact: binary32 holds
    [v / 32768] for every 16-bit integer [v]. *)
Lemma pcm_normalisation_exact (v : Z) :
  (-32768 <= v <= 32767)%Z ->
  exists q, float32_value (div_32768 (astype_float32 v)) = Some q
            /\ (q == v # 32768)%Q.
Proof.
  intros H.
  assert (E : exact_at v = true).
  { apply (proj2 (exact_from_spec (-32768) 65536)); [|lia].
    vm_compute. reflexivity. }
  unfold exact_at in E.
  destruct (float32_value (div_32768 (astype_float32 v))) as [q|];
    [|discriminate E].
  exists q. split; [reflexivity|]. now apply Qeq_bool_iff.
Qed.

(** C3: the decoder returns the first of the readings int16 little-endian
    over 32768, float32 as is, int16 big-endian over 32768 that parses and
    has at least 100 samples; so a buffer for which both the int16
    little-endian and the float32 reading have at least 100 samples is
    decoded as int16 little-endian over 32768. *)
Theorem decode_audio_priority (audio_bytes : list Byte.byte) :
  decode_audio audio_bytes
  = first_usable [as_int16_le audio_bytes; as_float32 audio_bytes;
                  as_int16_be audio_bytes]
  /\ (forall d1 d2 : list float32,
        as_int16_le audio_bytes = Ok d1 -> (100 <= List.length d1)%nat ->
        as_float32 audio_bytes = Ok d2 -> (100 <= List.length d2)%nat ->
        exists a,
          frombuffer 2 audio_bytes = Ok a
          /\ decode_audio audio_bytes
             = Some (map (fun it => div_32768 (astype_float32 (int16_le it)))
                         a)).
Proof.
  split.
  - unfold decode_audio, attempt, first_usable.
    destruct (as_int16_le audio_bytes) as [d1|e1];
      destruct (as_float32 audio_bytes) as [d2|e2];
      destruct (as_int16_be audio_bytes) as [d3|e3];
      repeat match goal with
        | |- context [(List.length ?d <? 100)%nat] =>
            destruct (Nat.ltb_spec (List.length d) 100)
        | |- context [(100 <=? List.length ?d)%nat] =>
            destruct (Nat.leb_spec 100 (List.length d))
        end; try reflexivity; lia.
  - intros d1 d2 H1 L1 _ _. unfold decode_audio, attempt. rewrite H1.
    destruct (Nat.ltb_spec (List.length d1) 100) as [K|_]; [lia|].
    unfold as_int16_le in H1.
    destruct (frombuffer 2 audio_bytes) as [a|e]; [|discriminate H1].
    exists a. split; [reflexivity|]. now inversion H1.
Qed.

(** C3 on 100 items that read as the float 1.0: 200 PCM samples are
    returned, not 100 floats. *)
Lemma decode_audio_priority_witness :
  exists d,
    decode_audio (ones_chunk 100) = Some d
    /\ List.length d = 200%nat
    /\ firstn 2 d = [S754_zero false; S754_finite false 16646144 (-25)].
Proof.
  destruct (decode_audio_priority (ones_chunk 100)) as [_ H].
  destruct (H (map (fun it => div_32768 (astype_float32 (int16_le it)))
                   (items 400 2 (ones_chunk 100)))
              (map float32_le (items 400 4 (ones_chunk 100))))
    as (a & Ha & Hd).
  - vm_compute. reflexivity.
  - apply Nat.leb_le. vm_compute. reflexivity.
  - vm_compute. reflexivity.
  - apply Nat.leb_le. vm_compute. reflexivity.
  - eexists. split; [exact Hd|].
    assert (E : a = items 400 2 (ones_chunk 100)).
    { vm_compute in Ha. injection Ha as <-. vm_compute. reflexivity. }
    subst a. split; vm_compute; reflexivity.
Defined.

End AudioFacts.

(** ** PatternDecoder *)

Section PatternFacts.

Import Pattern.

Variable entropy_text : nat -> nat -> nat -> string.

(** C8: on the bits 01000001 the ASCII codec gives "A", the hexadecimal
    codec "41 ", the byte-decimal codec "65" and the nibble codec "4 1". *)
Theorem decode_01000001 :
  exists patterns decoded,
    analyze_patterns entropy_text [0; 1; 0; 0; 0; 0; 0; 1]%Z
    = Report patterns decoded
    /\ decoded = decode_binary_sequence entropy_text [0; 1; 0; 0; 0; 0; 0; 1]%Z
    /\ dict_get "ascii_8bit" decoded = Some (VStr "A")
    /\ dict_get "hex_bytes" decoded = Some (VStr "41 ")
    /\ dict_get "bytes_decimal" decoded = Some (VStr "65")
    /\ dict_get "nibbles_4bit" decoded = Some (VStr "4 1").
Proof.
  eexists; eexists. split; [reflexivity|].
  split; [reflexivity|].
  repeat split; vm_compute; reflexivity.
Qed.

End PatternFacts.

Section CodecIsolation.

Import Pattern.

Variable entropy_text : nat -> nat -> nat -> string.

Lemma dict_get_set (k k' : string) (v : value) (d : dict) :
  dict_get k (dict_set k' v d)
  = if String.eqb k k' then Some v else dict_get k d.
Proof.
  induction d as [|[k0 v0] d IH]; cbn.
  - reflexivity.
  - destruct (String.eqb_spec k' k0) as [E|N].
    + subst k0. cbn. now destruct (String.eqb k k').
    + cbn. rewrite IH.
      destruct (String.eqb_spec k k0) as [E0|N0];
        destruct (String.eqb_spec k k') as [E1|N1]; congruence.
Qed.

(** A block writes its own slot and no other. *)
Lemma run_codec_get (k key marker : string) (body : codec) (s : string)
    (d : dict) :
  dict_get k (run_codec key marker body s d)
  = if String.eqb k key then
      match slot marker body s with
      | Some v => Some v
      | None => dict_get k d
      end
    else dict_get k d.
Proof.
  unfold run_codec, slot.
  destruct (body s) as [[v|]|e]; rewrite ?dict_get_set;
    destruct (String.eqb k key); reflexivity.
Qed.

(** C7: with fewer than 8 bits the decoder answers that the data is
    insufficient and no codec slot exists; with at least 8 bits the report
    is returned, and the slot of each codec holds the failure marker when
    that codec raises and what that codec stores otherwise, whatever the
    other codecs do. *)
Theorem codec_failures_are_isolated (bits : list Z) :
  ((List.length bits < 8)%nat ->
     analyze_patterns entropy_text bits = Insufficient "Insufficient data"
     /\ decode_binary_sequence entropy_text bits
        = [("error", VStr "Need at least 8 bits for decoding")])
  /\ ((8 <= List.length bits)%nat ->
      let s := bit_string_of bits in
      let r := decode_binary_sequence entropy_text bits in
      (exists patterns, analyze_patterns entropy_text bits = Report patterns r)
      /\ dict_get "ascii_8bit" r = slot "Decode failed" ascii_8bit s
      /\ dict_get "nibbles_4bit" r = slot "Decode failed" nibbles_4bit s
      /\ dict_get "bytes_decimal" r = slot "Decode failed" bytes_decimal s
      /\ dict_get "hex_bytes" r = slot "Decode failed" hex_bytes s
      /\ dict_get "baudot_5bit" r = slot "Decode failed" baudot_5bit s
      /\ dict_get "bcd_decimal" r = slot "Decode failed" bcd_decimal s
      /\ dict_get "sync_patterns" r
         = slot "Analysis failed" sync_patterns_codec s
      /\ dict_get "statistics" r
         = slot "Calc failed" (statistics entropy_text) s
      /\ dict_get "error" r = None).
Proof.
  split.
  - intros H. unfold analyze_patterns, decode_binary_sequence.
    destruct (Nat.ltb_spec (List.length bits) 8) as [_|K]; [now split|lia].
  - intros H s r. split.
    + unfold analyze_patterns.
      destruct (Nat.ltb_spec (List.length bits) 8) as [K|_]; [lia|].
      eexists. reflexivity.
    + unfold r, decode_binary_sequence.
      destruct (Nat.ltb_spec (List.length bits) 8) as [K|_]; [lia|].
      fold s. cbv zeta.
      repeat split; rewrite !run_codec_get; cbn [String.eqb Ascii.eqb
        Bool.eqb dict_get];
        repeat match goal with
          | |- context [slot ?m ?b ?x] => destruct (slot m b x)
          end; reflexivity.
Qed.

End CodecIsolation.

(** C7 on three bits, and on twelve entries whose fifth is -1: the byte
    codecs fail on the slice 0000-111 while the nibble codec reads the
    slices 0000, -111 and 1111. *)
Lemma codec_failures_are_isolated_witness :
  let r :=
    Pattern.decode_binary_sequence Pattern.entropy_text_examples
      [0; 0; 0; 0; -1; 1; 1; 1; 1; 1; 1; 1]%Z in
  Pattern.analyze_patterns Pattern.entropy_text_examples [0; 1; 0]%Z
  = Pattern.Insufficient "Insufficient data"
  /\ Pattern.dict_get "ascii_8bit" r = Some (Pattern.VStr "Decode failed")
  /\ Pattern.dict_get "nibbles_4bit" r = Some (Pattern.VStr "0 -7 15")
  /\ Pattern.dict_get "bcd_decimal" r = Some (Pattern.VStr "0XX").
Proof.
  intros r. split.
  - destruct (codec_failures_are_isolated Pattern.entropy_text_examples
                [0; 1; 0]%Z) as [H _].
    apply H. cbn. lia.
  - destruct (codec_failures_are_isolated Pattern.entropy_text_examples
                [0; 0; 0; 0; -1; 1; 1; 1; 1; 1; 1; 1]%Z) as [_ H].
    destruct H as (_ & A & N & _ & _ & _ & B & _); [cbn; lia|].
    fold r in A, N, B.
    rewrite A, N, B. repeat split; vm_compute; reflexivity.
Defined.

(** ** The Monolit heuristic *)

Section MonolitFacts.

Import Pattern Monolit.

Lemma all_chars_app (p : ascii -> bool) (s t : string) :
  all_chars p (s ++ t) = (all_chars p s && all_chars p t)%bool.
Proof.
  induction s as [|c s IH]; cbn; [reflexivity|].
  now rewrite IH, andb_assoc.
Qed.

Lemma all_chars_substring (p : ascii -> bool) (s : string) (i k : nat) :
  all_chars p s = true -> all_chars p (substring i k s) = true.
Proof.
  revert i k. induction s as [|c s IH]; intros i k H.
  - destruct i, k; reflexivity.
  - cbn in H. apply andb_true_iff in H as [Hc Hs].
    destruct i as [|i].
    + destruct k as [|k]; cbn; [reflexivity|].
      now rewrite Hc, IH.
    + cbn. now apply IH.
Qed.

(** The string of a list of bits is made of binary digits. *)
Lemma bit_string_binary (bits : list Z) :
  forallb is_bit bits = true ->
  all_chars is_bin_digit (bit_string_of bits) = true.
Proof.
  unfold bit_string_of.
  induction bits as [|b bits IH]; intros H; [reflexivity|].
  cbn [forallb] in H. apply andb_true_iff in H as [Hb Hs].
  assert (D : all_chars is_bin_digit (str b) = true).
  { unfold is_bit in Hb. apply orb_true_iff in Hb as [E|E];
      apply Z.eqb_eq in E; subst b; reflexivity. }
  cbn [map String.concat].
  destruct (map str bits) as [|x xs] eqn:M; [exact D|].
  rewrite !all_chars_app, D. cbn. now apply IH.
Qed.

(** [int(s, 2)] does not raise on a non-empty string of binary digits. *)
Lemma int_base2_binary (s : string) :
  all_chars is_bin_digit s = true -> nonempty s = true ->
  int_base2 s = Ok (bin_value 0 s).
Proof.
  destruct s as [|c s]; intros H N; [discriminate N|].
  unfold int_base2. rewrite H.
  cbn in H. apply andb_true_iff in H as [Hc _].
  unfold is_bin_digit in Hc.
  apply orb_true_iff in Hc as [E|E]; apply Ascii.eqb_eq in E; subst c;
    reflexivity.
Qed.

Lemma nonempty_of_length (s : string) (n : nat) :
  (String.length s =? S n)%nat = true -> nonempty s = true.
Proof. destruct s; [discriminate|reflexivity]. Qed.

Lemma for_each_total {A : Type} (body : nat -> A -> exc A) (idxs : list nat)
    (acc : A) :
  (forall i a, exists a', body i a = Ok a') ->
  exists r, for_each idxs body acc = Ok r.
Proof.
  intros H. revert acc. induction idxs as [|i idxs IH]; intros acc; cbn.
  - now exists acc.
  - destruct (H i acc) as [a' ->]. apply IH.
Qed.

(** On a list of bits the two renderings are defined. *)
Lemma renderings_defined (bits : list Z) :
  forallb is_bit bits = true ->
  (exists a, ascii_chars_of (bit_string_of bits) = Ok a)
  /\ (exists d, decimal_sequence_of (bit_string_of bits) = Ok d).
Proof.
  intros H. apply bit_string_binary in H.
  split; apply for_each_total; intros i a; cbv beta zeta;
    destruct (String.length (substring i 8 (bit_string_of bits)) =? 8)%nat
      eqn:L; try (eexists; reflexivity);
    rewrite (int_base2_binary _ (all_chars_substring _ _ i 8 H)
               (nonempty_of_length _ _ L));
    cbn [bind];
    match goal with |- context [if ?c then _ else _] => destruct c end;
    eexists; reflexivity.
Qed.

Lemma likelihood_bands (score : Z) :
  (likelihood_of score = "HIGH - Strong Monolit characteristics"
     <-> (70 <= score)%Z)
  /\ (likelihood_of score = "MEDIUM - Some Monolit patterns"
     <-> (40 <= score < 70)%Z)
  /\ (likelihood_of score = "LOW - Few Monolit indicators"
     <-> (20 <= score < 40)%Z)
  /\ (likelihood_of score = "NONE - No clear Monolit patterns"
     <-> (score < 20)%Z).
Proof.
  unfold likelihood_of.
  destruct (Z.leb_spec 70 score); [|destruct (Z.leb_spec 40 score);
    [|destruct (Z.leb_spec 20 score)]];
    (split; [|split; [|split]]); split; intros K;
    try reflexivity; try discriminate K; try lia; exfalso; lia.
Qed.

(** The report of the heuristic in terms of the lists that the code
    collects: under 64 bits the answer is that the data is insufficient;
    on 64 bits or more the score is 30, 25, 25 and 20 for the lists that
    are not empty, and the likelihood is the band of the score. *)
Lemma monolit_report (bits : list Z)
    (binary_log : list bit_record) :
  ((List.length bits < 64)%nat ->
     detect_monolit_coding bits binary_log
     = [("error", VStr "Insufficient data for Monolit analysis")])
  /\ ((64 <= List.length bits)%nat -> forallb is_bit bits = true ->
      exists ascii_chars decimal_sequence,
        ascii_chars_of (bit_string_of bits) = Ok ascii_chars
        /\ decimal_sequence_of (bit_string_of bits) = Ok decimal_sequence
        /\ let callsigns := callsign_patterns_of ascii_chars in
           let fives := five_digit_groups_of decimal_sequence in
           let eights := eight_digit_groups_of decimal_sequence in
           let words := code_word_candidates_of ascii_chars in
           let score :=
             ((if some callsigns then 30 else 0)
              + (if some fives then 25 else 0)
              + (if some eights then 25 else 0)
              + (if some words then 20 else 0))%Z in
           monolit_score callsigns fives eights words = score
           /\ dict_get "monolit_likelihood"
                (detect_monolit_coding bits binary_log)
              = Some (VStr (likelihood_of score))
           /\ dict_get "error" (detect_monolit_coding bits binary_log)
              = None
           /\ (callsigns = [] -> fives = [] -> eights = [] -> words = [] ->
               score = 0%Z
               /\ dict_get "monolit_likelihood"
                    (detect_monolit_coding bits binary_log)
                  = Some (VStr "NONE - No clear Monolit patterns")))
  /\ (forall score : Z,
        (likelihood_of score = "HIGH - Strong Monolit characteristics"
           <-> (70 <= score)%Z)
        /\ (likelihood_of score = "MEDIUM - Some Monolit patterns"
           <-> (40 <= score < 70)%Z)
        /\ (likelihood_of score = "LOW - Few Monolit indicators"
           <-> (20 <= score < 40)%Z)
        /\ (likelihood_of score = "NONE - No clear Monolit patterns"
           <-> (score < 20)%Z)).
Proof.
  split; [|split; [|exact likelihood_bands]].
  - intros H. unfold detect_monolit_coding.
    destruct (Nat.ltb_spec (List.length bits) 64) as [_|K]; [reflexivity|lia].
  - intros H B.
    destruct (renderings_defined bits B) as [[a Ha] [d Hd]].
    exists a, d. split; [exact Ha|]. split; [exact Hd|].
    intros callsigns fives eights words score.
    assert (S : monolit_score callsigns fives eights words = score).
    { unfold monolit_score, score.
      destruct (some callsigns), (some fives), (some eights), (some words);
        reflexivity. }
    assert (G : dict_get "monolit_likelihood"
                  (detect_monolit_coding bits binary_log)
                = Some (VStr (likelihood_of score))
                /\ dict_get "error" (detect_monolit_coding bits binary_log)
                   = None).
    { unfold detect_monolit_coding.
      destruct (Nat.ltb_spec (List.length bits) 64) as [K|_]; [lia|].
      unfold monolit_analysis. rewrite Ha, Hd. cbv zeta.
      fold callsigns fives eights words. rewrite S.
      destruct (10 <? List.length binary_log)%nat;
        [destruct (some (timing_intervals binary_log))|];
        rewrite !dict_get_set; cbn; split; reflexivity. }
    split; [exact S|]. split; [exact (proj1 G)|]. split; [exact (proj2 G)|].
    intros E1 E2 E3 E4.
    assert (Z0 : score = 0%Z).
    { unfold score. rewrite E1, E2, E3, E4. reflexivity. }
    split; [exact Z0|]. rewrite (proj1 G), Z0. reflexivity.
Qed.

End MonolitFacts.

(** ** SpectralFrontEnd *)

Section PeakFacts.

Import Spectral.

Local Open Scope Q_scope.

Variable threshold : Q.

Lemma mask_combine (p : Q -> bool) (freqs magnitude : list Q) :
  List.length freqs = List.length magnitude ->
  combine (mask (map p freqs) freqs) (mask (map p freqs) magnitude)
  = filter (fun b => p (fst b)) (combine freqs magnitude).
Proof.
  unfold mask. revert magnitude.
  induction freqs as [|f freqs IH]; intros [|m magnitude] H;
    try discriminate H; [reflexivity|].
  injection H as H. cbn. destruct (p f); cbn; now rewrite IH.
Qed.

Lemma filter_none_in_range (p : Q -> bool) (freqs magnitude : list Q) :
  existsb (fun b => b) (map p freqs) = false ->
  filter (fun b => p (fst b)) (combine freqs magnitude) = [].
Proof.
  revert magnitude.
  induction freqs as [|f freqs IH]; intros [|m magnitude] H;
    try reflexivity.
  cbn in H |- *. apply orb_false_iff in H as [-> H]. now apply IH.
Qed.

Lemma hd_sort (l : list peak) :
  match sort_by_magnitude_desc l with
  | [] => None
  | p :: _ => Some p
  end = hd_error (sort_by_magnitude_desc l).
Proof. now destruct (sort_by_magnitude_desc l). Qed.

(** [find_peak] read over the bins of the whole spectrum. *)
Lemma find_peak_unfold (freqs magnitude : list Q) :
  List.length freqs = List.length magnitude ->
  find_peak threshold freqs magnitude
  = hd_error (sort_by_magnitude_desc
                (peaks_of 0 threshold (combine freqs magnitude))).
Proof.
  intros H. unfold find_peak, peaks_of.
  destruct (existsb (fun b => b) (map in_target_range freqs)) eqn:E.
  - destruct (Nat.ltb_spec 0
                (List.length (mask (map in_target_range freqs) magnitude)))
      as [L|L].
    + rewrite hd_sort. unfold significant_peaks, enumerate.
      now rewrite (mask_combine in_target_range freqs magnitude H).
    + rewrite <- (mask_combine in_target_range freqs magnitude H).
      destruct (mask (map in_target_range freqs) magnitude);
        [|cbn in L; lia].
      now destruct (mask (map in_target_range freqs) freqs).
  - now rewrite (filter_none_in_range in_target_range freqs magnitude E).
Qed.

Lemma peaks_of_cons (start : nat) (b : Q * Q) (bins : list (Q * Q)) :
  peaks_of start threshold (b :: bins)
  = if in_target_range (fst b) then
      if Qle_bool threshold (snd b)
      then (fst b, snd b, start) :: peaks_of (S start) threshold bins
      else peaks_of (S start) threshold bins
    else peaks_of start threshold bins.
Proof.
  unfold peaks_of. cbn [filter].
  destruct (in_target_range (fst b)); [|reflexivity].
  cbn [List.length seq combine filter snd fst].
  destruct (Qle_bool threshold (snd b)); reflexivity.
Qed.

Lemma hd_insert_desc (x : peak) (l : list peak) :
  hd_error (insert_desc x l)
  = match hd_error l with
    | None => Some x
    | Some q => if Qle_bool (peak_mag q) (peak_mag x) then Some x else Some q
    end.
Proof.
  destruct l as [|q l]; cbn; [reflexivity|].
  now destruct (Qle_bool (peak_mag q) (peak_mag x)).
Qed.

(** The head of the sorted list is the first of the strongest eligible
    bins: the eligible bins before it are strictly weaker, those after it
    are not stronger. *)
Lemma first_strongest (bins : list (Q * Q)) (start : nat) :
  match hd_error (sort_by_magnitude_desc (peaks_of start threshold bins)) with
  | None => Forall (fun b => ~ eligible threshold b) bins
  | Some p =>
      exists pre post,
        bins = (pre ++ (peak_freq p, peak_mag p) :: post)%list
        /\ eligible threshold (peak_freq p, peak_mag p)
        /\ peak_idx p = (start + List.length (filter in_range pre))%nat
        /\ Forall (fun b => eligible threshold b -> snd b < peak_mag p) pre
        /\ Forall (fun b => eligible threshold b -> snd b <= peak_mag p) post
  end.
Proof.
  revert start. induction bins as [|[f m] bins IH]; intros start.
  - constructor.
  - rewrite peaks_of_cons. cbn [fst snd].
    destruct (in_target_range f) eqn:R.
    + destruct (Qle_bool threshold m) eqn:T.
      * cbn [sort_by_magnitude_desc fold_right].
        fold (sort_by_magnitude_desc (peaks_of (S start) threshold bins)).
        rewrite hd_insert_desc. specialize (IH (S start)).
        apply Qle_bool_iff in T.
        change (peak_mag (f, m, start)) with m.
        destruct (hd_error
                    (sort_by_magnitude_desc
                       (peaks_of (S start) threshold bins))) as [q|].
        -- destruct IH as (pre & post & E & Q & I & B & A).
           destruct (Qle_bool (peak_mag q) m) eqn:C.
           ++ apply Qle_bool_iff in C.
              exists [], bins.
              split; [reflexivity|]. split; [now split|].
              split; [cbn; lia|]. split; [constructor|].
              change (peak_mag (f, m, start)) with m.
              rewrite E. apply Forall_app. split.
              ** eapply Forall_impl; [|exact B]. intros b Hb Eb.
                 apply Qlt_le_weak. eapply Qlt_le_trans; [exact (Hb Eb)|].
                 exact C.
              ** constructor; [intros _; exact C|].
                 eapply Forall_impl; [|exact A]. intros b Hb Eb.
                 eapply Qle_trans; [exact (Hb Eb)|exact C].
           ++ apply Qle_bool_false in C. apply Qnot_le_lt in C.
              exists ((f, m) :: pre), post.
              split; [now rewrite E|]. split; [exact Q|].
              split; [cbn [filter]; unfold in_range at 1; cbn [fst];
                      rewrite R; cbn [List.length]; lia|].
              split; [|exact A].
              constructor; [intros _; exact C|exact B].
        -- exists [], bins.
           split; [reflexivity|]. split; [now split|].
           split; [cbn; lia|]. split; [constructor|].
           eapply Forall_impl; [|exact IH]. intros b Hb Eb. now elim Hb.
      * apply Qle_bool_false in T. specialize (IH (S start)).
        destruct (hd_error
                    (sort_by_magnitude_desc
                       (peaks_of (S start) threshold bins))) as [q|].
        -- destruct IH as (pre & post & E & Q & I & B & A).
           exists ((f, m) :: pre), post.
           split; [now rewrite E|]. split; [exact Q|].
           split; [cbn [filter]; unfold in_range at 1; cbn [fst];
                   rewrite R; cbn [List.length]; lia|].
           split; [|exact A].
           constructor; [|exact B]. intros [_ K]. now elim T.
        -- constructor; [|exact IH]. intros [_ K]. now elim T.
    + specialize (IH start).
      destruct (hd_error
                  (sort_by_magnitude_desc
                     (peaks_of start threshold bins))) as [q|].
      * destruct IH as (pre & post & E & Q & I & B & A).
        exists ((f, m) :: pre), post.
        split; [now rewrite E|]. split; [exact Q|].
        split; [cbn [filter]; unfold in_range at 1; cbn [fst];
                rewrite R; exact I|].
        split; [|exact A].
        constructor; [|exact B]. intros [K _]. cbn in K. congruence.
      * constructor; [|exact IH]. intros [K _]. cbn in K. congruence.
Qed.

End PeakFacts.

Section FrequencyAxis.

Import Spectral.

Local Open Scope Q_scope.

Lemma upward_bins_grow (start count : nat) :
  StronglySorted grows (map Z.of_nat (seq start count)).
Proof.
  revert start. induction count as [|count IH]; intros start; cbn.
  - constructor.
  - constructor; [apply IH|].
    apply Forall_forall. intros y Hy _.
    apply in_map_iff in Hy as (j & <- & Hj). apply in_seq in Hj. lia.
Qed.

Lemma negative_bins_grow (l : list Z) :
  Forall (fun y => y < 0)%Z l -> StronglySorted grows l.
Proof.
  induction 1 as [|y l Hy Hl IH]; constructor; [exact IH|].
  eapply Forall_impl; [|exact Hl]. intros z Hz K. cbv beta in Hz. lia.
Qed.

Lemma grows_app (l1 l2 : list Z) :
  StronglySorted grows l1 -> Forall (fun y => y < 0)%Z l2 ->
  StronglySorted grows (l1 ++ l2).
Proof.
  intros H1 H2. induction H1 as [|x l1 S1 IH F1]; cbn.
  - now apply negative_bins_grow.
  - constructor; [exact IH|]. apply Forall_app. split; [exact F1|].
    eapply Forall_impl; [|exact H2]. intros z Hz K. cbv beta in Hz. lia.
Qed.

Lemma grows_after (A B : list Z) (k : Z) :
  StronglySorted grows (A ++ k :: B) -> Forall (grows k) B.
Proof.
  induction A as [|a A IH]; cbn; intros H; inversion H; subst; auto.
Qed.

Lemma fftfreq_length (n : nat) (sr : Z) :
  (0 < n)%nat -> List.length (fftfreq n sr) = n.
Proof.
  intros H. unfold fftfreq.
  rewrite length_map, length_app, !length_map, !length_seq.
  pose proof (Nat.div_mod_eq n 2) as D.
  pose proof (Nat.div_mod_eq (n - 1) 2) as D1.
  pose proof (Nat.mod_upper_bound n 2) as U.
  pose proof (Nat.mod_upper_bound (n - 1) 2) as U1.
  lia.
Qed.

Lemma bin_width_positive (n : nat) (sr : Z) :
  (0 < n)%nat -> (0 < sr)%Z ->
  0 < 1 / (inject_Z (Z.of_nat n) * (1 / inject_Z sr)).
Proof.
  intros Hn Hs.
  assert (S : 0 < inject_Z sr) by (unfold Qlt; cbn; lia).
  assert (N : 0 < inject_Z (Z.of_nat n)) by (unfold Qlt; cbn; lia).
  unfold Qdiv. apply Qmult_lt_0_compat; [reflexivity|].
  apply Qinv_lt_0_compat. apply Qmult_lt_0_compat; [exact N|].
  apply Qmult_lt_0_compat; [reflexivity|]. now apply Qinv_lt_0_compat.
Qed.

(** On the frequency axis of a pass a positive frequency is larger than
    every frequency before it. *)
Lemma fftfreq_increasing (n : nat) (sr : Z) (A B : list Q) (f : Q) :
  (0 < n)%nat -> (0 < sr)%Z -> fftfreq n sr = (A ++ f :: B)%list ->
  forall g, In g B -> 0 < g -> f < g.
Proof.
  intros Hn Hs E g Hg Pg.
  pose proof (bin_width_positive n sr Hn Hs) as V.
  unfold fftfreq in E. cbv zeta in E.
  set (val := 1 / (inject_Z (Z.of_nat n) * (1 / inject_Z sr))) in *.
  apply map_eq_app in E as (A' & rest & E & _ & R).
  apply map_eq_cons in R as (k & B' & -> & <- & <-).
  apply in_map_iff in Hg as (k' & <- & Hk').
  assert (G : StronglySorted grows (A' ++ k :: B')).
  { rewrite <- E. apply grows_app; [apply upward_bins_grow|].
    apply Forall_forall. intros y Hy.
    apply in_map_iff in Hy as (j & <- & Hj). apply in_seq in Hj. lia. }
  apply grows_after in G.
  assert (K : (0 < k')%Z).
  { rewrite Zlt_Qlt. apply (Qmult_lt_r _ _ val V). now rewrite Qmult_0_l. }
  apply (Qmult_lt_r _ _ val V). rewrite <- Zlt_Qlt.
  exact (proj1 (Forall_forall _ _) G k' Hk' K).
Qed.

End FrequencyAxis.

Section PassFacts.

Import Spectral.

Local Open Scope Q_scope.

Variable cfg : config.

Lemma map_fst_combine_same {A B : Type} (l : list A) (m : list B) :
  List.length l = List.length m -> map fst (combine l m) = l.
Proof.
  revert m. induction l as [|a l IH]; intros [|b m] H;
    try discriminate H; [reflexivity|].
  injection H as H. cbn. now rewrite IH.
Qed.

Lemma in_range_positive (f : Q) : in_target_range f = true -> 0 < f.
Proof.
  unfold in_target_range. intros H.
  apply andb_true_iff in H as [H _]. apply Qle_bool_iff in H. lra.
Qed.

(** A pass without a peak leaves the tone, bit and frequency state as it
    was. *)
Lemma no_peak_no_change (current_time fsk_time audio_level : Q)
    (window_size : nat) (magnitude : list Q) (st : state) :
  find_peak (min_signal_strength cfg)
    (fftfreq window_size (sample_rate cfg)) magnitude = None ->
  let st' := process_spectrum cfg current_time fsk_time audio_level
               window_size magnitude st in
  current_fsk_state st' = current_fsk_state st
  /\ last_fsk_change st' = last_fsk_change st
  /\ fsk_state_history st' = fsk_state_history st
  /\ frequency_buffer st' = frequency_buffer st
  /\ time_buffer st' = time_buffer st
  /\ frequency_log st' = frequency_log st
  /\ binary_buffer st' = binary_buffer st
  /\ binary_log st' = binary_log st.
Proof.
  intros H. unfold process_spectrum, detect_tone. cbv zeta. rewrite H.
  repeat match goal with
    | |- context [if ?c then _ else _] => destruct c
    end; repeat split; reflexivity.
Qed.

(** C4: a pass has a peak exactly when some bin of the band [20, 34] Hz has
    a magnitude that reaches the threshold; the peak is then an in-band bin
    that reaches the threshold, every such bin before it is strictly
    weaker, and every such bin after it is not stronger and has a higher
    frequency; without such a bin there is no peak, and tone, bit and
    frequency state stay as they were. *)
Theorem peak_is_first_strongest_in_band (window_size : nat)
    (magnitude : list Q) :
  (0 < window_size)%nat -> (0 < sample_rate cfg)%Z ->
  List.length magnitude = window_size ->
  let freqs := fftfreq window_size (sample_rate cfg) in
  let threshold := min_signal_strength cfg in
  let bins := combine freqs magnitude in
  ((exists p, find_peak threshold freqs magnitude = Some p)
   <-> Exists (eligible threshold) bins)
  /\ (forall p, find_peak threshold freqs magnitude = Some p ->
      exists pre post,
        bins = (pre ++ (peak_freq p, peak_mag p) :: post)%list
        /\ eligible threshold (peak_freq p, peak_mag p)
        /\ peak_idx p
           = List.length (filter (fun b => in_target_range (fst b)) pre)
        /\ Forall (fun b => eligible threshold b -> snd b < peak_mag p) pre
        /\ Forall (fun b => eligible threshold b ->
                            snd b <= peak_mag p /\ peak_freq p < fst b)
                  post)
  /\ (~ Exists (eligible threshold) bins ->
      find_peak threshold freqs magnitude = None
      /\ forall current_time fsk_time audio_level st,
           detect_tone cfg current_time fsk_time audio_level freqs
             magnitude st = st
           /\ let st' := process_spectrum cfg current_time fsk_time
                           audio_level window_size magnitude st in
              current_fsk_state st' = current_fsk_state st
              /\ last_fsk_change st' = last_fsk_change st
              /\ fsk_state_history st' = fsk_state_history st
              /\ frequency_buffer st' = frequency_buffer st
              /\ time_buffer st' = time_buffer st
              /\ frequency_log st' = frequency_log st
              /\ binary_buffer st' = binary_buffer st
              /\ binary_log st' = binary_log st).
Proof.
  intros Hn Hs Hlen freqs threshold bins.
  assert (L : List.length freqs = List.length magnitude).
  { unfold freqs. rewrite fftfreq_length by exact Hn. now symmetry. }
  pose proof (find_peak_unfold threshold freqs magnitude L) as U.
  pose proof (first_strongest threshold bins 0) as F.
  fold bins in U. rewrite <- U in F.
  assert (P : forall p, find_peak threshold freqs magnitude = Some p ->
      exists pre post,
        bins = (pre ++ (peak_freq p, peak_mag p) :: post)%list
        /\ eligible threshold (peak_freq p, peak_mag p)
        /\ peak_idx p
           = List.length (filter (fun b => in_target_range (fst b)) pre)
        /\ Forall (fun b => eligible threshold b -> snd b < peak_mag p) pre
        /\ Forall (fun b => eligible threshold b ->
                            snd b <= peak_mag p /\ peak_freq p < fst b)
                  post).
  { intros p Hp. rewrite Hp in F.
    destruct F as (pre & post & E & Q & I & B & A).
    exists pre, post. split; [exact E|]. split; [exact Q|].
    split; [exact I|]. split; [exact B|].
    assert (EF : freqs = (map fst pre ++ peak_freq p :: map fst post)%list).
    { rewrite <- (map_fst_combine_same freqs magnitude L). fold bins.
      rewrite E, map_app. reflexivity. }
    apply Forall_forall. intros b Hb Eb. split.
    - exact (proj1 (Forall_forall _ _) A b Hb Eb).
    - apply (fftfreq_increasing window_size (sample_rate cfg)
               (map fst pre) (map fst post) (peak_freq p) Hn Hs EF).
      + now apply in_map.
      + apply in_range_positive. exact (proj1 Eb). }
  assert (N : ~ Exists (eligible threshold) bins ->
              find_peak threshold freqs magnitude = None).
  { intros X. destruct (find_peak threshold freqs magnitude) as [p|] eqn:Hp;
      [|reflexivity].
    destruct (P p eq_refl) as (pre & post & E & Q & _).
    exfalso. apply X. rewrite E. apply Exists_app. right.
    now constructor. }
  split; [split|split].
  - intros [p Hp]. destruct (P p Hp) as (pre & post & E & Q & _).
    rewrite E. apply Exists_app. right. now constructor.
  - intros X. destruct (find_peak threshold freqs magnitude) as [p|];
      [now exists p|].
    exfalso. apply Exists_exists in X as (b & Hb & Eb).
    exact (proj1 (Forall_forall _ _) F b Hb Eb).
  - exact P.
  - intros X. split; [exact (N X)|].
    intros current_time fsk_time audio_level st. split.
    + unfold detect_tone. fold threshold. now rewrite (N X).
    + apply no_peak_no_change. exact (N X).
Qed.

End PassFacts.


(** C4 on a spectrum of 8192 bins at 44100 Hz in which the bins at 21.53 Hz
    and 26.92 Hz both have magnitude 20: the peak is the bin at 21.53 Hz,
    the first of the in-range bins. *)
Lemma peak_is_first_strongest_in_band_witness :
  let freqs := Spectral.fftfreq 8192 (sample_rate default_config) in
  let threshold := min_signal_strength default_config in
  exists p pre post,
    Spectral.find_peak threshold freqs Spectral.example_magnitude = Some p
    /\ p = (nth 4 freqs 0, 20, 0%nat)
    /\ combine freqs Spectral.example_magnitude
       = (pre ++ (Spectral.peak_freq p, Spectral.peak_mag p) :: post)%list
    /\ Forall (fun b => Spectral.eligible threshold b ->
                        snd b <= Spectral.peak_mag p) post.
Proof.
  intros freqs threshold.
  assert (H : Spectral.find_peak threshold freqs Spectral.example_magnitude
              = Some (nth 4 freqs 0, 20, 0%nat)).
  { vm_compute. reflexivity. }
  destruct (peak_is_first_strongest_in_band default_config 8192
              Spectral.example_magnitude) as (_ & P & _).
  - apply Nat.ltb_lt. vm_compute. reflexivity.
  - reflexivity.
  - vm_compute. reflexivity.
  - destruct (P _ H) as (pre & post & E & _ & I & B & A).
    exists (nth 4 freqs 0, 20, 0%nat), pre, post.
    split; [exact H|]. split; [reflexivity|]. split; [exact E|].
    eapply Forall_impl; [|exact A].
    intros b Hb Eb. exact (proj1 (Hb Eb)).
Defined.

(** * Further properties of the pipeline *)

(** ** Bounded buffers *)

Section BufferFacts.

Context {A : Type}.

Lemma append_length (maxlen : nat) (x : A) (d : list A) :
  List.length (Deque.append maxlen x d)
  = if (maxlen =? 0)%nat then List.length d
    else if (maxlen <=? List.length d)%nat then List.length d
    else S (List.length d).
Proof.
  unfold Deque.append.
  destruct (Nat.eqb_spec maxlen 0) as [E|N]; [reflexivity|].
  destruct (Nat.leb_spec maxlen (List.length d)) as [L|L].
  - destruct d as [|a d]; [cbn in L; lia|].
    cbn. rewrite length_app. cbn. lia.
  - rewrite length_app. cbn. lia.
Qed.

Lemma append_within (maxlen : nat) (x : A) (d : list A) :
  (List.length d <= maxlen)%nat ->
  (List.length (Deque.append maxlen x d) <= maxlen)%nat.
Proof.
  intros H. rewrite append_length.
  destruct (Nat.eqb_spec maxlen 0); [lia|].
  destruct (Nat.leb_spec maxlen (List.length d)); lia.
Qed.

Lemma append_Forall (P : A -> Prop) (maxlen : nat) (x : A) (d : list A) :
  P x -> Forall P d -> Forall P (Deque.append maxlen x d).
Proof.
  intros Hx Hd. unfold Deque.append.
  destruct (maxlen =? 0)%nat; [exact Hd|].
  destruct (maxlen <=? List.length d)%nat.
  - apply Forall_app. split; [|now constructor].
    destruct d as [|a d]; [constructor|]. now inversion Hd.
  - apply Forall_app. split; [exact Hd|now constructor].
Qed.

End BufferFacts.

(** ** The steps of a pass *)

Section PassSteps.

Import Spectral Pipeline Steps.

Variable cfg : config.
Variable audio_level_of : list Audio.float32 -> Q.
Variable magnitude_of : list Audio.float32 -> list Q.

Lemma track_peak_steps (t ft a : Q) (p : peak) (st : state) :
  track_peak cfg t ft a p st
  = if (is_uvb_frequency cfg (peak_freq p)
        && Qle_bool (min_signal_strength cfg) (peak_mag p))%bool
    then decode_peak cfg t (peak_freq p)
           (record_measurement cfg t a (peak_freq p) (peak_mag p)
              (fst (update_fsk_state cfg ft (peak_freq p) (peak_mag p) st)))
    else st.
Proof.
  unfold track_peak, record_measurement. cbv zeta.
  destruct (_ && _)%bool; [|reflexivity].
  destruct (log_frequency_var cfg); reflexivity.
Qed.

Lemma process_spectrum_steps (t ft a : Q) (window_size : nat)
    (magnitude : list Q) (st : state) :
  process_spectrum cfg t ft a window_size magnitude st
  = log_waterfall cfg t
      (firstn (window_size / 2) (fftfreq window_size (sample_rate cfg)))
      (firstn (window_size / 2) magnitude)
      (detect_tone cfg t ft a (fftfreq window_size (sample_rate cfg))
         magnitude
         (store_waterfall cfg t (firstn (window_size / 2) magnitude) st)).
Proof. reflexivity. Qed.

(** A property of the object that every step of a pass keeps is kept by
    the pass. *)
Section Principle.

Variable I : state -> Prop.

Hypothesis I_fsk : forall t f m st,
  is_uvb_frequency cfg f = true -> I st ->
  I (fst (update_fsk_state cfg t f m st)).
Hypothesis I_measurement : forall t a f m st,
  is_uvb_frequency cfg f = true -> I st ->
  I (record_measurement cfg t a f m st).
Hypothesis I_bit : forall t f b st,
  frequency_to_binary_debug cfg f = Some b -> I st ->
  I (append_bit cfg t f b st).
Hypothesis I_waterfall : forall t w st, I st -> I (store_waterfall cfg t w st).
Hypothesis I_waterfall_log : forall t fr w st,
  I st -> I (log_waterfall cfg t fr w st).
Hypothesis I_level : forall a t st,
  I st ->
  I (set_last_audio_time t
       (set_audio_level_buffer
          (Deque.append 1000 a (audio_level_buffer st)) st)).

Lemma process_spectrum_keeps (t ft a : Q) (window_size : nat)
    (magnitude : list Q) (st : state) :
  I st -> I (process_spectrum cfg t ft a window_size magnitude st).
Proof.
  intros H. rewrite process_spectrum_steps.
  apply I_waterfall_log. unfold detect_tone.
  destruct (find_peak _ _ _) as [p|]; [|now apply I_waterfall].
  rewrite track_peak_steps.
  destruct (is_uvb_frequency cfg (peak_freq p)) eqn:U;
    [|now apply I_waterfall].
  destruct (Qle_bool _ _); [|now apply I_waterfall]. cbn [andb].
  unfold decode_peak.
  destruct (frequency_to_binary_debug cfg (peak_freq p)) as [b|] eqn:C.
  - apply (I_bit _ _ _ _ C). apply I_measurement; [exact U|].
    apply I_fsk; [exact U|]. now apply I_waterfall.
  - apply I_measurement; [exact U|].
    apply I_fsk; [exact U|]. now apply I_waterfall.
Qed.

Lemma pass_keeps (current_time fsk_time : Q) (audio_bytes : list Byte.byte)
    (st : state) :
  I (Session.count_chunk st) ->
  I (process_audio_chunk cfg audio_level_of magnitude_of current_time
       fsk_time audio_bytes st).
Proof.
  intros H. unfold process_audio_chunk. cbv zeta.
  destruct (Audio.decode_audio audio_bytes) as [d|]; [|exact H].
  destruct (negb _); [now apply I_level|].
  destruct (_ <? _)%nat; [now apply I_level|].
  apply process_spectrum_keeps. now apply I_level.
Qed.

End Principle.

End PassSteps.


(** Closes a goal on the attributes of a state built by assignments from
    the facts at hand on the state before. *)
Ltac by_fields :=
  cbn -[Deque.append] in *;
  repeat match goal with
    | H : _ /\ _ |- _ => destruct H
    end;
  repeat split;
  try assumption;
  try (apply append_within; assumption);
  try (rewrite !append_length;
       repeat match goal with
         | |- context [if ?c then _ else _] => destruct c
         end; lia);
  try (apply append_Forall; assumption).

Section SessionInvariants.

Import Spectral Pipeline Steps Session.

Variable cfg : config.
Variable audio_level_of : list Audio.float32 -> Q.
Variable magnitude_of : list Audio.float32 -> list Q.

(** A property kept by every pass is kept along the analysis loop. *)
Lemma loop_keeps (I : state -> Prop) :
  (forall t ft bytes st,
     I st -> I (process_audio_chunk cfg audio_level_of magnitude_of t ft
                  bytes st)) ->
  forall arrivals audio_buffer st,
    I st ->
    I (snd (analyze_audio_from cfg audio_level_of magnitude_of arrivals
              audio_buffer st)).
Proof.
  intros P arrivals. unfold analyze_audio_from.
  induction arrivals as [|a arrivals IH]; intros buf st H; [exact H|].
  cbn [fold_left].
  cbn [fst snd].
  destruct (analyze_step cfg (snd a) buf) as [[processed|] kept];
    cbv iota; apply IH; [now apply P|exact H].
Qed.

Lemma tl_length {B : Type} (l : list B) :
  List.length (tl l) = (List.length l - 1)%nat.
Proof. destruct l; cbn; lia. Qed.

(** X1: the bounded buffers are within their capacity when the decoder is
    created, and a session start, a pass and the analysis loop keep them
    so. *)
Theorem capacity_is_kept :
  within_capacity cfg initial_state
  /\ (forall url now st,
        within_capacity cfg st ->
        within_capacity cfg (fst (start_stream url now st)))
  /\ (forall t ft bytes st,
        within_capacity cfg st ->
        within_capacity cfg
          (process_audio_chunk cfg audio_level_of magnitude_of t ft bytes st))
  /\ (forall arrivals audio_buffer st,
        within_capacity cfg st ->
        within_capacity cfg
          (snd (analyze_audio_from cfg audio_level_of magnitude_of arrivals
                  audio_buffer st))).
Proof.
  assert (P : forall t ft bytes st,
            within_capacity cfg st ->
            within_capacity cfg
              (process_audio_chunk cfg audio_level_of magnitude_of t ft
                 bytes st)).
  { intros t ft bytes st H. apply pass_keeps.
    - intros t' f m s _. unfold within_capacity, update_fsk_state.
      destruct (label_changed _ _); intros K; by_fields.
    - intros t' a f m s _. unfold within_capacity, record_measurement.
      destruct (log_frequency_var cfg); intros K; by_fields.
    - intros t' f b s _. unfold within_capacity, append_bit.
      destruct (log_binary_var cfg); intros K; by_fields.
    - intros t' w s. unfold within_capacity, store_waterfall. cbv zeta.
      cbn [waterfall_data waterfall_times set_waterfall_data
           set_waterfall_times].
      destruct (Nat.ltb_spec (max_waterfall_lines cfg)
                  (List.length (waterfall_data s ++ [w]))) as [L|L];
        rewrite length_app in L; cbn in L; intros K; by_fields;
        rewrite ?tl_length, length_app; cbn; lia.
    - intros t' fr w s. unfold within_capacity, log_waterfall.
      destruct (_ && _)%bool; intros K; by_fields.
    - intros a t' s. unfold within_capacity. intros K. by_fields.
    - unfold within_capacity in *. by_fields. }
  split; [unfold within_capacity; cbn; repeat split; lia|].
  split; [|split; [exact P|now apply loop_keeps]].
  intros url now st H. unfold start_stream.
  destruct (negb (nonempty url)); [exact H|].
  unfold within_capacity in *. cbn. by_fields; lia.
Qed.

End SessionInvariants.

(** The capacity invariant on a first pass over 8192 samples. *)
Lemma capacity_is_kept_witness :
  Pipeline.within_capacity default_config
    (Pipeline.process_audio_chunk default_config Examples.level_half
       Examples.spectrum_example 1 1 Examples.chunk_16384 initial_state).
Proof.
  destruct (capacity_is_kept default_config Examples.level_half
              Examples.spectrum_example) as (I0 & _ & P & _).
  apply P. exact I0.
Defined.

(** ** Invariants of the buffers *)

Section MoreInvariants.

Import Spectral Pipeline Steps Session Shapes.

Variable cfg : config.
Variable audio_level_of : list Audio.float32 -> Q.
Variable magnitude_of : list Audio.float32 -> list Q.

(** X2: the frequency buffer and the time buffer always have the same
    length, and so have the waterfall lines and their times. *)
Theorem buffers_stay_paired :
  paired initial_state
  /\ (forall url now st, paired st -> paired (fst (start_stream url now st)))
  /\ (forall t ft bytes st, paired st -> paired (process_audio_chunk cfg audio_level_of magnitude_of t ft bytes st))
  /\ (forall arrivals audio_buffer st,
        paired st -> paired (snd (analyze_audio_from cfg audio_level_of magnitude_of arrivals audio_buffer st))).
Proof.
  assert (P : forall t ft bytes st, paired st -> paired (process_audio_chunk cfg audio_level_of magnitude_of t ft bytes st)).
  { intros t ft bytes st H. apply pass_keeps.
    - intros t' f m s _. unfold paired, update_fsk_state.
      destruct (label_changed _ _); intros K; by_fields.
    - intros t' a f m s _. unfold paired, record_measurement.
      destruct (log_frequency_var cfg); intros [K1 K2];
        cbn -[Deque.append]; rewrite !append_length, K1; now split.
    - intros t' f b s _. unfold paired, append_bit.
      destruct (log_binary_var cfg); intros K; by_fields.
    - intros t' w s. unfold paired, store_waterfall. cbv zeta.
      cbn [waterfall_data waterfall_times set_waterfall_data
           set_waterfall_times].
      destruct (_ <? _)%nat; intros [K1 K2]; cbn;
        rewrite ?tl_length, !length_app, K2; now split.
    - intros t' fr w s. unfold paired, log_waterfall.
      destruct (_ && _)%bool; intros K; by_fields.
    - intros a t' s. unfold paired. intros K. by_fields.
    - unfold paired in *. by_fields. }
  split; [now split|].
  split; [|split; [exact P|now apply loop_keeps]].
  intros url now st H. unfold start_stream.
  destruct (negb (nonempty url)); [exact H|]. now split.
Qed.

(** X3: every frequency in the frequency buffer is within twice the
    tolerance of one of the three tones. *)
Theorem buffer_holds_known_tones :
  known_tones cfg initial_state
  /\ (forall url now st,
        known_tones cfg st -> known_tones cfg (fst (start_stream url now st)))
  /\ (forall t ft bytes st,
        known_tones cfg st -> known_tones cfg (process_audio_chunk cfg audio_level_of magnitude_of t ft bytes st))
  /\ (forall arrivals audio_buffer st,
        known_tones cfg st ->
        known_tones cfg (snd (analyze_audio_from cfg audio_level_of magnitude_of arrivals audio_buffer st))).
Proof.
  assert (P : forall t ft bytes st,
            known_tones cfg st -> known_tones cfg (process_audio_chunk cfg audio_level_of magnitude_of t ft bytes st)).
  { intros t ft bytes st H. apply pass_keeps.
    - intros t' f m s _. unfold known_tones, update_fsk_state.
      destruct (label_changed _ _); intros K; exact K.
    - intros t' a f m s U. unfold known_tones, record_measurement.
      destruct (log_frequency_var cfg); intros K; cbn -[Deque.append];
        now apply append_Forall.
    - intros t' f b s _. unfold known_tones, append_bit.
      destruct (log_binary_var cfg); intros K; exact K.
    - intros t' w s. unfold known_tones, store_waterfall. cbv zeta.
      destruct (_ <? _)%nat; intros K; exact K.
    - intros t' fr w s. unfold known_tones, log_waterfall.
      destruct (_ && _)%bool; intros K; exact K.
    - intros a t' s K. exact K.
    - exact H. }
  split; [constructor|].
  split; [|split; [exact P|now apply loop_keeps]].
  intros url now st H. unfold start_stream.
  destruct (negb (nonempty url)); [exact H|]. constructor.
Qed.

Lemma classified_bit (f : Q) (b : Z) :
  frequency_to_binary_debug cfg f = Some b -> Pattern.is_bit b = true.
Proof.
  unfold frequency_to_binary_debug.
  repeat match goal with
    | |- context [if ?c then _ else _] => destruct c
    end; intros H; inversion H; reflexivity.
Qed.

(** X4: the bit buffer only ever holds the integers 0 and 1. *)
Theorem buffer_holds_bits :
  bits_only initial_state
  /\ (forall url now st, bits_only st -> bits_only (fst (start_stream url now st)))
  /\ (forall t ft bytes st, bits_only st -> bits_only (process_audio_chunk cfg audio_level_of magnitude_of t ft bytes st))
  /\ (forall arrivals audio_buffer st,
        bits_only st -> bits_only (snd (analyze_audio_from cfg audio_level_of magnitude_of arrivals audio_buffer st))).
Proof.
  assert (P : forall t ft bytes st,
            bits_only st -> bits_only (process_audio_chunk cfg audio_level_of magnitude_of t ft bytes st)).
  { intros t ft bytes st H. apply pass_keeps.
    - intros t' f m s _. unfold bits_only, update_fsk_state.
      destruct (label_changed _ _); intros K; exact K.
    - intros t' a f m s U. unfold bits_only, record_measurement.
      destruct (log_frequency_var cfg); intros K; exact K.
    - intros t' f b s C. unfold bits_only, append_bit.
      apply classified_bit in C.
      destruct (log_binary_var cfg); intros K; cbn -[Deque.append];
        now apply append_Forall.
    - intros t' w s. unfold bits_only, store_waterfall. cbv zeta.
      destruct (_ <? _)%nat; intros K; exact K.
    - intros t' fr w s. unfold bits_only, log_waterfall.
      destruct (_ && _)%bool; intros K; exact K.
    - intros a t' s K. exact K.
    - exact H. }
  split; [constructor|].
  split; [|split; [exact P|now apply loop_keeps]].
  intros url now st H. unfold start_stream.
  destruct (negb (nonempty url)); [exact H|]. constructor.
Qed.

End MoreInvariants.

(** The pairing, the known tones and the bits on a first pass over 8192
    samples. *)
Lemma buffers_stay_paired_witness :
  Pipeline.paired
    (Pipeline.process_audio_chunk default_config Examples.level_half
       Examples.spectrum_example 1 1 Examples.chunk_16384 initial_state).
Proof.
  destruct (buffers_stay_paired default_config Examples.level_half
              Examples.spectrum_example) as (I0 & _ & P & _).
  apply P. exact I0.
Defined.

Lemma buffer_holds_known_tones_witness :
  Steps.known_tones default_config
    (Pipeline.process_audio_chunk default_config Examples.level_half
       Examples.spectrum_example 1 1 Examples.chunk_16384 initial_state).
Proof.
  destruct (buffer_holds_known_tones default_config Examples.level_half
              Examples.spectrum_example) as (I0 & _ & P & _).
  apply P. exact I0.
Defined.

Lemma buffer_holds_bits_witness :
  Steps.bits_only
    (Pipeline.process_audio_chunk default_config Examples.level_half
       Examples.spectrum_example 1 1 Examples.chunk_16384 initial_state).
Proof.
  destruct (buffer_holds_bits default_config Examples.level_half
              Examples.spectrum_example) as (I0 & _ & P & _).
  apply P. exact I0.
Defined.

(** ** The tone tracker and the counters *)

Section TrackerFacts.

Import Spectral Pipeline Steps Session Shapes.

Variable cfg : config.
Variable audio_level_of : list Audio.float32 -> Q.
Variable magnitude_of : list Audio.float32 -> list Q.

Lemma no_repeat_tl (l : list string) : no_repeat l -> no_repeat (tl l).
Proof.
  destruct l as [|x [|y l]]; cbn; try tauto.
Qed.

Lemma no_repeat_snoc (l : list string) (x : string) :
  no_repeat l -> last (map Some l) None <> Some x ->
  no_repeat (l ++ [x]).
Proof.
  induction l as [|a l IH]; intros N L; [exact I|].
  destruct l as [|b l].
  - cbn in *. split; [congruence|exact I].
  - cbn [app no_repeat] in *. destruct N as [D N]. split; [exact D|].
    apply IH; [exact N|exact L].
Qed.

Lemma map_tl {B C : Type} (g : B -> C) (l : list B) :
  map g (tl l) = tl (map g l).
Proof. now destruct l. Qed.

Lemma last_tl {B : Type} (l : list B) (d : B) :
  (2 <= List.length l)%nat -> last (tl l) d = last l d.
Proof.
  destruct l as [|a [|b l]]; cbn; intros H; try lia. reflexivity.
Qed.

Lemma update_fsk_state_ok (t f m : Q) (st : state) :
  tracker_ok st -> tracker_ok (fst (update_fsk_state cfg t f m st)).
Proof.
  unfold tracker_ok, tracker_consistent, update_fsk_state.
  intros [C N].
  destruct (label_changed (fsk_label cfg f) (current_fsk_state st)) eqn:L;
    [|now split].
  cbn -[Deque.append]. unfold Deque.append. cbn [Nat.eqb].
  set (e := {| ev_state := fsk_label cfg f; ev_frequency := f;
               ev_magnitude := m; ev_timestamp := t;
               ev_duration := t - or_else (Some t) t |}).
  assert (X : last (map Some (map ev_state (fsk_state_history st))) None
              <> Some (fsk_label cfg f)).
  { rewrite map_map.
    destruct (last (map Some (fsk_state_history st)) None) as [e0|] eqn:E.
    - destruct C as [C _]. rewrite C in L. cbn in L.
      replace (last (map (fun x => Some (ev_state x)) (fsk_state_history st))
                 None) with (Some (ev_state e0)).
      + intros K. injection K as K. rewrite K, String.eqb_refl in L.
        discriminate L.
      + clear -E. induction (fsk_state_history st) as [|a l IH];
          [discriminate E|].
        destruct l as [|b l]; [cbn in *; congruence|].
        cbn [map last] in *. now apply IH.
    - destruct (fsk_state_history st) as [|a l]; [cbn; congruence|].
      exfalso. clear -E. revert a E.
      induction l as [|b l IH]; intros a E; [discriminate E|].
      cbn [map last] in E. now apply (IH b). }
  destruct (Nat.leb_spec 50 (List.length (fsk_state_history st))) as [F|F].
  - split.
    + rewrite map_app. cbn [map]. rewrite last_last. cbn. now split.
    + rewrite map_app. cbn [map]. apply no_repeat_snoc.
      * rewrite map_tl. now apply no_repeat_tl.
      * rewrite !map_tl, last_tl; [exact X|].
        rewrite !length_map. lia.
  - split.
    + rewrite map_app. cbn [map]. rewrite last_last. cbn. now split.
    + rewrite map_app. cbn [map]. now apply no_repeat_snoc.
Qed.

(** X5: the current state of the tone tracker and the time of its last
    change are those of the last event of the history, and no two
    consecutive events of the history carry the same state. *)
Theorem tracker_agrees_with_history :
  tracker_ok initial_state
  /\ (forall url now st,
        tracker_ok st -> tracker_ok (fst (start_stream url now st)))
  /\ (forall t f m st,
        tracker_ok st -> tracker_ok (fst (update_fsk_state cfg t f m st)))
  /\ (forall t ft bytes st,
        tracker_ok st ->
        tracker_ok
          (process_audio_chunk cfg audio_level_of magnitude_of t ft bytes st))
  /\ (forall arrivals audio_buffer st,
        tracker_ok st ->
        tracker_ok
          (snd (analyze_audio_from cfg audio_level_of magnitude_of arrivals
                  audio_buffer st))).
Proof.
  assert (P : forall t ft bytes st,
            tracker_ok st ->
            tracker_ok
              (process_audio_chunk cfg audio_level_of magnitude_of t ft
                 bytes st)).
  { intros t ft bytes st H. apply pass_keeps.
    - intros t' f m s _. apply update_fsk_state_ok.
    - intros t' a f m s _. unfold record_measurement.
      destruct (log_frequency_var cfg); intros K; exact K.
    - intros t' f b s _. unfold append_bit.
      destruct (log_binary_var cfg); intros K; exact K.
    - intros t' w s. unfold store_waterfall. cbv zeta.
      destruct (_ <? _)%nat; intros K; exact K.
    - intros t' fr w s. unfold log_waterfall.
      destruct (_ && _)%bool; intros K; exact K.
    - intros a t' s K. exact K.
    - exact H. }
  split; [now split|].
  split; [|split; [intros; now apply update_fsk_state_ok|
                   split; [exact P|now apply loop_keeps]]].
  intros url now st H. unfold start_stream.
  destruct (negb (nonempty url)); exact H.
Qed.

(** X6: a pass adds one to the count of chunks processed, whatever the
    chunk holds, and leaves the count of bytes received, the start of the
    session and the streaming flag alone; along the loop the count grows
    by the number of buffers handed to a pass. *)
Theorem passes_are_counted :
  (forall t ft bytes st,
     let st' := process_audio_chunk cfg audio_level_of magnitude_of t ft
                  bytes st in
     chunks_processed st' = (chunks_processed st + 1)%Z
     /\ bytes_received st' = bytes_received st
     /\ session_start_time st' = session_start_time st
     /\ is_streaming st' = is_streaming st)
  /\ (forall arrivals audio_buffer st,
        let st' := snd (analyze_audio_from cfg audio_level_of magnitude_of
                          arrivals audio_buffer st) in
        chunks_processed st'
        = (chunks_processed st
           + Z.of_nat (List.length
                         (processed_buffers cfg (map snd arrivals)
                            audio_buffer)))%Z
        /\ bytes_received st' = bytes_received st).
Proof.
  assert (P : forall t ft bytes st,
     let st' := process_audio_chunk cfg audio_level_of magnitude_of t ft
                  bytes st in
     chunks_processed st' = (chunks_processed st + 1)%Z
     /\ bytes_received st' = bytes_received st
     /\ session_start_time st' = session_start_time st
     /\ is_streaming st' = is_streaming st).
  { intros t ft bytes st.
    apply (pass_keeps cfg audio_level_of magnitude_of
             (fun s => chunks_processed s = (chunks_processed st + 1)%Z
                       /\ bytes_received s = bytes_received st
                       /\ session_start_time s = session_start_time st
                       /\ is_streaming s = is_streaming st)).
    - intros t' f m s _. unfold update_fsk_state.
      destruct (label_changed _ _); intros K; exact K.
    - intros t' a f m s _. unfold record_measurement.
      destruct (log_frequency_var cfg); intros K; exact K.
    - intros t' f b s _. unfold append_bit.
      destruct (log_binary_var cfg); intros K; exact K.
    - intros t' w s. unfold store_waterfall. cbv zeta.
      destruct (_ <? _)%nat; intros K; exact K.
    - intros t' fr w s. unfold log_waterfall.
      destruct (_ && _)%bool; intros K; exact K.
    - intros a t' s K. exact K.
    - cbn. repeat split. }
  split; [exact P|].
  intros arrivals. unfold analyze_audio_from.
  induction arrivals as [|a arrivals IH]; intros buf st; cbn [fold_left].
  - cbn. split; [lia|reflexivity].
  - cbn [fst snd map processed_buffers].
    destruct (analyze_step cfg (snd a) buf) as [[processed|] kept];
      cbv iota.
    + destruct (IH kept
                  (process_audio_chunk cfg audio_level_of magnitude_of
                     (fst (fst a)) (snd (fst a)) processed st)) as [C B].
      destruct (P (fst (fst a)) (snd (fst a)) processed st) as (C1 & B1 & _).
      cbv zeta in *. rewrite C, B, C1, B1. cbn [List.length].
      split; [lia|reflexivity].
    + apply IH.
Qed.

End TrackerFacts.

(** The tracker invariant on a first pass over 8192 samples. *)
Lemma tracker_agrees_with_history_witness :
  Shapes.tracker_ok
    (Pipeline.process_audio_chunk default_config Examples.level_half
       Examples.spectrum_example 1 1 Examples.chunk_16384 initial_state).
Proof.
  destruct (tracker_agrees_with_history default_config Examples.level_half
              Examples.spectrum_example) as (I0 & _ & _ & P & _).
  apply P. exact I0.
Defined.

Section SourceFacts.

Import Pipeline Session Shapes.


End SourceFacts.


(** ** The byte buffer and its decoding *)

Section DecodingFacts.

Import Audio Pipeline.

Local Open Scope nat_scope.

Lemma items_length (width fuel : nat) (buf : list Byte.byte) :
  0 < width -> List.length buf <= fuel ->
  List.length buf <= List.length (items fuel width buf) * width
  /\ List.length (items fuel width buf) * width < List.length buf + width.
Proof.
  intros W. revert buf.
  induction fuel as [|fuel IH]; intros buf H.
  - destruct buf; [cbn; lia|cbn in H; lia].
  - destruct buf as [|b buf]; [cbn; lia|].
    cbn [items].
    set (l := b :: buf) in *.
    assert (L : 1 <= List.length l) by (unfold l; cbn; lia).
    destruct (IH (skipn width l)) as [A B].
    { rewrite length_skipn. lia. }
    rewrite length_skipn in A, B. cbn [List.length].
    rewrite Nat.mul_succ_l.
    destruct (Nat.le_gt_cases (List.length l) width) as [S|S].
    + replace (List.length l - width) with 0 in * by lia.
      assert (Z : List.length (items fuel width (skipn width l)) = 0).
      { destruct (List.length (items fuel width (skipn width l)));
          [reflexivity|]. rewrite Nat.mul_succ_l in B. lia. }
      rewrite Z. lia.
    + lia.
Qed.

Lemma items_bounded (width fuel : nat) (buf : list Byte.byte) :
  Forall (fun it => List.length it <= width) (items fuel width buf).
Proof.
  revert buf. induction fuel as [|fuel IH]; intros buf; [constructor|].
  destruct buf as [|b buf]; [constructor|].
  cbn [items]. constructor; [|apply IH].
  rewrite length_firstn. lia.
Qed.

Lemma byte_val_bounded (b : Byte.byte) : (0 <= byte_val b < 256)%Z.
Proof.
  unfold byte_val. pose proof (Strings.Byte.to_N_bounded b). lia.
Qed.

Lemma int16_le_bounded (item : list Byte.byte) :
  List.length item <= 2 -> (-32768 <= int16_le item <= 32767)%Z.
Proof.
  intros H. unfold int16_le, signed16, le_unsigned.
  destruct item as [|b0 [|b1 [|b2 item]]]; cbn [fold_right];
    try (cbn in H; lia);
    try pose proof (byte_val_bounded b0);
    try pose proof (byte_val_bounded b1);
    match goal with |- context [(?u <? 32768)%Z] =>
      destruct (Z.ltb_spec u 32768) end; lia.
Qed.

(** The two cases of the decoder, by the length of the buffer. *)
Lemma decode_audio_cases (audio_bytes : list Byte.byte) :
  (List.length audio_bytes mod 2 = 0 /\ 200 <= List.length audio_bytes ->
   exists a,
     frombuffer 2 audio_bytes = Ok a
     /\ List.length a * 2 = List.length audio_bytes
     /\ decode_audio audio_bytes
        = Some (map (fun it => div_32768 (astype_float32 (int16_le it))) a))
  /\ (~ (List.length audio_bytes mod 2 = 0
         /\ 200 <= List.length audio_bytes) ->
      decode_audio audio_bytes = None).
Proof.
  pose proof (items_length 2 (List.length audio_bytes) audio_bytes
                ltac:(lia) ltac:(lia)) as [A2 B2].
  pose proof (items_length 4 (List.length audio_bytes) audio_bytes
                ltac:(lia) ltac:(lia)) as [A4 B4].
  unfold decode_audio, attempt, first_usable, as_int16_le, as_float32,
    as_int16_be, frombuffer.
  pose proof (Nat.mod_upper_bound (List.length audio_bytes) 2 ltac:(lia)).
  pose proof (Nat.mod_upper_bound (List.length audio_bytes) 4 ltac:(lia)).
  pose proof (Nat.div_mod_eq (List.length audio_bytes) 2).
  pose proof (Nat.div_mod_eq (List.length audio_bytes) 4).
  split.
  - intros [E L].
    destruct (Nat.eqb_spec (List.length audio_bytes mod 2) 0) as [_|N];
      [|lia].
    rewrite !length_map.
    destruct (Nat.ltb_spec
                (List.length (items (List.length audio_bytes) 2 audio_bytes))
                100) as [K|K]; [lia|].
    destruct (Nat.leb_spec 100
                (List.length (items (List.length audio_bytes) 2 audio_bytes)))
      as [K'|K']; [|lia].
    eexists. split; [reflexivity|]. split; [lia|reflexivity].
  - intros N.
    assert (M : List.length audio_bytes mod 4 = 0 ->
                List.length audio_bytes mod 2 = 0).
    { intros F.
      rewrite (Nat.div_mod_eq (List.length audio_bytes) 4), F.
      rewrite Nat.add_0_r.
      replace (4 * (List.length audio_bytes / 4))
        with ((2 * (List.length audio_bytes / 4)) * 2) by lia.
      apply Nat.Div0.mod_mul. }
    destruct (Nat.eqb_spec (List.length audio_bytes mod 2) 0) as [E|E];
      destruct (Nat.eqb_spec (List.length audio_bytes mod 4) 0) as [F|F];
      rewrite ?length_map;
      repeat match goal with
        | |- context [(List.length ?l <? 100)] =>
            destruct (Nat.ltb_spec (List.length l) 100)
        end;
      try reflexivity; try tauto; lia.
Qed.

(** X8: the decoder takes a buffer exactly when it holds an even number of
    bytes, 200 or more, and what it returns is then the 16-bit
    little-endian reading over 32768, one sample for two bytes: the float32
    reading and the big-endian reading are never the result. *)
Theorem decode_audio_is_pcm (audio_bytes : list Byte.byte) :
  (List.length audio_bytes mod 2 = 0 /\ 200 <= List.length audio_bytes ->
   exists a,
     frombuffer 2 audio_bytes = Ok a
     /\ List.length a * 2 = List.length audio_bytes
     /\ decode_audio audio_bytes
        = Some (map (fun it => div_32768 (astype_float32 (int16_le it))) a))
  /\ (~ (List.length audio_bytes mod 2 = 0
         /\ 200 <= List.length audio_bytes) ->
      decode_audio audio_bytes = None).
Proof. exact (decode_audio_cases audio_bytes). Qed.

(** X9: every sample that the decoder returns is a finite binary32 number
    of the form [v / 32768] for a 16-bit integer [v], hence in the
    interval from -1 (included) to 1 (excluded). *)
Theorem decoded_samples_in_unit_interval (audio_bytes : list Byte.byte)
    (d : list float32) :
  decode_audio audio_bytes = Some d ->
  Forall (fun x =>
            exists (v : Z) (q : Q),
              (-32768 <= v <= 32767)%Z
              /\ float32_value x = Some q
              /\ (q == v # 32768)%Q
              /\ (-1 <= q)%Q /\ (q < 1)%Q) d.
Proof.
  intros H.
  destruct (decode_audio_cases audio_bytes) as [Y N].
  destruct (Nat.eq_dec (List.length audio_bytes mod 2) 0) as [E|E];
    [destruct (Nat.le_gt_cases 200 (List.length audio_bytes)) as [L|L]|].
  - destruct (Y (conj E L)) as (a & Ha & _ & Hd).
    rewrite Hd in H. injection H as <-.
    unfold frombuffer in Ha.
    destruct (_ =? _); [|discriminate Ha]. injection Ha as <-.
    apply Forall_map.
    eapply Forall_impl;
      [|apply (items_bounded 2 (List.length audio_bytes) audio_bytes)].
    intros it Hit. apply int16_le_bounded in Hit.
    destruct (pcm_normalisation_exact (int16_le it) Hit) as (q & Hq & Eq).
    exists (int16_le it), q. repeat split; try assumption; try lia.
    + rewrite Eq. unfold Qle. cbn. lia.
    + rewrite Eq. unfold Qlt. cbn. lia.
  - rewrite N in H by lia. discriminate H.
  - rewrite N in H by tauto. discriminate H.
Qed.

Lemma byte_of_val (x : Z) : (0 <= x < 256)%Z -> byte_val (byte_of x) = x.
Proof.
  intros H. unfold byte_of, byte_val.
  destruct (Strings.Byte.of_N (Z.to_N x)) as [b|] eqn:E.
  - apply Strings.Byte.to_of_N in E. rewrite E. lia.
  - apply Strings.Byte.of_N_None_iff in E. lia.
Qed.

Lemma int16_roundtrip (v : Z) :
  (-32768 <= v <= 32767)%Z -> int16_le (int16_tobytes v) = v.
Proof.
  intros H. unfold int16_le, int16_tobytes, le_unsigned. cbn [fold_right].
  pose proof (Z.mod_pos_bound v 65536 ltac:(lia)) as U.
  set (u := (v mod 65536)%Z) in *.
  rewrite !byte_of_val.
  - replace (u mod 256 + 256 * (u / 256 + 256 * 0))%Z with u
      by (pose proof (Z.div_mod u 256 ltac:(lia)); lia).
    unfold signed16, u.
    destruct (Z.ltb_spec (v mod 65536) 32768) as [K|K].
    + destruct (Z_lt_ge_dec v 0) as [Neg|Pos].
      * rewrite <- (Z.mod_add v 1 65536) in K |- * by lia.
        rewrite Z.mod_small in K |- * by lia. lia.
      * apply Z.mod_small. lia.
    + destruct (Z_lt_ge_dec v 0) as [Neg|Pos].
      * rewrite <- (Z.mod_add v 1 65536) by lia.
        rewrite Z.mod_small by lia. lia.
      * rewrite Z.mod_small in K by lia. lia.
  - split; [apply Z.div_pos; lia|apply Z.div_lt_upper_bound; lia].
  - apply Z.mod_pos_bound. lia.
Qed.

Lemma items_tobytes (samples : list Z) (fuel : nat) :
  2 * List.length samples <= fuel ->
  items fuel 2 (tobytes samples) = map int16_tobytes samples.
Proof.
  revert fuel. induction samples as [|v samples IH]; intros fuel H.
  - destruct fuel; reflexivity.
  - destruct fuel as [|fuel]; [cbn in H; lia|].
    cbn [tobytes flat_map map int16_tobytes app items firstn skipn].
    f_equal. apply IH. cbn in H. lia.
Qed.

Lemma tobytes_length (samples : list Z) :
  List.length (tobytes samples) = 2 * List.length samples.
Proof.
  induction samples as [|v samples IH]; [reflexivity|].
  cbn [tobytes flat_map int16_tobytes app List.length] in *.
  unfold tobytes in IH. rewrite IH. lia.
Qed.

(** X10: the bytes that [stream_local_file] writes for a run of 16-bit
    samples are read back by the decoder as those samples over 32768: with
    100 samples or more the decoder returns exactly them. *)
Theorem local_file_samples_roundtrip (samples : list Z) :
  Forall (fun v => (-32768 <= v <= 32767)%Z) samples ->
  as_int16_le (tobytes samples)
  = Ok (map (fun v => div_32768 (astype_float32 v)) samples)
  /\ (100 <= List.length samples ->
      decode_audio (tobytes samples)
      = Some (map (fun v => div_32768 (astype_float32 v)) samples)).
Proof.
  intros R.
  assert (A : as_int16_le (tobytes samples)
              = Ok (map (fun v => div_32768 (astype_float32 v)) samples)).
  { unfold as_int16_le, frombuffer. rewrite tobytes_length.
    replace ((2 * List.length samples) mod 2) with 0
      by (symmetry; rewrite Nat.mul_comm; apply Nat.Div0.mod_mul).
    cbn [Nat.eqb]. rewrite items_tobytes by lia.
    rewrite map_map. f_equal. apply map_ext_in. intros v Hv.
    rewrite int16_roundtrip; [reflexivity|].
    exact (proj1 (Forall_forall _ _) R v Hv). }
  split; [exact A|]. intros L.
  unfold decode_audio, attempt. rewrite A, length_map.
  destruct (Nat.ltb_spec (List.length samples) 100); [lia|reflexivity].
Qed.

End DecodingFacts.

(** The round trip on 100 samples that count down from 50. *)
Lemma local_file_samples_roundtrip_witness :
  let samples := map (fun i => (50 - Z.of_nat i)%Z) (seq 0 100) in
  Audio.decode_audio (Pipeline.tobytes samples)
  = Some (map (fun v => Audio.div_32768 (Audio.astype_float32 v)) samples).
Proof.
  intros samples.
  destruct (local_file_samples_roundtrip samples) as [_ H].
  - apply Forall_forall. intros v Hv. unfold samples in Hv.
    apply in_map_iff in Hv as (i & <- & Hi). apply in_seq in Hi. lia.
  - apply H. unfold samples. rewrite length_map, length_seq. lia.
Defined.

(** The decoder on a chunk of 16384 bytes. *)
Lemma decode_audio_is_pcm_witness :
  exists a,
    Audio.frombuffer 2 Examples.chunk_16384 = Py.Ok a
    /\ (List.length a * 2 = List.length Examples.chunk_16384)%nat.
Proof.
  destruct (decode_audio_is_pcm Examples.chunk_16384) as [H _].
  destruct H as (a & Ha & La & _).
  - split; [vm_compute; reflexivity|].
    apply Nat.leb_le. vm_compute. reflexivity.
  - exists a. now split.
Defined.

Lemma decoded_samples_in_unit_interval_witness :
  Forall (fun x =>
            exists (v : Z) (q : Q),
              (-32768 <= v <= 32767)%Z
              /\ Audio.float32_value x = Some q
              /\ (q == v # 32768)%Q
              /\ (-1 <= q)%Q /\ (q < 1)%Q)
    (map (fun v => Audio.div_32768 (Audio.astype_float32 v))
         (map (fun i => (50 - Z.of_nat i)%Z) (seq 0 100))).
Proof.
  apply (decoded_samples_in_unit_interval
           (Pipeline.tobytes (map (fun i => (50 - Z.of_nat i)%Z) (seq 0 100)))).
  vm_compute. reflexivity.
Defined.

Section LoopFacts.

Import Audio Pipeline.

Variable cfg : config.

(** The sizes of the buffers that the loop hands on. *)
Lemma processed_buffer_sizes (chunks : list (list Byte.byte))
    (audio_buffer : list Byte.byte) :
  (0 < chunk_size cfg)%Z ->
  Forall (fun c => (Z.of_nat (List.length c) <= chunk_size cfg)%Z) chunks ->
  (Z.of_nat (List.length audio_buffer) < chunk_size cfg * 4)%Z ->
  Forall (fun p => (chunk_size cfg * 4 <= Z.of_nat (List.length p)
                    < chunk_size cfg * 5)%Z)
         (processed_buffers cfg chunks audio_buffer).
Proof.
  intros C F. revert audio_buffer.
  induction F as [|c chunks Hc F IH]; intros buf B; [constructor|].
  cbn [processed_buffers]. unfold analyze_step.
  destruct (Z.geb_spec (Z.of_nat (List.length (buf ++ c)))
              (chunk_size cfg * 4)) as [G|G];
    rewrite length_app in G.
  - constructor.
    + rewrite length_app. lia.
    + apply IH. rewrite length_skipn, length_app. lia.
  - apply IH. rewrite length_app. lia.
Qed.

(** X11: fed with chunks of at most [chunk_size] bytes, the analysis loop
    hands to a pass only buffers of four nominal chunks or more and less
    than five, and keeps less than four nominal chunks in between. *)
Theorem analysis_buffer_sizes (chunks : list (list Byte.byte))
    (audio_buffer : list Byte.byte) :
  (0 < chunk_size cfg)%Z ->
  Forall (fun c => (Z.of_nat (List.length c) <= chunk_size cfg)%Z) chunks ->
  (Z.of_nat (List.length audio_buffer) < chunk_size cfg * 4)%Z ->
  Forall (fun p => (chunk_size cfg * 4 <= Z.of_nat (List.length p)
                    < chunk_size cfg * 5)%Z)
         (processed_buffers cfg chunks audio_buffer).
Proof. exact (processed_buffer_sizes chunks audio_buffer). Qed.

End LoopFacts.

(** X12: with the default chunk size of 4096 bytes, a buffer that the loop
    hands to a pass is decoded to 8192 samples or more when it holds an
    even number of bytes, so that the analysis window has exactly 8192
    samples, and is not decoded at all when it holds an odd number of
    bytes. *)
Theorem live_window_is_8192 (chunks : list (list Byte.byte))
    (p : list Byte.byte) :
  Forall (fun c => (List.length c <= 4096)%nat) chunks ->
  In p (Pipeline.processed_buffers default_config chunks []) ->
  (List.length p mod 2 = 0%nat ->
   exists d, Audio.decode_audio p = Some d
             /\ Nat.min (List.length d) 8192 = 8192%nat)
  /\ (List.length p mod 2 <> 0%nat -> Audio.decode_audio p = None).
Proof.
  intros F Hp.
  assert (S : (16384 <= Z.of_nat (List.length p) < 20480)%Z).
  { pose proof (processed_buffer_sizes default_config chunks []) as A.
    change (chunk_size default_config) with 4096%Z in A.
    assert (K : (4096 * 4 <= Z.of_nat (List.length p) < 4096 * 5)%Z).
    { refine (proj1 (Forall_forall _ _) (A _ _ _) p Hp);
        [lia| |cbn; lia].
      eapply Forall_impl; [|exact F]. intros c Hc. cbv beta in Hc. lia. }
    lia. }
  destruct (decode_audio_cases p) as [Y N]. split.
  - intros E. assert (L : (200 <= List.length p)%nat) by lia.
    destruct (Y (conj E L)) as (a & _ & La & Hd).
    eexists. split; [exact Hd|]. rewrite length_map.
    apply Nat.min_r. apply Nat2Z.inj_le.
    replace (Z.of_nat 8192) with 8192%Z by (vm_compute; reflexivity).
    lia.
  - intros E. apply N. tauto.
Qed.

(** The window of the pass that the fourth of four chunks of 4096 bytes
    triggers. *)
Lemma live_window_is_8192_witness :
  exists d,
    Audio.decode_audio Examples.chunk_16384 = Some d
    /\ Nat.min (List.length d) 8192 = 8192%nat.
Proof.
  assert (E : Pipeline.processed_buffers default_config
                (repeat (Audio.ones_chunk 1024) 4) []
              = [Examples.chunk_16384]) by (vm_compute; reflexivity).
  assert (P : List.length Examples.chunk_16384 mod 2 = 0%nat)
    by (vm_compute; reflexivity).
  assert (F : Forall (fun c : list Byte.byte => (List.length c <= 4096)%nat)
                (repeat (Audio.ones_chunk 1024) 4)).
  { repeat constructor; apply Nat.leb_le; vm_compute; reflexivity. }
  destruct (live_window_is_8192
              (repeat (Audio.ones_chunk 1024) 4) Examples.chunk_16384 F)
    as [H _].
  - rewrite E. now left.
  - exact (H P).
Defined.

Lemma analysis_buffer_sizes_witness :
  Forall (fun p => (4096 * 4 <= Z.of_nat (List.length p) < 4096 * 5)%Z)
    (Pipeline.processed_buffers default_config
       (repeat (Audio.ones_chunk 1024) 6) []).
Proof.
  apply (analysis_buffer_sizes default_config); [reflexivity| |cbn; lia].
  repeat constructor; apply Z.leb_le; vm_compute; reflexivity.
Defined.


(** ** Labels and bit decisions *)

Section LabelFacts.

Import Spectral Display.

Local Open Scope Q_scope.

Variable cfg : config.

(** X13: the label of the tone tracker says what the bit decision is, for
    every configuration: it is the label of the first tone exactly when
    the bit is 0, the label of the second tone exactly when the bit is 1,
    and the label of the carrier or the one of an unknown frequency
    exactly when there is no bit. *)
Theorem label_tells_bit (f : Q) :
  let t := uvb76_frequencies cfg in
  (frequency_to_binary_debug cfg f = Some 0%Z
   <-> fsk_label cfg f = "FSK-1 (" ++ format_2f (freq_1 t) ++ "Hz)")
  /\ (frequency_to_binary_debug cfg f = Some 1%Z
      <-> fsk_label cfg f = "FSK-2 (" ++ format_2f (freq_2 t) ++ "Hz)")
  /\ (frequency_to_binary_debug cfg f = None
      <-> fsk_label cfg f = "FSK-3 (" ++ format_2f (freq_3 t) ++ "Hz)"
          \/ fsk_label cfg f = "Unknown (" ++ format_2f f ++ "Hz)").
Proof.
  unfold frequency_to_binary_debug, fsk_label. cbv zeta.
  destruct (Qle_bool (Qabs (f - freq_1 (uvb76_frequencies cfg)))
              (freq_tolerance cfg));
    [|destruct (Qle_bool (Qabs (f - freq_2 (uvb76_frequencies cfg)))
                 (freq_tolerance cfg));
      [|destruct (Qle_bool (Qabs (f - freq_3 (uvb76_frequencies cfg)))
                   (freq_tolerance cfg));
        [|destruct (Qle_bool 20.0 f && Qle_bool f 35.0)%bool]]];
    repeat split; intros H; try reflexivity; try discriminate H;
    try (now left); try (now right);
    try (destruct H as [H|H]; discriminate H).
Qed.

(** X14: a frequency that passes the test on the known tones, as every entry
    of the frequency buffer does, is shown with the name of one of the
    three tones, never as unknown or foreign; and a frequency that gives
    the bit 0 is shown as the first tone. *)
Theorem known_tone_is_named (f : Q) :
  (is_uvb_frequency cfg f = true ->
   freq_state cfg f = format_fixed 1 f ++ " Hz (FSK-1: Binary 0)"
   \/ freq_state cfg f = format_fixed 1 f ++ " Hz (FSK-2: Binary 1)"
   \/ freq_state cfg f = format_fixed 1 f ++ " Hz (FSK-3: Carrier/Buzzer)")
  /\ (frequency_to_binary_debug cfg f = Some 0%Z ->
      freq_state cfg f = format_fixed 1 f ++ " Hz (FSK-1: Binary 0)").
Proof.
  split.
  - unfold is_uvb_frequency, freq_state. cbn [existsb]. intros H.
    destruct (Qle_bool (Qabs (f - freq_1 (uvb76_frequencies cfg)))
                (freq_tolerance cfg * 2)); [now left|].
    destruct (Qle_bool (Qabs (f - freq_2 (uvb76_frequencies cfg)))
                (freq_tolerance cfg * 2)); [now right; left|].
    destruct (Qle_bool (Qabs (f - freq_3 (uvb76_frequencies cfg)))
                (freq_tolerance cfg * 2)); [now right; right|].
    discriminate H.
  - unfold frequency_to_binary_debug, freq_state. cbv zeta.
    destruct (Qle_bool (Qabs (f - freq_1 (uvb76_frequencies cfg)))
                (freq_tolerance cfg)) eqn:T.
    + intros _. apply Qle_bool_iff in T.
      assert (W : Qle_bool (Qabs (f - freq_1 (uvb76_frequencies cfg)))
                    (freq_tolerance cfg * 2) = true).
      { apply Qle_bool_iff.
        pose proof (Qabs_nonneg (f - freq_1 (uvb76_frequencies cfg))).
        lra. }
      now rewrite W.
    + repeat match goal with
        | |- context [if ?c then _ else _] => destruct c
        end; intros H; discriminate H.
Qed.

End LabelFacts.

Lemma known_tone_is_named_witness :
  Display.freq_state default_config 21.0 = "21.0 Hz (FSK-1: Binary 0)"
  \/ Display.freq_state default_config 21.0 = "21.0 Hz (FSK-2: Binary 1)"
  \/ Display.freq_state default_config 21.0
     = "21.0 Hz (FSK-3: Carrier/Buzzer)".
Proof.
  destruct (known_tone_is_named default_config 21.0) as [H _].
  apply H. vm_compute. reflexivity.
Defined.

(** ** The band at the default settings *)

Section DefaultSpectrum.

Import Spectral.

Local Open Scope Q_scope.

(** The peak of a pass is a bin of the spectrum, in the band and at least
    as strong as the threshold. *)
Lemma find_peak_in (threshold : Q) (freqs magnitude : list Q) (p : peak) :
  List.length freqs = List.length magnitude ->
  find_peak threshold freqs magnitude = Some p ->
  In (peak_freq p) (filter in_target_range freqs)
  /\ threshold <= peak_mag p.
Proof.
  intros L H. rewrite (find_peak_unfold threshold freqs magnitude L) in H.
  pose proof (first_strongest threshold (combine freqs magnitude) 0) as F.
  rewrite H in F. destruct F as (pre & post & E & [R T] & _).
  split; [|exact T]. apply filter_In. split; [|exact R].
  rewrite <- (map_fst_combine_same freqs magnitude L), E, map_app.
  apply in_or_app. right. now left.
Qed.

(** Every bin of the spectrum is a multiple of the bin width. *)
Lemma fftfreq_bins (n : nat) (sample_rate : Z) (f : Q) :
  In f (fftfreq n sample_rate) ->
  exists k : Z,
    f = inject_Z k * (1 / (inject_Z (Z.of_nat n)
                           * (1 / inject_Z sample_rate))).
Proof.
  unfold fftfreq. cbv zeta. intros H.
  apply in_map_iff in H as (k & <- & _). now exists k.
Qed.

(** The multiples of the bin width below half the window are bins. *)
Lemma fftfreq_bin (n : nat) (sample_rate : Z) (k : nat) :
  (k < (n - 1) / 2 + 1)%nat ->
  In (inject_Z (Z.of_nat k)
      * (1 / (inject_Z (Z.of_nat n) * (1 / inject_Z sample_rate))))
     (fftfreq n sample_rate).
Proof.
  intros H. unfold fftfreq. cbv zeta.
  apply (in_map (fun j => inject_Z j * _)).
  apply in_or_app. left. apply in_map. apply in_seq. lia.
Qed.

(** At 44100 Hz and 8192 samples the band holds the bins 4, 5 and 6. *)
Lemma default_band (k : Z) :
  in_target_range
    (inject_Z k * (1 / (inject_Z 8192 * (1 / inject_Z 44100)))) = true ->
  (k = 4 \/ k = 5 \/ k = 6)%Z.
Proof.
  intros R.
  change (1 / (inject_Z 8192 * (1 / inject_Z 44100))) with (44100 # 8192)
    in R.
  unfold in_target_range in R. apply andb_true_iff in R as [R1 R2].
  apply Qle_bool_iff in R1, R2.
  unfold Qle, Qmult, inject_Z in R1, R2. cbn [Qnum Qden] in R1, R2.
  lia.
Qed.

Lemma default_bins_are_tones (k : Z) :
  (k = 4 \/ k = 5 \/ k = 6)%Z ->
  Shapes.default_tone
    (inject_Z k * (1 / (inject_Z 8192 * (1 / inject_Z 44100)))).
Proof.
  unfold Shapes.default_tone.
  intros [->|[->| ->]]; (split; [vm_compute; reflexivity|]).
  - left. split; vm_compute; reflexivity.
  - right; left. split; vm_compute; reflexivity.
  - right; right. split; vm_compute; reflexivity.
Qed.

(** X15: with the default sample rate and a window of 8192 samples every
    bin of the spectrum that lies in the band is within the tolerance of
    one of the three tones: the peak of a pass, when there is one, passes
    the known-tone test and gives the bit 0, the bit 1 or the carrier, and
    its label is never the one of an unknown frequency. *)
Theorem default_peak_is_a_tone :
  (forall f,
     In f (fftfreq 8192 (sample_rate default_config)) ->
     in_target_range f = true -> Shapes.default_tone f)
  /\ (forall magnitude p,
        List.length magnitude = 8192%nat ->
        find_peak (min_signal_strength default_config)
          (fftfreq 8192 (sample_rate default_config)) magnitude = Some p ->
        Shapes.default_tone (peak_freq p)).
Proof.
  assert (W : Z.of_nat 8192 = 8192%Z) by (vm_compute; reflexivity).
  assert (B : forall f,
            In f (fftfreq 8192 (sample_rate default_config)) ->
            in_target_range f = true -> Shapes.default_tone f).
  { intros f Hf. apply fftfreq_bins in Hf as [k ->].
    change (sample_rate default_config) with 44100%Z. rewrite W.
    intros R. apply default_bins_are_tones. now apply default_band. }
  split; [exact B|].
  intros magnitude p L H.
  destruct (find_peak_in _ _ _ p
              (eq_trans (fftfreq_length 8192 _
                           (proj1 (Nat.ltb_lt 0 8192) eq_refl))
                        (eq_sym L)) H) as [H' _].
  destruct (proj1 (filter_In _ _ _) H') as [Hf R].
  exact (B _ Hf R).
Qed.

End DefaultSpectrum.

(** The fifth bin of the spectrum, 21.53 Hz. *)
Lemma default_peak_is_a_tone_witness :
  Shapes.default_tone
    (inject_Z (Z.of_nat 4)
     * (1 / (inject_Z (Z.of_nat 8192)
             * (1 / inject_Z (sample_rate default_config)))))%Q.
Proof.
  destruct default_peak_is_a_tone as [H _].
  apply H.
  - apply (fftfreq_bin 8192 (sample_rate default_config) 4).
    apply Nat.ltb_lt. vm_compute. reflexivity.
  - vm_compute. reflexivity.
Defined.


(** ** The pattern analysis *)

Section AnalysisFacts.

Import Pattern Monolit Analysis.

Lemma runs_loop_spec (rest : list Z) (b : Z) (n : nat)
    (runs : list (Z * nat)) :
  expand (runs_loop rest b n runs)
  = (expand runs ++ repeat b n ++ rest)%list
  /\ (Forall (fun r => (1 <= snd r)%nat) runs -> (1 <= n)%nat ->
      Forall (fun r => (1 <= snd r)%nat) (runs_loop rest b n runs))
  /\ (alternate (runs ++ [(b, n)]) -> alternate (runs_loop rest b n runs)).
Proof.
  revert b n runs. induction rest as [|x rest IH]; intros b n runs.
  - cbn [runs_loop]. unfold expand. rewrite flat_map_app. cbn.
    rewrite !app_nil_r. repeat split; auto.
    intros F N. apply Forall_app. split; [exact F|]. now constructor.
  - cbn [runs_loop]. destruct (Z.eqb_spec x b) as [->|D].
    + destruct (IH b (S n) runs) as (E & P & A). split; [|split].
      * rewrite E. f_equal.
        change (repeat b (S n)) with (b :: repeat b n).
        rewrite repeat_cons, <- app_assoc. reflexivity.
      * intros F N. apply P; [exact F|lia].
      * intros K. apply A. clear -K.
        induction runs as [|r runs IHr]; [exact I|].
        destruct runs as [|r' runs]; cbn in *; tauto.
    + destruct (IH x 1%nat (runs ++ [(b, n)])%list) as (E & P & A).
      split; [|split].
      * rewrite E. unfold expand. rewrite flat_map_app. cbn.
        now rewrite app_nil_r, <- !app_assoc.
      * intros F N. apply P; [|lia].
        apply Forall_app. split; [exact F|]. now constructor.
      * intros K. apply A. clear -K D.
        induction runs as [|r runs IHr]; [cbn; split; [congruence|exact I]|].
        destruct runs as [|r' runs].
        -- cbn in *. destruct K as [K _]. repeat split; congruence.
        -- cbn [app alternate] in *. destruct K as [K1 K2].
           split; [exact K1|]. apply IHr. exact K2.
Qed.

(** X16: the runs that the pattern analysis computes for a list give the
    list back when they are expanded; every run has at least one entry and
    no two neighbouring runs have the same value; only the empty list has
    no runs, the look at its first entry raises. *)
Theorem run_lengths_roundtrip (bits : list Z) :
  (bits = [] -> exists e, run_lengths bits = Raise e)
  /\ (bits <> [] ->
      exists runs,
        run_lengths bits = Ok runs
        /\ expand runs = bits
        /\ Forall (fun r => (1 <= snd r)%nat) runs
        /\ alternate runs).
Proof.
  split.
  - intros ->. eexists. reflexivity.
  - intros N. destruct bits as [|b rest]; [congruence|].
    destruct (runs_loop_spec rest b 1 []) as (E & P & A).
    exists (runs_loop rest b 1 []). split; [reflexivity|].
    split; [exact E|]. split; [apply P; [constructor|lia]|].
    apply A. exact I.
Qed.

(** X17: the likelihood that the Monolit heuristic reports depends only on
    how many of the four features are present: HIGH for three or four,
    MEDIUM for two, LOW for one, NONE for none. *)
Theorem likelihood_counts_features (callsigns fives eights words : list string) :
  likelihood_of (monolit_score callsigns fives eights words)
  = match features callsigns fives eights words with
    | 0 => "NONE - No clear Monolit patterns"
    | 1 => "LOW - Few Monolit indicators"
    | 2 => "MEDIUM - Some Monolit patterns"
    | _ => "HIGH - Strong Monolit characteristics"
    end%nat.
Proof.
  unfold monolit_score, features.
  destruct (some callsigns), (some fives), (some eights), (some words);
    reflexivity.
Qed.

Lemma longest_match_spec (cls : ascii -> bool) (lo n : nat) (s m : string) :
  longest_match cls lo n s = Some m ->
  (lo <= String.length m < lo + n)%nat /\ all_chars cls m = true.
Proof.
  induction n as [|n IH]; intros H; [discriminate H|].
  cbn [longest_match] in H.
  destruct (matches_len cls (lo + n) s) eqn:M.
  - injection H as <-. unfold matches_len in M.
    apply andb_true_iff in M as [M _]. apply andb_true_iff in M as [L C].
    apply Nat.eqb_eq in L. split; [lia|exact C].
  - destruct (IH H) as [L C]. split; [lia|exact C].
Qed.

Lemma findall_from_spec (cls : ascii -> bool) (lo hi : nat) (s : string)
    (prev : option ascii) (skip : nat) :
  Forall (fun m => (lo <= String.length m <= hi)%nat
                   /\ all_chars cls m = true)
         (findall_from cls lo hi prev skip s).
Proof.
  revert prev skip. induction s as [|c s IH]; intros prev skip;
    [constructor|].
  cbn [findall_from]. destruct skip as [|k]; [|apply IH].
  destruct (boundary prev (Some c)); [|apply IH].
  destruct (longest_match cls lo (hi + 1 - lo) (String c s)) as [m|] eqn:M;
    [|apply IH].
  constructor; [|apply IH].
  apply longest_match_spec in M. destruct M as [L C]. split; [lia|exact C].
Qed.

(** X18: every five-digit group that the Monolit heuristic reports is made
    of exactly five digits, every eight-digit block of exactly eight
    digits, and every code word of four to six upper-case letters. *)
Theorem reported_groups_are_well_formed (decimal_sequence ascii_chars : string) :
  Forall (fun m => String.length m = 5%nat /\ all_chars is_digit m = true)
         (five_digit_groups_of decimal_sequence)
  /\ Forall (fun m => String.length m = 8%nat /\ all_chars is_digit m = true)
            (eight_digit_groups_of decimal_sequence)
  /\ Forall (fun m => (4 <= String.length m <= 6)%nat
                      /\ all_chars is_upper m = true)
            (code_word_candidates_of ascii_chars).
Proof.
  unfold five_digit_groups_of, eight_digit_groups_of,
    code_word_candidates_of, findall.
  repeat split;
    (eapply Forall_impl; [|apply findall_from_spec]);
    intros m [L C]; (split; [lia|exact C]).
Qed.

End AnalysisFacts.

Lemma run_lengths_roundtrip_witness :
  exists runs,
    Analysis.run_lengths [0; 0; 1; 1; 1; 0]%Z = Py.Ok runs
    /\ Analysis.expand runs = [0; 0; 1; 1; 1; 0]%Z.
Proof.
  destruct (run_lengths_roundtrip [0; 0; 1; 1; 1; 0]%Z) as [_ H].
  destruct H as (runs & R & E & _); [discriminate|].
  exists runs. now split.
Defined.

(** ** The numbering of the binary log *)

Section LogFacts.

Import Spectral Pipeline Steps Session Analysis.

Variable cfg : config.
Variable audio_level_of : list Audio.float32 -> Q.
Variable magnitude_of : list Audio.float32 -> list Q.

(** X19: the entries of the binary log are numbered from 1 in the order of
    the log, whatever the logging switches are. *)
Theorem log_is_numbered :
  numbered initial_state
  /\ (forall url now st, numbered st -> numbered (fst (start_stream url now st)))
  /\ (forall t ft bytes st,
        numbered st ->
        numbered
          (process_audio_chunk cfg audio_level_of magnitude_of t ft bytes st))
  /\ (forall arrivals audio_buffer st,
        numbered st ->
        numbered
          (snd (analyze_audio_from cfg audio_level_of magnitude_of arrivals
                  audio_buffer st))).
Proof.
  assert (P : forall t ft bytes st,
            numbered st ->
            numbered
              (process_audio_chunk cfg audio_level_of magnitude_of t ft
                 bytes st)).
  { intros t ft bytes st H. apply pass_keeps.
    - intros t' f m s _. unfold update_fsk_state.
      destruct (label_changed _ _); intros K; exact K.
    - intros t' a f m s _. unfold record_measurement.
      destruct (log_frequency_var cfg); intros K; exact K.
    - intros t' f b s _. unfold numbered, append_bit.
      destruct (log_binary_var cfg); intros K; [|exact K].
      cbn -[Deque.append]. rewrite map_app, length_app, K. cbn.
      rewrite Nat.add_1_r, seq_S. reflexivity.
    - intros t' w s. unfold store_waterfall. cbv zeta.
      destruct (_ <? _)%nat; intros K; exact K.
    - intros t' fr w s. unfold log_waterfall.
      destruct (_ && _)%bool; intros K; exact K.
    - intros a t' s K. exact K.
    - exact H. }
  split; [reflexivity|].
  split; [|split; [exact P|now apply loop_keeps]].
  intros url now st H. unfold start_stream.
  destruct (negb (nonempty url)); [exact H|]. reflexivity.
Qed.

End LogFacts.

Lemma log_is_numbered_witness :
  Analysis.numbered
    (Pipeline.process_audio_chunk default_config Examples.level_half
       Examples.spectrum_example 1 1 Examples.chunk_16384 initial_state).
Proof.
  destruct (log_is_numbered default_config Examples.level_half
              Examples.spectrum_example) as (I0 & _ & P & _).
  apply P. exact I0.
Defined.


(** ** Strings as lists of characters *)

Section StringFacts.

Lemma chars_append (s t : string) :
  list_ascii_of_string (s ++ t)
  = (list_ascii_of_string s ++ list_ascii_of_string t)%list.
Proof. induction s as [|c s IH]; cbn; [reflexivity|now rewrite IH]. Qed.

Lemma chars_length (s : string) :
  List.length (list_ascii_of_string s) = String.length s.
Proof. induction s as [|c s IH]; cbn; [reflexivity|now rewrite IH]. Qed.

Lemma chars_substring (s : string) (i k : nat) :
  list_ascii_of_string (substring i k s)
  = firstn k (skipn i (list_ascii_of_string s)).
Proof.
  revert i k. induction s as [|c s IH]; intros i k.
  - destruct i, k; reflexivity.
  - destruct i as [|i].
    + destruct k as [|k]; cbn; [reflexivity|].
      rewrite IH. reflexivity.
    + cbn. apply IH.
Qed.

Lemma chars_inj (s t : string) :
  list_ascii_of_string s = list_ascii_of_string t -> s = t.
Proof.
  intros H. rewrite <- (string_of_list_ascii_of_string s),
    <- (string_of_list_ascii_of_string t). now rewrite H.
Qed.

Lemma string_length_append (s t : string) :
  String.length (s ++ t) = (String.length s + String.length t)%nat.
Proof. now rewrite <- !chars_length, chars_append, length_app. Qed.

Lemma substring_length (s : string) (i k : nat) :
  String.length (substring i k s) = Nat.min k (String.length s - i).
Proof.
  now rewrite <- !chars_length, chars_substring, length_firstn, length_skipn.
Qed.

Lemma nonempty_append_r (s t : string) :
  nonempty t = true -> nonempty (s ++ t) = true.
Proof. destruct s; cbn; [tauto|reflexivity]. Qed.

Lemma nonempty_append_l (s t : string) :
  nonempty s = true -> nonempty (s ++ t) = true.
Proof. destruct s; cbn; [discriminate|reflexivity]. Qed.

Lemma nonempty_prefix (n : nat) (s : string) :
  nonempty s = true -> nonempty (prefix (S n) s) = true.
Proof. destruct s; [discriminate|reflexivity]. Qed.

Lemma range_step_head (stop : Z) (step : nat) :
  (0 < stop)%Z -> (0 < step)%nat ->
  exists rest, range_step stop step = 0%nat :: rest.
Proof.
  intros S T. unfold range_step.
  assert (C : (1 <= (stop + Z.of_nat step - 1) / Z.of_nat step)%Z).
  { apply Z.div_le_lower_bound; lia. }
  destruct (Z.to_nat ((stop + Z.of_nat step - 1) / Z.of_nat step))
    as [|c] eqn:E; [lia|].
  cbn [seq map]. eexists. reflexivity.
Qed.

Lemma for_each_keeps {A : Type} (P : A -> Prop) (body : nat -> A -> exc A)
    (idxs : list nat) (acc : A) :
  (forall i a, P a -> exists a', body i a = Ok a' /\ P a') ->
  P acc -> exists r, for_each idxs body acc = Ok r /\ P r.
Proof.
  intros H. revert acc. induction idxs as [|i idxs IH]; intros acc Pa.
  - exists acc. now split.
  - cbn [for_each]. destruct (H i acc Pa) as (a' & -> & Pa'). now apply IH.
Qed.

Lemma for_each_total_from {A : Type} (P : A -> Prop)
    (body : nat -> A -> exc A) (rest : list nat) (acc : A) :
  (forall i a, exists a', body i a = Ok a' /\ (P a -> P a')) ->
  (forall a', body 0%nat acc = Ok a' -> P a') ->
  exists r, for_each (0%nat :: rest) body acc = Ok r /\ P r.
Proof.
  intros H F. cbn [for_each].
  destruct (H 0%nat acc) as (a' & E & _). rewrite E.
  apply for_each_keeps; [|now apply F].
  intros i a Pa. destruct (H i a) as (a'' & E' & K). exists a''. auto.
Qed.

End StringFacts.

Section BitStrings.

Import Pattern.

Lemma bit_string_length (bits : list Z) :
  forallb is_bit bits = true ->
  String.length (bit_string_of bits) = List.length bits.
Proof.
  unfold bit_string_of.
  induction bits as [|b bits IH]; intros H; [reflexivity|].
  cbn [forallb] in H. apply andb_true_iff in H as [Hb Hs].
  assert (D : String.length (str b) = 1%nat).
  { unfold is_bit in Hb. apply orb_true_iff in Hb as [E|E];
      apply Z.eqb_eq in E; subst b; reflexivity. }
  specialize (IH Hs). cbn [map String.concat List.length].
  destruct (map str bits) as [|x xs] eqn:M.
  - destruct bits; [now rewrite D|discriminate M].
  - rewrite !string_length_append, D. cbn [String.length]. rewrite IH.
    reflexivity.
Qed.

End BitStrings.

(** ** The decoding methods on bit lists *)

Section CodecsOnBits.

Import Pattern.

Variable entropy_text : nat -> nat -> nat -> string.

Lemma slice_parses (s : string) (i w n : nat) :
  all_chars is_bin_digit s = true ->
  (String.length (substring i w s) =? S n)%nat = true ->
  int_base2 (substring i w s) = Ok (bin_value 0 (substring i w s)).
Proof.
  intros B L. apply int_base2_binary.
  - now apply all_chars_substring.
  - exact (nonempty_of_length _ _ L).
Qed.

Lemma first_slice_full (s : string) (w : nat) :
  (w <= String.length s)%nat ->
  (String.length (substring 0 w s) =? w)%nat = true.
Proof. intros H. apply Nat.eqb_eq. rewrite substring_length. lia. Qed.

(** Runs one of the slicing loops on a string of binary digits: every turn
    succeeds and the first one already leaves a result that is not
    empty. *)
Ltac open_loop P :=
  match goal with
  | |- context [for_each (range_step (len_minus ?s ?k) ?w) ?body ?acc] =>
      let rest := fresh "rest" in
      let E := fresh "E" in
      destruct (range_step_head (len_minus s k) w) as [rest E];
      [unfold len_minus; lia|lia|];
      rewrite E;
      destruct (for_each_total_from P body rest acc) as (res & Eres & Pres);
      [ intros i a; cbv beta zeta
      | intros a'; cbv beta zeta; rewrite (first_slice_full s w) by lia
      | rewrite Eres; cbn [bind] ]
  end.

Ltac slicing_loop B P :=
  open_loop P;
  [ match goal with
    | |- context [substring ?i ?w ?s] =>
        destruct (String.length (substring i w s) =? w)%nat eqn:F;
        [rewrite (slice_parses s i w _ B F); cbn [bind]|]
    end
  | match goal with
    | |- context [substring 0 ?w ?s] =>
        rewrite (slice_parses s 0 w _ B (first_slice_full s w ltac:(lia)));
        cbn [bind]
    end
  | ].

(** The slots of the report of eight entries or more. *)
Lemma report_slots (bits : list Z) :
  (8 <= List.length bits)%nat ->
  let s := bit_string_of bits in
  let r := decode_binary_sequence entropy_text bits in
  dict_get "ascii_8bit" r = slot "Decode failed" ascii_8bit s
  /\ dict_get "nibbles_4bit" r = slot "Decode failed" nibbles_4bit s
  /\ dict_get "bytes_decimal" r = slot "Decode failed" bytes_decimal s
  /\ dict_get "hex_bytes" r = slot "Decode failed" hex_bytes s
  /\ dict_get "baudot_5bit" r = slot "Decode failed" baudot_5bit s
  /\ dict_get "bcd_decimal" r = slot "Decode failed" bcd_decimal s
  /\ dict_get "sync_patterns" r
     = slot "Analysis failed" sync_patterns_codec s
  /\ dict_get "statistics" r
     = slot "Calc failed" (statistics entropy_text) s.
Proof.
  intros H s r. unfold r, decode_binary_sequence.
  destruct (Nat.ltb_spec (List.length bits) 8) as [K|_]; [lia|].
  fold s. cbv zeta.
  repeat split; rewrite !run_codec_get;
    cbn [String.eqb Ascii.eqb Bool.eqb dict_get];
    repeat match goal with
      | |- context [slot ?m ?b ?x] => destruct (slot m b x)
      end; reflexivity.
Qed.

(** X20: on a list of 0s and 1s of eight entries or more no codec raises,
    and every one of the eight slots of the report holds the text that its
    codec computed. *)
Theorem codecs_succeed_on_bits (bits : list Z) :
  forallb is_bit bits = true -> (8 <= List.length bits)%nat ->
  let bs := bit_string_of bits in
  let report := decode_binary_sequence entropy_text bits in
  (exists x, ascii_8bit bs = Ok (Some (VStr x))
             /\ dict_get "ascii_8bit" report = Some (VStr x))
  /\ (exists x, nibbles_4bit bs = Ok (Some (VStr x))
                /\ dict_get "nibbles_4bit" report = Some (VStr x))
  /\ (exists x, bytes_decimal bs = Ok (Some (VStr x))
                /\ dict_get "bytes_decimal" report = Some (VStr x))
  /\ (exists x, hex_bytes bs = Ok (Some (VStr x))
                /\ dict_get "hex_bytes" report = Some (VStr x))
  /\ (exists x, baudot_5bit bs = Ok (Some (VStr x))
                /\ dict_get "baudot_5bit" report = Some (VStr x))
  /\ (exists x, bcd_decimal bs = Ok (Some (VStr x))
                /\ dict_get "bcd_decimal" report = Some (VStr x))
  /\ (exists x, sync_patterns_codec bs = Ok (Some (VStr x))
                /\ dict_get "sync_patterns" report = Some (VStr x))
  /\ (exists x, statistics entropy_text bs = Ok (Some (VStr x))
                /\ dict_get "statistics" report = Some (VStr x)).
Proof.
  intros HB HL bs report.
  pose proof (bit_string_binary bits HB) as B. fold bs in B.
  pose proof (bit_string_length bits HB) as L. fold bs in L.
  destruct (report_slots bits HL)
    as (S1 & S2 & S3 & S4 & S5 & S6 & S7 & S8).
  fold bs report in S1, S2, S3, S4, S5, S6, S7, S8.
  unfold slot in S1, S2, S3, S4, S5, S6, S7, S8.
  assert (A1 : exists x, ascii_8bit bs = Ok (Some (VStr x))).
  { unfold ascii_8bit.
    slicing_loop B (fun a : string => nonempty a = true).
    - destruct (_ && _)%bool; eexists; (split; [reflexivity|]);
        apply nonempty_append_l.
    - eexists. split; [reflexivity|tauto].
    - destruct (_ && _)%bool; intros K; injection K as <-; reflexivity.
    - unfold stored. rewrite Pres. eexists. reflexivity. }
  assert (A2 : exists x, nibbles_4bit bs = Ok (Some (VStr x))).
  { unfold nibbles_4bit.
    slicing_loop B (fun a : list string => a <> []).
    - eexists. split; [reflexivity|]. intros _ K.
      now apply app_eq_nil in K as [_ K].
    - eexists. split; [reflexivity|tauto].
    - intros K; injection K as <-. discriminate.
    - destruct res; [congruence|]. eexists. reflexivity. }
  assert (A3 : exists x, bytes_decimal bs = Ok (Some (VStr x))).
  { unfold bytes_decimal.
    slicing_loop B (fun a : list string => a <> []).
    - eexists. split; [reflexivity|]. intros _ K.
      now apply app_eq_nil in K as [_ K].
    - eexists. split; [reflexivity|tauto].
    - intros K; injection K as <-. discriminate.
    - destruct res; [congruence|]. eexists. reflexivity. }
  assert (A4 : exists x, hex_bytes bs = Ok (Some (VStr x))).
  { unfold hex_bytes.
    slicing_loop B (fun a : string => nonempty a = true).
    - eexists. split; [reflexivity|]. apply nonempty_append_l.
    - eexists. split; [reflexivity|tauto].
    - intros K; injection K as <-. apply nonempty_append_r.
      reflexivity.
    - unfold stored. rewrite Pres. eexists. reflexivity. }
  assert (A6 : exists x, bcd_decimal bs = Ok (Some (VStr x))).
  { unfold bcd_decimal.
    slicing_loop B (fun a : string => nonempty a = true).
    - destruct (_ && _)%bool; eexists; (split; [reflexivity|]);
        apply nonempty_append_l.
    - eexists. split; [reflexivity|tauto].
    - destruct (_ && _)%bool eqn:C; intros K; injection K as <-;
        [|reflexivity].
      apply andb_true_iff in C as [C0 C9].
      apply Z.leb_le in C0. apply Z.leb_le in C9.
      remember (bin_value 0 (substring 0 4 bs)) as v eqn:Ev. clear Ev.
      assert (V : (v = 0 \/ v = 1 \/ v = 2 \/ v = 3 \/ v = 4 \/ v = 5
                   \/ v = 6 \/ v = 7 \/ v = 8 \/ v = 9)%Z) by lia.
      destruct V as [->|[->|[->|[->|[->|[->|[->|[->|[->| ->]]]]]]]]];
        reflexivity.
    - unfold stored. rewrite Pres. eexists. reflexivity. }
  assert (A5 : exists x, baudot_5bit bs = Ok (Some (VStr x))).
  { unfold baudot_5bit.
    open_loop (fun a : string => nonempty a = true).
    - destruct (_ =? _)%nat; [destruct (assoc _ _)|]; eexists;
        (split; [reflexivity|]); try tauto; apply nonempty_append_l.
    - destruct (assoc _ _) as [l|] eqn:T; intros K; injection K as <-;
        [|reflexivity].
      cbn [append]. clear -T. cbn in T.
      repeat match type of T with
        | (if ?c then _ else _) = _ => destruct c
        end; try discriminate T; injection T as <-; reflexivity.
    - unfold stored. rewrite Pres. eexists. reflexivity. }
  assert (A7 : exists x, sync_patterns_codec bs = Ok (Some (VStr x))).
  { unfold sync_patterns_codec. eexists. reflexivity. }
  assert (A8 : exists x, statistics entropy_text bs = Ok (Some (VStr x))).
  { unfold statistics.
    destruct (Nat.ltb_spec 0 (String.length bs)) as [_|K]; [|lia].
    eexists. reflexivity. }
  destruct A1 as [x1 H1], A2 as [x2 H2], A3 as [x3 H3], A4 as [x4 H4],
    A5 as [x5 H5], A6 as [x6 H6], A7 as [x7 H7], A8 as [x8 H8].
  rewrite H1 in S1. rewrite H2 in S2. rewrite H3 in S3. rewrite H4 in S4.
  rewrite H5 in S5. rewrite H6 in S6. rewrite H7 in S7. rewrite H8 in S8.
  repeat split; eexists; split; eassumption.
Qed.

End CodecsOnBits.

Lemma codecs_succeed_on_bits_witness :
  exists x,
    Pattern.ascii_8bit
      (Pattern.bit_string_of (Pattern.bits_of_text "UVB")) = Py.Ok (Some (Pattern.VStr x))
    /\ Pattern.dict_get "ascii_8bit"
         (Pattern.decode_binary_sequence Pattern.entropy_text_examples
            (Pattern.bits_of_text "UVB")) = Some (Pattern.VStr x).
Proof.
  destruct (codecs_succeed_on_bits Pattern.entropy_text_examples
              (Pattern.bits_of_text "UVB")) as [H _].
  - vm_compute. reflexivity.
  - apply Nat.leb_le. vm_compute. reflexivity.
  - exact H.
Defined.

(** ** The session clock *)

Section ClockFacts.

Import Display.

Lemma Qfloor_div_Z (x : Q) (c : Z) :
  (0 < c)%Z -> Qfloor (x / inject_Z c) = (Qfloor x / c)%Z.
Proof.
  intros H. destruct x as [n d].
  assert (E : ((n # d) / inject_Z c == n # (d * Z.to_pos c))%Q).
  { unfold Qeq, Qdiv, Qmult, Qinv, inject_Z. cbn [Qnum Qden].
    destruct c as [|c|c]; try lia. cbn [Qnum Qden Z.to_pos].
    rewrite Pos2Z.inj_mul. ring. }
  rewrite E. cbn [Qfloor]. rewrite Pos2Z.inj_mul, Z2Pos.id by exact H.
  rewrite Z.div_div; [reflexivity|lia|lia].
Qed.

Lemma Qfloor_sub_Z (x : Q) (k : Z) :
  Qfloor (x - inject_Z k) = (Qfloor x - k)%Z.
Proof.
  destruct x as [n d].
  assert (E : ((n # d) - inject_Z k == (n + - k * Z.pos d) # d)%Q).
  { unfold Qeq, Qminus, Qplus, Qopp, inject_Z. cbn [Qnum Qden].
    rewrite ?Pos.mul_1_r. ring. }
  rewrite E. cbn [Qfloor]. rewrite Z.div_add by lia. lia.
Qed.

Lemma int_of_Z (z : Z) : int_of (inject_Z z) = z.
Proof.
  unfold int_of. destruct (Qle_bool 0 (inject_Z z)).
  - apply Qfloor_Z.
  - apply Qceiling_Z.
Qed.

(** X21: the clock of the status line splits the whole seconds elapsed into
    hours, minutes below 60 and seconds below 60. *)
Theorem session_clock_splits_seconds (elapsed : Q) :
  (0 <= elapsed)%Q ->
  (0 <= hours elapsed
   /\ 0 <= minutes elapsed < 60
   /\ 0 <= seconds elapsed < 60
   /\ hours elapsed * 3600 + minutes elapsed * 60 + seconds elapsed
      = Qfloor elapsed)%Z.
Proof.
  intros H.
  assert (F : (0 <= Qfloor elapsed)%Z).
  { change 0%Z with (Qfloor 0). now apply Qfloor_resp_le. }
  assert (Eh : hours elapsed = (Qfloor elapsed / 3600)%Z).
  { unfold hours, floordiv. rewrite int_of_Z.
    change (elapsed / 3600)%Q with (elapsed / inject_Z 3600)%Q.
    now rewrite (Qfloor_div_Z elapsed 3600). }
  assert (Em : minutes elapsed
               = (Qfloor elapsed / 60 - 60 * (Qfloor elapsed / 3600))%Z).
  { unfold minutes, floordiv, modulo. rewrite int_of_Z.
    change (elapsed / 3600)%Q with (elapsed / inject_Z 3600)%Q.
    change (?x / 60)%Q with (x / inject_Z 60)%Q.
    change (3600 * ?x)%Q with (inject_Z 3600 * x)%Q.
    rewrite (Qfloor_div_Z elapsed 3600) by lia.
    rewrite (Qfloor_div_Z _ 60) by lia.
    assert (E : (elapsed - inject_Z 3600 * inject_Z (Qfloor elapsed / 3600)
                 == elapsed - inject_Z (3600 * (Qfloor elapsed / 3600)))%Q).
    { rewrite inject_Z_mult. reflexivity. }
    rewrite E, Qfloor_sub_Z.
    replace (3600 * (Qfloor elapsed / 3600))%Z
      with (60 * (Qfloor elapsed / 3600) * 60)%Z by lia.
    unfold Z.sub. rewrite <- Z.mul_opp_l, Z.div_add by lia. lia. }
  assert (Es : seconds elapsed
               = (Qfloor elapsed - 60 * (Qfloor elapsed / 60))%Z).
  { unfold seconds, modulo.
    change (elapsed / 60)%Q with (elapsed / inject_Z 60)%Q.
    change (60 * ?x)%Q with (inject_Z 60 * x)%Q.
    rewrite (Qfloor_div_Z elapsed 60) by lia.
    assert (E : (elapsed - inject_Z 60 * inject_Z (Qfloor elapsed / 60)
                 == elapsed - inject_Z (60 * (Qfloor elapsed / 60)))%Q).
    { rewrite inject_Z_mult. reflexivity. }
    assert (P : (0 <= Qfloor elapsed - 60 * (Qfloor elapsed / 60))%Z).
    { pose proof (Z.mul_div_le (Qfloor elapsed) 60). lia. }
    unfold int_of.
    destruct (Qle_bool 0 _) eqn:C.
    - now rewrite E, Qfloor_sub_Z.
    - exfalso. apply Qle_bool_false in C. rewrite E in C.
      apply C.
      apply Qle_trans
        with (inject_Z (Qfloor elapsed - 60 * (Qfloor elapsed / 60))).
      + change 0%Q with (inject_Z 0). rewrite <- Zle_Qle. exact P.
      + rewrite <- Qfloor_sub_Z. apply Qfloor_le. }
  rewrite Eh, Em, Es.
  pose proof (Z.div_pos (Qfloor elapsed) 3600 F).
  pose proof (Z.mul_div_le (Qfloor elapsed) 60).
  pose proof (Z.mul_succ_div_gt (Qfloor elapsed) 60).
  pose proof (Z.mul_div_le (Qfloor elapsed / 60) 60).
  pose proof (Z.mul_succ_div_gt (Qfloor elapsed / 60) 60).
  assert (D : (Qfloor elapsed / 3600 = Qfloor elapsed / 60 / 60)%Z).
  { rewrite Z.div_div by lia. reflexivity. }
  lia.
Qed.

End ClockFacts.

(** One hour, one minute and one second and a half. *)
Lemma session_clock_splits_seconds_witness :
  Display.session_time_text (7323 # 2) = "01:01:01"
  /\ (Display.hours (7323 # 2) * 3600 + Display.minutes (7323 # 2) * 60
      + Display.seconds (7323 # 2) = 3661)%Z.
Proof.
  split; [vm_compute; reflexivity|].
  destruct (session_clock_splits_seconds (7323 # 2)) as (_ & _ & _ & E).
  - vm_compute. discriminate.
  - exact E.
Defined.

(** ** The ASCII reading and its inverse *)

Section AsciiRoundTrip.

Import Pattern Text.

Variable entropy_text : nat -> nat -> nat -> string.

Lemma append_empty_r (s : string) : s ++ "" = s.
Proof. induction s as [|c s IH]; cbn; [reflexivity|now rewrite IH]. Qed.

Lemma append_assoc (s t u : string) : (s ++ t) ++ u = s ++ t ++ u.
Proof. induction s as [|c s IH]; cbn; [reflexivity|now rewrite IH]. Qed.

Lemma concat_empty_app (l1 l2 : list string) :
  String.concat "" (l1 ++ l2)
  = String.concat "" l1 ++ String.concat "" l2.
Proof.
  induction l1 as [|x l1 IH]; [reflexivity|].
  destruct l1 as [|y l1].
  - cbn [app String.concat]. destruct l2 as [|z l2].
    + now rewrite append_empty_r.
    + reflexivity.
  - change ((x :: y :: l1) ++ l2)%list with (x :: y :: (l1 ++ l2))%list.
    change (String.concat "" (x :: y :: (l1 ++ l2))%list)
      with (x ++ String.concat "" ((y :: l1) ++ l2)%list).
    rewrite IH.
    change (String.concat "" (x :: y :: l1))
      with (x ++ String.concat "" (y :: l1)).
    now rewrite append_assoc.
Qed.

Lemma bits_of_char (c : ascii) :
  let e := bit_string_of (bits_of_text (String c "")) in
  String.length e = 8%nat
  /\ int_base2 e = Ok (Z.of_N (N_of_ascii c))
  /\ chr (Z.of_N (N_of_ascii c)) = String c "".
Proof.
  destruct c as [[] [] [] [] [] [] [] []]; vm_compute; repeat split.
Qed.

Lemma bits_of_text_app (s t : string) :
  bit_string_of (bits_of_text (s ++ t))
  = bit_string_of (bits_of_text s) ++ bit_string_of (bits_of_text t).
Proof.
  unfold bit_string_of.
  assert (E : forall u v, bits_of_text (u ++ v)
                          = (bits_of_text u ++ bits_of_text v)%list).
  { induction u as [|c u IH]; intros v; [reflexivity|].
    cbn [append bits_of_text]. now rewrite IH, app_assoc. }
  now rewrite E, map_app, concat_empty_app.
Qed.

Lemma bits_of_text_length (s : string) :
  String.length (bit_string_of (bits_of_text s)) = (String.length s * 8)%nat.
Proof.
  induction s as [|c s IH]; [reflexivity|].
  change (String c s) with (String c "" ++ s).
  rewrite bits_of_text_app, string_length_append, IH.
  destruct (bits_of_char c) as [L _]. cbv zeta in L. rewrite L.
  cbn [String.length append]. lia.
Qed.

Lemma substring_middle (x e y : string) :
  substring (String.length x) (String.length e) (x ++ e ++ y) = e.
Proof.
  induction x as [|c x IH]; [|exact IH].
  cbn [String.length append]. induction e as [|c e IH].
  - now destruct y.
  - cbn. now rewrite IH.
Qed.

Lemma ascii_loop (bit_string rest : string) :
  forall done acc : string,
    bit_string = bit_string_of (bits_of_text (done ++ rest)) ->
    all_chars printable rest = true ->
    for_each (map (fun k => k * 8)%nat
                (seq (String.length done) (String.length rest)))
      (fun i ascii_result =>
         let byte := substring i 8 bit_string in
         if (String.length byte =? 8)%nat then
           decimal_value <- int_base2 byte ;;
           if ((32 <=? decimal_value) && (decimal_value <=? 126))%Z%bool
           then Ok (ascii_result ++ chr decimal_value)
           else Ok (ascii_result ++ "[" ++ str decimal_value ++ "]")
         else Ok ascii_result)
      acc
    = Ok (acc ++ rest).
Proof.
  induction rest as [|c rest IH]; intros done acc B P.
  - cbn. now rewrite append_empty_r.
  - cbn [all_chars] in P. apply andb_true_iff in P as [Pc P].
    cbn [String.length seq map for_each]. cbv zeta.
    destruct (bits_of_char c) as (L & V & C). cbv zeta in L, V.
    assert (Sb : substring (String.length done * 8) 8 bit_string
                = bit_string_of (bits_of_text (String c ""))).
    { rewrite B.
      change (String c rest) with (String c "" ++ rest).
      rewrite !bits_of_text_app, <- bits_of_text_length, <- L at 1.
      apply substring_middle. }
    rewrite Sb, L, Nat.eqb_refl, V. cbn [bind].
    unfold printable in Pc. cbv zeta in Pc. rewrite Pc, C.
    replace (S (String.length done))
      with (String.length (done ++ String c ""))
      by (rewrite string_length_append; cbn [String.length]; lia).
    assert (K := IH (done ++ String c "") (acc ++ String c "")).
    cbv zeta in K. rewrite K.
    + now rewrite append_assoc.
    + now rewrite B, append_assoc.
    + exact P.
Qed.

(** X22: the 8-bit reading gives back a printable text from its bits, most
    significant bit first: it shows the first 50 characters of the text,
    and so does the report. *)
Theorem ascii_reading_roundtrip (text : string) :
  nonempty text = true -> all_chars printable text = true ->
  let bits := bits_of_text text in
  ascii_8bit (bit_string_of bits) = Ok (Some (VStr (prefix 50 text)))
  /\ dict_get "ascii_8bit" (decode_binary_sequence entropy_text bits)
     = Some (VStr (prefix 50 text)).
Proof.
  intros N P bits.
  assert (A : ascii_8bit (bit_string_of bits)
              = Ok (Some (VStr (prefix 50 text)))).
  { unfold ascii_8bit.
    assert (R : range_step (len_minus (bit_string_of bits) 7) 8
                = map (fun k => k * 8)%nat (seq 0 (String.length text))).
    { unfold range_step, len_minus, bits.
      rewrite bits_of_text_length.
      replace ((Z.of_nat (String.length text * 8) - 7 + Z.of_nat 8 - 1)
               / Z.of_nat 8)%Z with (Z.of_nat (String.length text)).
      - now rewrite Nat2Z.id.
      - replace (Z.of_nat (String.length text * 8) - 7 + Z.of_nat 8 - 1)%Z
          with (Z.of_nat (String.length text) * Z.of_nat 8)%Z by lia.
        now rewrite Z.div_mul by lia. }
    rewrite R.
    assert (K := ascii_loop (bit_string_of bits) text "" "" eq_refl P).
    cbn [String.length] in K. rewrite K.
    cbn [bind append]. unfold stored. now rewrite N. }
  split; [exact A|].
  destruct (report_slots entropy_text bits) as [S _].
  - unfold bits. rewrite <- bit_string_length, bits_of_text_length.
    + destruct text; [discriminate N|cbn [String.length]; lia].
    + clear. induction text as [|c text IH]; [reflexivity|].
      cbn [bits_of_text]. rewrite forallb_app, IH, andb_true_r.
      cbn. repeat (destruct (N.testbit _ _); cbn); reflexivity.
  - cbv zeta in S. rewrite S. unfold slot. now rewrite A.
Qed.

End AsciiRoundTrip.

Lemma ascii_reading_roundtrip_witness :
  Pattern.ascii_8bit (Pattern.bit_string_of (Pattern.bits_of_text "UVB-76"))
  = Py.Ok (Some (Pattern.VStr "UVB-76")).
Proof.
  destruct (ascii_reading_roundtrip Pattern.entropy_text_examples "UVB-76")
    as [H _].
  - reflexivity.
  - vm_compute. reflexivity.
  - exact H.
Defined.

(** ** Session statistics *)

Section StatisticsFacts.

Import Steps Stats.

Lemma fold_add_shift (l : list Z) (a : Z) :
  fold_left Z.add l a = (a + fold_left Z.add l 0)%Z.
Proof.
  revert a. induction l as [|x l IH]; intros a; cbn [fold_left]; [lia|].
  rewrite (IH (a + x)%Z), (IH (0 + x)%Z). lia.
Qed.

Lemma sum_of_bits (l : list Z) :
  Forall (fun b => Pattern.is_bit b = true) l ->
  sum l = Z.of_nat (count_occ Z.eq_dec l 1%Z)
  /\ (Z.of_nat (List.length l) - sum l)%Z
     = Z.of_nat (count_occ Z.eq_dec l 0%Z).
Proof.
  unfold sum. induction 1 as [|b l Hb _ [I1 I0]]; [now split|].
  cbn [fold_left List.length]. rewrite fold_add_shift.
  unfold Pattern.is_bit in Hb. apply orb_true_iff in Hb as [E|E];
    apply Z.eqb_eq in E; subst b; cbn [count_occ];
    repeat match goal with
      | |- context [Z.eq_dec ?a ?b] => destruct (Z.eq_dec a b); try lia
      end.
Qed.

(** X23: when the bit buffer holds bits, as a session keeps it, the
    statistics count its ones and its zeros, the two counts add up to the
    number of entries, and the share of the ones lies between 0 and 1. *)
Theorem statistics_count_the_bits (st : state) :
  bits_only st ->
  ones_count st = Z.of_nat (count_occ Z.eq_dec (binary_buffer st) 1%Z)
  /\ zeros_count st = Z.of_nat (count_occ Z.eq_dec (binary_buffer st) 0%Z)
  /\ (ones_count st + zeros_count st)%Z = binary_count st
  /\ (0 <= ones_ratio st)%Q /\ (ones_ratio st <= 1)%Q.
Proof.
  unfold bits_only, zeros_count, ones_ratio, ones_count, binary_count.
  intros H. destruct (sum_of_bits _ H) as [S1 S0].
  destruct (Z.ltb_spec 0 (Z.of_nat (List.length (binary_buffer st))))
    as [L|L].
  - split; [exact S1|]. split; [exact S0|]. split; [lia|].
    assert (B : (0 <= sum (binary_buffer st)
                 <= Z.of_nat (List.length (binary_buffer st)))%Z) by lia.
    split.
    + apply Qle_shift_div_l.
      * now rewrite <- (Zlt_Qlt 0).
      * rewrite Qmult_0_l. rewrite <- (Zle_Qle 0). lia.
    + apply Qle_shift_div_r.
      * now rewrite <- (Zlt_Qlt 0).
      * rewrite Qmult_1_l. rewrite <- Zle_Qle. lia.
  - destruct (binary_buffer st) as [|b l]; [|cbn [List.length] in L; lia].
    cbn. repeat split; discriminate.
Qed.

End StatisticsFacts.

(** A buffer of three bits. *)
Lemma statistics_count_the_bits_witness :
  (Stats.ones_count (set_binary_buffer [1; 0; 1]%Z initial_state) = 2)%Z
  /\ (Stats.zeros_count (set_binary_buffer [1; 0; 1]%Z initial_state) = 1)%Z.
Proof.
  destruct (statistics_count_the_bits
              (set_binary_buffer [1; 0; 1]%Z initial_state))
    as (H1 & H0 & _).
  - repeat constructor.
  - split; [exact H1|exact H0].
Defined.

(** ** The exported text file *)

Section ExportFacts.

Import Pattern BinaryExport.

Lemma concat_empty_cons (x : string) (l : list string) :
  String.concat "" (x :: l) = x ++ String.concat "" l.
Proof. exact (concat_empty_app [x] l). Qed.

Lemma chars_concat (l : list string) :
  list_ascii_of_string (String.concat "" l)
  = List.concat (map list_ascii_of_string l).
Proof.
  induction l as [|x l IH]; [reflexivity|].
  rewrite concat_empty_cons, chars_append, IH. reflexivity.
Qed.

Lemma firstn_plus {B : Type} (a b : nat) (l : list B) :
  firstn (a + b) l = (firstn a l ++ firstn b (skipn a l))%list.
Proof.
  revert l. induction a as [|a IH]; intros l; [reflexivity|].
  destruct l as [|x l]; cbn; [now rewrite firstn_nil|].
  now rewrite IH.
Qed.

Lemma firstn_chunks {B : Type} (w m : nat) (l : list B) :
  List.concat (map (fun k => firstn w (skipn (k * w) l)) (seq 0 m))
  = firstn (m * w) l.
Proof.
  induction m as [|m IH]; [reflexivity|].
  rewrite seq_S, map_app, concat_app, IH. cbn [map List.concat plus].
  rewrite app_nil_r. change (S m * w)%nat with (w + m * w)%nat.
  now rewrite (Nat.add_comm w), firstn_plus.
Qed.

Lemma slices_unfold (w : nat) (s : string) :
  slices w s
  = map (fun k => substring (k * w) w s)
      (seq 0 (Z.to_nat ((Z.of_nat (String.length s) + Z.of_nat w - 1)
                        / Z.of_nat w))).
Proof. unfold slices, range_step. now rewrite map_map. Qed.

Lemma slices_concat (w : nat) (s : string) :
  (0 < w)%nat -> String.concat "" (slices w s) = s.
Proof.
  intros W. apply chars_inj.
  rewrite chars_concat, slices_unfold, map_map.
  rewrite (map_ext _ (fun k => firstn w (skipn (k * w)
                                           (list_ascii_of_string s))))
    by (intros k; apply chars_substring).
  rewrite firstn_chunks. apply firstn_all2. rewrite chars_length.
  set (n := String.length s).
  assert (C : (Z.of_nat n
               <= (Z.of_nat n + Z.of_nat w - 1) / Z.of_nat w * Z.of_nat w)%Z).
  { pose proof (Z.mul_succ_div_gt (Z.of_nat n + Z.of_nat w - 1)
                  (Z.of_nat w)). lia. }
  assert (P : (0 <= (Z.of_nat n + Z.of_nat w - 1) / Z.of_nat w)%Z)
    by (apply Z.div_pos; lia).
  apply Nat2Z.inj_le. rewrite Nat2Z.inj_mul, Z2Nat.id by exact P. exact C.
Qed.

Lemma without_spaces_app (a b : string) :
  without_spaces (a ++ b) = without_spaces a ++ without_spaces b.
Proof.
  induction a as [|c a IH]; [reflexivity|].
  cbn. destruct (Ascii.eqb c " "); cbn; now rewrite IH.
Qed.

Lemma without_spaces_digits (s : string) :
  all_chars is_bin_digit s = true -> without_spaces s = s.
Proof.
  induction s as [|c s IH]; intros H; [reflexivity|].
  cbn in H. apply andb_true_iff in H as [Hc Hs]. cbn.
  rewrite (IH Hs).
  destruct (Ascii.eqb_spec c " ") as [->|_]; [discriminate Hc|reflexivity].
Qed.

Lemma without_spaces_join (l : list string) :
  Forall (fun x => all_chars is_bin_digit x = true) l ->
  without_spaces (join " " l) = String.concat "" l.
Proof.
  intros H. destruct H as [|x l Hx Hl]; [reflexivity|].
  unfold join. rewrite concat_empty_cons.
  rewrite <- (without_spaces_digits x Hx) at 2.
  generalize x. clear x Hx.
  induction Hl as [|y l Hy _ IH]; intros x.
  - cbn. now rewrite append_empty_r.
  - cbn [fold_left]. rewrite IH, !without_spaces_app, concat_empty_cons.
    rewrite (without_spaces_digits y Hy). cbn. now rewrite append_assoc.
Qed.

Lemma formatted_line_digits (line : string) :
  all_chars is_bin_digit line = true ->
  without_spaces (formatted_line line) = line.
Proof.
  intros H. unfold formatted_line. rewrite without_spaces_join.
  - apply slices_concat. lia.
  - unfold slices. apply Forall_forall. intros x Hx.
    apply in_map_iff in Hx as (j & <- & _). now apply all_chars_substring.
Qed.

(** X24: the lines of the exported text file hold the bit sequence: line
    [k] carries the label [8 k], the number of groups of eight before it,
    and the digits of the lines, read in order without the blanks, are the
    sequence. *)
Theorem export_lines_keep_the_bits (bits : list Z) :
  forallb is_bit bits = true ->
  let s := bit_string_of bits in
  let n := Z.to_nat ((Z.of_nat (List.length bits) + 63) / 64) in
  binary_lines s
  = map (fun k =>
           zero_padded 4 (Z.of_nat (k * 8)) ++ ": "
           ++ formatted_line (substring (k * 64) 64 s) ++ String "010" "")
      (seq 0 n)
  /\ String.concat ""
       (map (fun k =>
               without_spaces (formatted_line (substring (k * 64) 64 s)))
          (seq 0 n))
     = s.
Proof.
  intros H s n.
  pose proof (bit_string_binary bits H) as B. fold s in B.
  pose proof (bit_string_length bits H) as L. fold s in L.
  split.
  - unfold binary_lines, range_step. rewrite map_map, L.
    replace (Z.of_nat (List.length bits) + Z.of_nat 64 - 1)%Z
      with (Z.of_nat (List.length bits) + 63)%Z by lia.
    fold n. apply map_ext. intros k. cbv zeta.
    replace (Z.of_nat (k * 64) / 8)%Z with (Z.of_nat (k * 8)); [reflexivity|].
    rewrite !Nat2Z.inj_mul.
    replace (Z.of_nat k * Z.of_nat 64)%Z with (Z.of_nat k * 8 * 8)%Z by lia.
    rewrite Z.div_mul by lia. lia.
  - rewrite (map_ext _ (fun k => substring (k * 64) 64 s)).
    + transitivity (String.concat "" (slices 64 s));
        [|apply slices_concat; lia].
      rewrite slices_unfold, L.
      replace (Z.of_nat (List.length bits) + Z.of_nat 64 - 1)%Z
        with (Z.of_nat (List.length bits) + 63)%Z by lia.
      reflexivity.
    + intros k. apply formatted_line_digits. now apply all_chars_substring.
Qed.

End ExportFacts.

(** Eleven bytes: a full line and a line of three groups. *)
Lemma export_lines_keep_the_bits_witness :
  BinaryExport.binary_lines
    (Pattern.bit_string_of (Pattern.bits_of_text "UVB-76 4625"))
  = [ "0000: 01010101 01010110 01000010 00101101 00110111 00110110 00100000 00110100"
      ++ String "010" "";
      "0008: 00110110 00110010 00110101" ++ String "010" "" ].
Proof.
  destruct (export_lines_keep_the_bits (Pattern.bits_of_text "UVB-76 4625"))
    as [H _].
  - vm_compute. reflexivity.
  - rewrite H. vm_compute. reflexivity.
Defined.

(** ** The renderings of the Monolit heuristic *)

Section RenderingFacts.

Import Pattern Monolit MonolitSpec.

Lemma for_each_ext {A : Type} (f g : nat -> A -> exc A) (idxs : list nat)
    (acc : A) :
  (forall i a, f i a = g i a) -> for_each idxs f acc = for_each idxs g acc.
Proof.
  intros H. revert acc. induction idxs as [|i idxs IH]; intros acc;
    [reflexivity|].
  cbn [for_each]. rewrite H. destruct (g i acc); [apply IH|reflexivity].
Qed.

(** Lists are taken eight entries at a time. *)
Lemma by_bytes (P : list Z -> Prop) :
  (forall l, (List.length l < 8)%nat -> P l) ->
  (forall b7 b6 b5 b4 b3 b2 b1 b0 rest,
     P rest -> P (b7 :: b6 :: b5 :: b4 :: b3 :: b2 :: b1 :: b0 :: rest)) ->
  forall l, P l.
Proof.
  intros Short Step l.
  assert (G : forall n l, (List.length l <= n)%nat -> P l).
  { clear l. induction n as [|n IH]; intros l H.
    - apply Short. lia.
    - destruct l as [|b7 [|b6 [|b5 [|b4 [|b3 [|b2 [|b1 [|b0 rest]]]]]]]];
        try (apply Short; cbn; lia).
      apply Step. apply IH. cbn in H. lia. }
  exact (G (List.length l) l (le_n _)).
Qed.

Lemma render_short (shown : Z -> string) (l : list Z) :
  (List.length l < 8)%nat -> render shown l = "".
Proof.
  intros H.
  destruct l as [|b7 [|b6 [|b5 [|b4 [|b3 [|b2 [|b1 [|b0 rest]]]]]]]];
    try reflexivity.
  cbn in H. lia.
Qed.

Lemma bit_string_app (l1 l2 : list Z) :
  bit_string_of (l1 ++ l2) = bit_string_of l1 ++ bit_string_of l2.
Proof. unfold bit_string_of. now rewrite map_app, concat_empty_app. Qed.

Lemma bit_cases (b : Z) : is_bit b = true -> b = 0%Z \/ b = 1%Z.
Proof.
  unfold is_bit. intros H. apply orb_true_iff in H as [H|H];
    apply Z.eqb_eq in H; auto.
Qed.

(** Eight bits are written as eight binary digits, and [int(byte, 2)]
    reads their value. *)
Lemma byte_parses (b7 b6 b5 b4 b3 b2 b1 b0 : Z) :
  forallb is_bit [b7; b6; b5; b4; b3; b2; b1; b0] = true ->
  let byte := bit_string_of [b7; b6; b5; b4; b3; b2; b1; b0] in
  String.length byte = 8%nat
  /\ int_base2 byte = Ok (byte_value [b7; b6; b5; b4; b3; b2; b1; b0])
  /\ digits_only
       (if ((32 <=? byte_value [b7; b6; b5; b4; b3; b2; b1; b0])
            && (byte_value [b7; b6; b5; b4; b3; b2; b1; b0] <=? 126))%Z%bool
        then chr (byte_value [b7; b6; b5; b4; b3; b2; b1; b0]) else ".")
     = (if ((48 <=? byte_value [b7; b6; b5; b4; b3; b2; b1; b0])
            && (byte_value [b7; b6; b5; b4; b3; b2; b1; b0] <=? 57))%Z%bool
        then chr (byte_value [b7; b6; b5; b4; b3; b2; b1; b0]) else " ").
Proof.
  intros H. cbn [forallb] in H.
  repeat match type of H with
    | (_ && _)%bool = true => apply andb_true_iff in H as [?B H]
    end.
  repeat match goal with
    | K : is_bit ?b = true |- _ =>
        apply bit_cases in K; destruct K as [->| ->]
    end;
    cbv zeta; repeat split; reflexivity.
Qed.

(** The loop of a rendering, for the text [shown v] of a byte [v]. *)
Lemma render_loop (shown : Z -> string) (bit_string : string)
    (rest : list Z) :
  forall (done : list Z) (acc : string) (k : nat),
    forallb is_bit rest = true ->
    bit_string = bit_string_of done ++ bit_string_of rest ->
    String.length (bit_string_of done) = (k * 8)%nat ->
    for_each (map (fun j => j * 8)%nat (seq k (List.length rest / 8)))
      (fun i acc =>
         let byte := substring i 8 bit_string in
         if (String.length byte =? 8)%nat then
           val <- int_base2 byte ;; Ok (acc ++ shown val)
         else Ok acc)
      acc
    = Ok (acc ++ render shown rest).
Proof.
  induction rest as [l Short|b7 b6 b5 b4 b3 b2 b1 b0 rest IH] using by_bytes;
    intros done acc k B E L.
  - rewrite (Nat.div_small _ _ Short), (render_short shown l Short).
    cbn. now rewrite append_empty_r.
  - change (b7 :: b6 :: b5 :: b4 :: b3 :: b2 :: b1 :: b0 :: rest)
      with ([b7; b6; b5; b4; b3; b2; b1; b0] ++ rest)%list in B, E.
    rewrite forallb_app in B. apply andb_true_iff in B as [B8 B].
    destruct (byte_parses b7 b6 b5 b4 b3 b2 b1 b0 B8) as (L8 & V & _).
    cbv zeta in L8, V.
    rewrite bit_string_app in E.
    assert (Sb : substring (k * 8) 8 bit_string
                 = bit_string_of [b7; b6; b5; b4; b3; b2; b1; b0]).
    { rewrite E, <- L, <- L8 at 1. apply substring_middle. }
    replace (List.length
               (b7 :: b6 :: b5 :: b4 :: b3 :: b2 :: b1 :: b0 :: rest))
      with (1 * 8 + List.length rest)%nat by (cbn; lia).
    rewrite Nat.div_add_l by lia.
    cbn [Nat.add seq map for_each]. cbv zeta.
    rewrite Sb, L8, Nat.eqb_refl, V. cbn [bind].
    assert (K := IH (done ++ [b7; b6; b5; b4; b3; b2; b1; b0])%list
                   (acc ++ shown (byte_value [b7; b6; b5; b4; b3; b2; b1; b0]))
                   (S k) B).
    cbv zeta in K. rewrite K.
    + cbn [render]. now rewrite append_assoc.
    + now rewrite E, bit_string_app, append_assoc.
    + rewrite bit_string_app, string_length_append, L, L8. lia.
Qed.

Lemma rendering_range (bits : list Z) :
  forallb is_bit bits = true ->
  range_step (len_minus (bit_string_of bits) 7) 8
  = map (fun j => j * 8)%nat (seq 0 (List.length bits / 8)).
Proof.
  intros B. unfold range_step, len_minus.
  rewrite (bit_string_length bits B).
  replace (Z.to_nat ((Z.of_nat (List.length bits) - 7 + Z.of_nat 8 - 1)
                     / Z.of_nat 8))
    with (List.length bits / 8)%nat; [reflexivity|].
  replace (Z.of_nat (List.length bits) - 7 + Z.of_nat 8 - 1)%Z
    with (Z.of_nat (List.length bits)) by lia.
  now rewrite <- Nat2Z.inj_div, Nat2Z.id.
Qed.

(** The ASCII rendering of the code is the one of the specification. *)
Lemma ascii_chars_rendering (bits : list Z) :
  forallb is_bit bits = true ->
  ascii_chars_of (bit_string_of bits) = Ok (ascii_rendering bits).
Proof.
  intros B. unfold ascii_chars_of, ascii_rendering.
  rewrite (rendering_range bits B).
  assert (K := render_loop
                 (fun v => if ((32 <=? v) && (v <=? 126))%Z%bool
                           then chr v else ".")
                 (bit_string_of bits) bits [] "" 0 B eq_refl eq_refl).
  cbn [append] in K. rewrite <- K.
  apply for_each_ext. intros i a. cbv zeta.
  destruct (String.length (substring i 8 (bit_string_of bits)) =? 8)%nat;
    [|reflexivity].
  destruct (int_base2 (substring i 8 (bit_string_of bits))) as [v|e];
    [|reflexivity].
  cbn [bind]. now destruct ((32 <=? v) && (v <=? 126))%Z%bool.
Qed.

Lemma smap_append (g : ascii -> ascii) (s t : string) :
  smap g (s ++ t) = smap g s ++ smap g t.
Proof. induction s as [|c s IH]; cbn; [reflexivity|now rewrite IH]. Qed.

(** The digit rendering of the code is the ASCII rendering with a blank
    for every character that is not a digit. *)
Lemma decimal_sequence_rendering (bits : list Z) :
  forallb is_bit bits = true ->
  decimal_sequence_of (bit_string_of bits)
  = Ok (digits_only (ascii_rendering bits)).
Proof.
  intros B. unfold decimal_sequence_of.
  rewrite (rendering_range bits B).
  assert (R : render (fun v => if ((48 <=? v) && (v <=? 57))%Z%bool
                               then chr v else " ") bits
              = digits_only (ascii_rendering bits)).
  { clear -B. unfold ascii_rendering. revert B.
    induction bits as [l Short|b7 b6 b5 b4 b3 b2 b1 b0 rest IH]
      using by_bytes; intros B.
    - now rewrite !(render_short _ l Short).
    - change (b7 :: b6 :: b5 :: b4 :: b3 :: b2 :: b1 :: b0 :: rest)
        with ([b7; b6; b5; b4; b3; b2; b1; b0] ++ rest)%list in B.
      rewrite forallb_app in B. apply andb_true_iff in B as [B8 B].
      destruct (byte_parses b7 b6 b5 b4 b3 b2 b1 b0 B8) as (_ & _ & D).
      cbn [render]. unfold digits_only in *.
      rewrite smap_append, <- (IH B), D. reflexivity. }
  rewrite <- R.
  assert (K := render_loop
                 (fun v => if ((48 <=? v) && (v <=? 57))%Z%bool
                           then chr v else " ")
                 (bit_string_of bits) bits [] "" 0 B eq_refl eq_refl).
  cbn [append] in K. rewrite <- K.
  apply for_each_ext. intros i a. cbv zeta.
  destruct (String.length (substring i 8 (bit_string_of bits)) =? 8)%nat;
    [|reflexivity].
  destruct (int_base2 (substring i 8 (bit_string_of bits))) as [v|e];
    [|reflexivity].
  cbn [bind]. now destruct ((48 <=? v) && (v <=? 57))%Z%bool.
Qed.

End RenderingFacts.

(** ** The features that the Monolit heuristic finds *)

Section FeatureFacts.

Import Pattern Monolit MonolitSpec.

Lemma some_app {A : Type} (l1 l2 : list A) :
  some (l1 ++ l2) = (some l1 || some l2)%bool.
Proof. now destruct l1, l2. Qed.

Lemma some_flat_map {A B : Type} (f : A -> list B) (l : list A) :
  some (flat_map f l) = existsb (fun x => some (f x)) l.
Proof.
  induction l as [|x l IH]; [reflexivity|].
  cbn [flat_map existsb]. now rewrite some_app, IH.
Qed.

Lemma existsb_same {A : Type} (f g : A -> bool) (l : list A) :
  (forall x, f x = g x) -> existsb f l = existsb g l.
Proof.
  intros H. induction l as [|x l IH]; cbn; [reflexivity|].
  now rewrite H, IH.
Qed.

Lemma get_length (s : string) (i : nat) :
  (i < String.length s)%nat -> exists c, String.get i s = Some c.
Proof.
  revert i. induction s as [|c s IH]; intros i H; [cbn in H; lia|].
  destruct i as [|i]; [now exists c|]. cbn in *. apply IH. lia.
Qed.

Lemma get_all_chars (p : ascii -> bool) (s : string) (i : nat) (c : ascii) :
  all_chars p s = true -> String.get i s = Some c -> p c = true.
Proof.
  revert i. induction s as [|a s IH]; intros i H G; [discriminate G|].
  cbn in H. apply andb_true_iff in H as [Ha Hs].
  destruct i as [|i]; cbn in G; [now injection G as <-|].
  now apply (IH i).
Qed.

(** ** Call signs *)

(** What the loops of the first method find, on a rendering. *)
Lemma callsign_patterns_found (r : string) :
  some (callsign_patterns_of r)
  = existsb
      (fun n =>
         existsb
           (fun i =>
              (String.eqb (substring i n r) (substring (i + n) n r)
               && isalnum (substring i n r))%bool)
           (range (len_minus r (Z.of_nat (n * 2)))))
      [3; 4; 5]%nat.
Proof.
  unfold callsign_patterns_of. rewrite some_flat_map.
  apply existsb_same. intros n. rewrite some_flat_map.
  apply existsb_same. intros i. cbv zeta.
  now destruct (_ && _)%bool.
Qed.

Lemma repetition_inside_is_found (r : string) :
  has_repetition_inside r = true -> some (callsign_patterns_of r) = true.
Proof.
  rewrite callsign_patterns_found. unfold has_repetition_inside.
  intros H. apply existsb_exists in H as (n & Hn & H).
  apply existsb_exists in H as (i & _ & H).
  apply andb_true_iff in H as [R I]. apply Nat.ltb_lt in I.
  unfold repeated_at in R. cbv zeta in R.
  apply andb_true_iff in R as [R A]. apply andb_true_iff in R as [_ E].
  apply existsb_exists. exists n. split; [exact Hn|].
  apply existsb_exists. exists i. split.
  - unfold range, len_minus. apply in_seq. lia.
  - rewrite E. cbn [andb]. unfold isalnum. rewrite A, andb_true_r.
    assert (L : String.length (substring i n r) = n)
      by (rewrite substring_length; lia).
    destruct Hn as [<-|[<-|[<-|[]]]];
      destruct (substring i _ r); cbn in L; try lia; reflexivity.
Qed.

Lemma found_is_repetition (r : string) :
  some (callsign_patterns_of r) = true -> has_repetition r = true.
Proof.
  rewrite callsign_patterns_found. unfold has_repetition.
  intros H. apply existsb_exists in H as (n & Hn & H).
  apply existsb_exists in H as (i & Hi & H).
  unfold range, len_minus in Hi. apply in_seq in Hi.
  apply andb_true_iff in H as [E A].
  unfold isalnum in A. apply andb_true_iff in A as [_ A].
  apply existsb_exists. exists n. split; [exact Hn|].
  apply existsb_exists. exists i. split; [apply in_seq; lia|].
  unfold repeated_at. cbv zeta. rewrite E, A, !andb_true_r.
  apply Nat.eqb_eq. rewrite substring_length. lia.
Qed.

(** ** Groups between word boundaries *)

Section Groups.

Variable cls : ascii -> bool.
Hypothesis cls_word : forall c, cls c = true -> is_word c = true.

Lemma longest_match_complete (lo m n : nat) (s : string) :
  (n < m)%nat -> matches_len cls (lo + n) s = true ->
  longest_match cls lo m s <> None.
Proof.
  induction m as [|m IH]; intros L M; [lia|].
  cbn [longest_match].
  destruct (matches_len cls (lo + m) s) eqn:K; [discriminate|].
  apply IH; [|exact M].
  assert (n <> m) by (intros ->; congruence). lia.
Qed.

Lemma longest_match_sound (lo m : nat) (s r : string) :
  longest_match cls lo m s = Some r ->
  exists n, (n < m)%nat /\ matches_len cls (lo + n) s = true.
Proof.
  induction m as [|m IH]; intros H; [discriminate H|].
  cbn [longest_match] in H.
  destruct (matches_len cls (lo + m) s) eqn:K.
  - exists m. split; [lia|exact K].
  - destruct (IH H) as (n & L & M). exists n. split; [lia|exact M].
Qed.

(** A match at the head of the string is a group at position 0. *)
Lemma match_at_head (prev : option ascii) (n : nat) (c : ascii)
    (s : string) :
  (1 <= n)%nat ->
  (boundary prev (Some c) && matches_len cls n (String c s))%bool
  = ((String.length (substring 0 n (String c s)) =? n)%nat
     && all_chars cls (substring 0 n (String c s))
     && outside is_word prev
     && outside is_word (String.get n (String c s)))%bool.
Proof.
  intros N. unfold matches_len. cbv zeta.
  set (m := substring 0 n (String c s)).
  destruct (Nat.eqb_spec (String.length m) n) as [L|L];
    [|now rewrite andb_false_r].
  destruct (all_chars cls m) eqn:A; [|now rewrite andb_false_r].
  cbn [andb].
  assert (C : is_word c = true).
  { apply cls_word. apply (get_all_chars cls m 0 c A).
    unfold m. destruct n; [lia|reflexivity]. }
  assert (W : word_at (last_char m) = true).
  { unfold last_char.
    destruct (get_length m (String.length m - 1)) as [l G]; [lia|].
    rewrite G. cbn. apply cls_word. exact (get_all_chars cls m _ l A G). }
  unfold boundary. rewrite W. cbn [word_at]. rewrite C.
  destruct prev as [p|]; cbn [word_at outside];
    destruct (String.get n (String c s)) as [x|]; cbn [word_at outside];
    try destruct (is_word p); try destruct (is_word x); reflexivity.
Qed.

(** The scan finds a match exactly when the string holds a group of [lo]
    to [hi] characters of the class between two word boundaries; [prev]
    is the character before the string. *)
Lemma findall_from_found (lo hi : nat) (s : string) (prev : option ascii) :
  (1 <= lo)%nat ->
  some (findall_from cls lo hi prev 0 s) = true
  <-> exists n i,
        In n (seq lo (hi + 1 - lo))
        /\ ((String.length (substring i n s) =? n)%nat
            && all_chars cls (substring i n s)
            && outside is_word (match i with
                                | O => prev
                                | S j => String.get j s
                                end)
            && outside is_word (String.get (i + n) s))%bool = true.
Proof.
  intros Lo. revert prev. induction s as [|c s IH]; intros prev.
  - split; [discriminate|]. intros (n & i & Hn & H).
    apply in_seq in Hn.
    apply andb_true_iff in H as [H _]. apply andb_true_iff in H as [H _].
    apply andb_true_iff in H as [H _]. apply Nat.eqb_eq in H.
    destruct i, n; cbn in H; lia.
  - cbn [findall_from]. split.
    + intros H.
      destruct (boundary prev (Some c)) eqn:Bd.
      * destruct (longest_match cls lo (hi + 1 - lo) (String c s))
          as [m|] eqn:M.
        -- apply longest_match_sound in M as (n & L & M).
           exists (lo + n)%nat, 0%nat. split; [apply in_seq; lia|].
           cbv beta iota. change (0 + (lo + n))%nat with (lo + n)%nat.
           rewrite <- (match_at_head prev (lo + n) c s) by lia.
           now rewrite Bd, M.
        -- apply IH in H as (n & i & Hn & H). exists n, (S i).
           split; [exact Hn|]. cbn [substring String.get Nat.add].
           destruct i; exact H.
      * apply IH in H as (n & i & Hn & H). exists n, (S i).
        split; [exact Hn|]. cbn [substring String.get Nat.add].
        destruct i; exact H.
    + intros (n & i & Hn & H). apply in_seq in Hn.
      destruct i as [|i].
      * cbv beta iota in H. change (0 + n)%nat with n in H.
        rewrite <- (match_at_head prev n c s) in H by lia.
        apply andb_true_iff in H as [Bd M]. rewrite Bd.
        destruct (longest_match cls lo (hi + 1 - lo) (String c s))
          as [m|] eqn:K; [reflexivity|].
        exfalso. apply (longest_match_complete lo (hi + 1 - lo) (n - lo)
                          (String c s)); [lia| |exact K].
        now replace (lo + (n - lo))%nat with n by lia.
      * assert (R : some (findall_from cls lo hi (Some c) 0 s) = true).
        { apply IH. exists n, i. split; [apply in_seq; lia|].
          cbn [substring String.get Nat.add] in H. destruct i; exact H. }
        destruct (boundary prev (Some c)); [|exact R].
        destruct (longest_match cls lo (hi + 1 - lo) (String c s));
          [reflexivity|exact R].
Qed.

(** [re.findall] reports a match exactly when the string holds a group. *)
Lemma findall_found (lo hi : nat) (s : string) :
  (1 <= lo)%nat ->
  some (findall cls lo hi s) = has_group cls is_word lo hi s.
Proof.
  intros Lo. apply eq_true_iff_eq. unfold findall.
  rewrite (findall_from_found lo hi s None Lo). unfold has_group.
  split.
  - intros (n & i & Hn & H). apply existsb_exists. exists n.
    split; [exact Hn|]. apply existsb_exists. exists i. split.
    + apply in_seq. apply in_seq in Hn.
      apply andb_true_iff in H as [H _]. apply andb_true_iff in H as [H _].
      apply andb_true_iff in H as [H _]. apply Nat.eqb_eq in H.
      rewrite substring_length in H. lia.
    + unfold group_at, before. cbv zeta. exact H.
  - intros H. apply existsb_exists in H as (n & Hn & H).
    apply existsb_exists in H as (i & _ & H).
    exists n, i. split; [exact Hn|]. exact H.
Qed.

End Groups.

(** ** Renderings that are changed character by character *)

Lemma smap_length (g : ascii -> ascii) (s : string) :
  String.length (smap g s) = String.length s.
Proof. induction s as [|c s IH]; cbn; [reflexivity|now rewrite IH]. Qed.

Lemma smap_substring (g : ascii -> ascii) (s : string) (i n : nat) :
  substring i n (smap g s) = smap g (substring i n s).
Proof.
  revert i n. induction s as [|c s IH]; intros i n.
  - destruct i, n; reflexivity.
  - destruct i as [|i]; cbn.
    + destruct n as [|n]; cbn; [reflexivity|]. now rewrite IH.
    + apply IH.
Qed.

Lemma smap_get (g : ascii -> ascii) (s : string) (i : nat) :
  String.get i (smap g s) = option_map g (String.get i s).
Proof.
  revert i. induction s as [|c s IH]; intros i; [reflexivity|].
  destruct i as [|i]; cbn; [reflexivity|apply IH].
Qed.

Lemma smap_all_chars (p q : ascii -> bool) (g : ascii -> ascii)
    (s : string) :
  (forall c, p (g c) = q c) -> all_chars p (smap g s) = all_chars q s.
Proof.
  intros H. induction s as [|c s IH]; cbn; [reflexivity|].
  now rewrite H, IH.
Qed.

(** The groups of a changed rendering are groups of the rendering. *)
Lemma smap_has_group (cls out cls' out' : ascii -> bool)
    (g : ascii -> ascii) (lo hi : nat) (s : string) :
  (forall c, cls (g c) = cls' c) -> (forall c, out (g c) = out' c) ->
  has_group cls out lo hi (smap g s) = has_group cls' out' lo hi s.
Proof.
  intros C O. unfold has_group. rewrite smap_length.
  apply existsb_same. intros n. apply existsb_same. intros i.
  unfold group_at. cbv zeta.
  rewrite smap_substring, smap_length, (smap_all_chars cls cls' g _ C).
  rewrite smap_get.
  assert (B : before i (smap g s) = option_map g (before i s)).
  { destruct i as [|i]; [reflexivity|]. cbn [before]. apply smap_get. }
  rewrite B.
  assert (X : forall x, outside out (option_map g x) = outside out' x).
  { intros [a|]; cbn; [now rewrite O|reflexivity]. }
  now rewrite !X.
Qed.

Lemma upper_smap (s : string) :
  upper s
  = smap (fun c => if is_lower c then ascii_of_nat (nat_of_ascii c - 32)
                   else c) s.
Proof. induction s as [|c s IH]; cbn; [reflexivity|now rewrite IH]. Qed.

(** The digit groups that the code reports are the groups of exactly [n]
    digits of the rendering, between characters that are not digits. *)
Lemma digit_groups_found (n : nat) (r : string) :
  (1 <= n)%nat ->
  some (findall is_digit n n (digits_only r))
  = has_group is_digit is_digit n n r.
Proof.
  intros N. rewrite findall_found.
  - unfold digits_only. apply smap_has_group; intros c.
    + destruct (is_digit c) eqn:D; [exact D|reflexivity].
    + destruct (is_digit c) eqn:D; [|reflexivity].
      unfold is_word, is_alnum. now rewrite D.
  - intros c D. unfold is_word, is_alnum. now rewrite D.
  - exact N.
Qed.

(** The code words that the code reports are the words of four to six
    letters of the rendering, in either case. *)
Lemma code_words_found (r : string) :
  some (code_word_candidates_of r) = has_word r.
Proof.
  unfold code_word_candidates_of, has_word. rewrite findall_found.
  - rewrite upper_smap. apply smap_has_group;
      intros [[] [] [] [] [] [] [] []]; reflexivity.
  - intros c U. unfold is_word, is_alnum. rewrite U.
    now rewrite orb_true_r.
  - lia.
Qed.

End FeatureFacts.

(** ** The score of the Monolit heuristic, by the features of the rendering *)

Section MonolitClaim.

Import Pattern Monolit MonolitSpec.

(** C9 fails as stated on the 64 bits of the text [hello!!!]: the ASCII
    rendering is that text, it holds no immediately repeated substring,
    no group of five or eight digits and no word of four to six upper-case
    letters, and yet the heuristic scores 20 and reports LOW, because the
    rendering is put into upper case before the words are searched. *)
Lemma monolit_lower_case_word_is_scored :
  let bits := bits_of_text "hello!!!" in
  List.length bits = 64%nat
  /\ forallb is_bit bits = true
  /\ ascii_chars_of (bit_string_of bits) = Ok "hello!!!"
  /\ ascii_rendering bits = "hello!!!"
  /\ has_repetition "hello!!!" = false
  /\ has_five_digits "hello!!!" = false
  /\ has_eight_digits "hello!!!" = false
  /\ has_upper_word "hello!!!" = false
  /\ monolit_score (callsign_patterns_of "hello!!!")
       (five_digit_groups_of (digits_only "hello!!!"))
       (eight_digit_groups_of (digits_only "hello!!!"))
       (code_word_candidates_of "hello!!!") = 20%Z
  /\ dict_get "monolit_likelihood" (detect_monolit_coding bits [])
     = Some (VStr "LOW - Few Monolit indicators")
  /\ dict_get "monolit_likelihood" (detect_monolit_coding bits [])
     <> Some (VStr "NONE - No clear Monolit patterns").
Proof.
  cbv zeta. repeat split; try (vm_compute; reflexivity).
  vm_compute. discriminate.
Qed.

(** The loop of the first method stops one position early: a repetition
    that ends the rendering, as [A1C] read twice at the end of
    [.!A1CA1C], is not counted.  The statement below leaves the score of
    such a rendering open. *)
Lemma trailing_repetition_is_not_counted :
  has_repetition ".!A1CA1C" = true
  /\ has_repetition_inside ".!A1CA1C" = false
  /\ some (callsign_patterns_of ".!A1CA1C") = false.
Proof. repeat split; vm_compute; reflexivity. Qed.

(** C9, amended: under 64 bits the heuristic answers that the data is
    insufficient and analyses nothing.  On 64 bits or more, each 0 or 1,
    the code renders the stream as the specification says, and its score
    is 30 for a call sign plus 25 for a group of exactly five digits
    between non-digits plus 25 for such a group of eight digits plus 20
    for a word of four to six letters, in either case, between non-word
    characters; a call sign is counted when an alphanumeric substring of
    3, 4 or 5 characters is immediately repeated with at least one more
    character behind it, and only when such a substring is immediately
    repeated.  The likelihood is HIGH from 70, MEDIUM from 40, LOW from 20
    and NONE below, and a stream whose rendering holds no such repetition,
    no such digit group and no such word scores 0 and is reported NONE. *)
Theorem monolit_score_by_features (bits : list Z)
    (binary_log : list bit_record) :
  ((List.length bits < 64)%nat ->
     detect_monolit_coding bits binary_log
     = [("error", VStr "Insufficient data for Monolit analysis")])
  /\ ((64 <= List.length bits)%nat -> forallb is_bit bits = true ->
      let rendering := ascii_rendering bits in
      let callsign := some (callsign_patterns_of rendering) in
      let score :=
        score_of callsign (has_five_digits rendering)
          (has_eight_digits rendering) (has_word rendering) in
      ascii_chars_of (bit_string_of bits) = Ok rendering
      /\ decimal_sequence_of (bit_string_of bits)
         = Ok (digits_only rendering)
      /\ (has_repetition_inside rendering = true -> callsign = true)
      /\ (callsign = true -> has_repetition rendering = true)
      /\ some (five_digit_groups_of (digits_only rendering))
         = has_five_digits rendering
      /\ some (eight_digit_groups_of (digits_only rendering))
         = has_eight_digits rendering
      /\ some (code_word_candidates_of rendering) = has_word rendering
      /\ monolit_score (callsign_patterns_of rendering)
           (five_digit_groups_of (digits_only rendering))
           (eight_digit_groups_of (digits_only rendering))
           (code_word_candidates_of rendering) = score
      /\ dict_get "monolit_likelihood"
           (detect_monolit_coding bits binary_log)
         = Some (VStr (likelihood_of score))
      /\ dict_get "error" (detect_monolit_coding bits binary_log) = None
      /\ (has_repetition rendering = false ->
          has_five_digits rendering = false ->
          has_eight_digits rendering = false ->
          has_word rendering = false ->
          score = 0%Z
          /\ dict_get "monolit_likelihood"
               (detect_monolit_coding bits binary_log)
             = Some (VStr "NONE - No clear Monolit patterns")))
  /\ (forall score : Z,
        (likelihood_of score = "HIGH - Strong Monolit characteristics"
           <-> (70 <= score)%Z)
        /\ (likelihood_of score = "MEDIUM - Some Monolit patterns"
           <-> (40 <= score < 70)%Z)
        /\ (likelihood_of score = "LOW - Few Monolit indicators"
           <-> (20 <= score < 40)%Z)
        /\ (likelihood_of score = "NONE - No clear Monolit patterns"
           <-> (score < 20)%Z)).
Proof.
  destruct (monolit_report bits binary_log) as (Short & Long & Bands).
  split; [exact Short|]. split; [|exact Bands].
  intros H B rendering callsign score.
  destruct (Long H B) as (a & d & Ha & Hd & K).
  pose proof (ascii_chars_rendering bits B) as Ra.
  pose proof (decimal_sequence_rendering bits B) as Rd.
  fold rendering in Ra, Rd.
  rewrite Ra in Ha. injection Ha as <-.
  rewrite Rd in Hd. injection Hd as <-.
  cbv zeta in K. destruct K as (S & G & E & _).
  assert (F5 : some (five_digit_groups_of (digits_only rendering))
               = has_five_digits rendering)
    by (apply digit_groups_found; lia).
  assert (F8 : some (eight_digit_groups_of (digits_only rendering))
               = has_eight_digits rendering)
    by (apply digit_groups_found; lia).
  assert (FW : some (code_word_candidates_of rendering) = has_word rendering)
    by apply code_words_found.
  rewrite F5, F8, FW in S, G. fold callsign in S, G.
  change ((if callsign then 30 else 0)
          + (if has_five_digits rendering then 25 else 0)
          + (if has_eight_digits rendering then 25 else 0)
          + (if has_word rendering then 20 else 0))%Z with score in S, G.
  split; [exact Ra|]. split; [exact Rd|].
  split; [apply repetition_inside_is_found|].
  split; [apply found_is_repetition|].
  split; [exact F5|]. split; [exact F8|]. split; [exact FW|].
  split; [exact S|]. split; [exact G|]. split; [exact E|].
  intros N1 N5 N8 NW.
  assert (C : callsign = false).
  { destruct callsign eqn:X; [|reflexivity].
    pose proof (found_is_repetition rendering X) as Y. congruence. }
  assert (Z0 : score = 0%Z).
  { unfold score. rewrite C, N5, N8, NW. reflexivity. }
  split; [exact Z0|]. rewrite G, Z0. reflexivity.
Qed.

End MonolitClaim.

(** C9 on the 17 characters [UVBUVB 12345 word]: a call sign read twice,
    a group of five digits and two words, no group of eight digits: the
    score is 75 and the likelihood HIGH. *)
Lemma monolit_score_by_features_witness :
  Pattern.dict_get "monolit_likelihood"
    (Monolit.detect_monolit_coding
       (Pattern.bits_of_text "UVBUVB 12345 word") [])
  = Some (Pattern.VStr "HIGH - Strong Monolit characteristics").
Proof.
  destruct (monolit_score_by_features
              (Pattern.bits_of_text "UVBUVB 12345 word") [])
    as (_ & H & _).
  destruct H as (_ & _ & _ & _ & _ & _ & _ & _ & G & _).
  - apply Nat.leb_le. vm_compute. reflexivity.
  - vm_compute. reflexivity.
  - rewrite G. vm_compute. reflexivity.
Defined.
